(** * crypto-bot: the decision core, embedded and verified

    A shallow embedding of the trading bot's decision core, one module per
    source file:

    - [config]          the profiles and thresholds of [config.py];
    - [strategy]        [process_raw_klines], [calculate_indicators] and
                        [generate_signal] of [strategy.py];
    - [risk_manager]    [check_market_crash] of [risk_manager.py], with
                        the exception its console line raises;
    - [trade_logger]    the trade log, [log_trade] and the position resolver
                        [get_last_buy_for_symbol] of [trade_logger.py];
    - [binance_client]  order rounding and [_parse_order_response] of
                        [binance_client.py];
    - [main]            the bot's state, the client's calls to the exchange,
                        [check_binance_btc_balance], [execute_buy],
                        [execute_sell], [process_symbol] and the product
                        loop of [run_strategy_cycle] of [main.py];
    - [cycle]           [get_enriched_balances], [get_24hr_ticker] and
                        [calculate_total_portfolio_value] of
                        [binance_client.py], [check_portfolio_risk] of
                        [risk_manager.py] and [run_strategy_cycle] of
                        [main.py];
    - [reports]         [log_daily_balance] and [has_logged_today] of
                        [trade_logger.py], [run_scheduled_tasks] of
                        [main.py] and the performance metrics of
                        [dashboard.py].

    Numbers.  Prices and quantities are Python/NumPy floats in the source.
    Finite values are modelled as exact rationals ([Q]); the IEEE special
    values that the indicator code relies on (NaN for "not yet available",
    the infinities produced by a division by zero inside pandas) are kept as
    explicit constructors of [fnum].  Rounding error of finite arithmetic
    and the sign of zero are not modelled.

    Effects.  The exchange and the clock are an arbitrary state machine
    ([Exchange W]); the bot's own state is the trade log and the
    [open_positions] cache.  A computation returns its result, the new state
    and the events it produced (calls, console lines, log rows), in order.
    The account, the 24-hour ticker and the hour of the day are further
    calls on the same world ([AccountApi W]).  An exception that the source
    does not catch is a result of its own ([Result], [Raising]) and ends
    the step, the product loop and the cycle.  The pauses between products
    and cycles, the notifier and the web pages of the dashboard are not
    modelled.

    The file has three parts: the embedding, the vocabulary and sample data
    of the properties, and the properties with their proofs. *)

From Stdlib Require Import List String Ascii Bool Arith ZArith QArith Qround Lia Lqa.
From Stdlib Require Import Sorted Permutation.
Import ListNotations.

Set Implicit Arguments.

(* ================================================================== *)
(** * Numbers: rationals extended with the IEEE special values        *)
(* ================================================================== *)

Definition Qltb (a b : Q) : bool := negb (Qle_bool b a).

Inductive fnum : Type :=
| Fin (q : Q)
| PInf
| NInf
| NaN.

Definition isna (x : fnum) : bool :=
  match x with NaN => true | _ => false end.

Definition fopp (x : fnum) : fnum :=
  match x with
  | Fin q => Fin (- q)
  | PInf => NInf
  | NInf => PInf
  | NaN => NaN
  end.

Definition fadd (x y : fnum) : fnum :=
  match x, y with
  | NaN, _ | _, NaN => NaN
  | Fin a, Fin b => Fin (a + b)
  | PInf, NInf | NInf, PInf => NaN
  | PInf, _ | _, PInf => PInf
  | NInf, _ | _, NInf => NInf
  end.

Definition fsub (x y : fnum) : fnum := fadd x (fopp y).

(** Multiplication; zero times an infinity is NaN. *)
Definition fmul (x y : fnum) : fnum :=
  match x, y with
  | NaN, _ | _, NaN => NaN
  | Fin a, Fin b => Fin (a * b)
  | Fin a, PInf | PInf, Fin a =>
      if Qltb 0 a then PInf else if Qltb a 0 then NInf else NaN
  | Fin a, NInf | NInf, Fin a =>
      if Qltb 0 a then NInf else if Qltb a 0 then PInf else NaN
  | PInf, PInf | NInf, NInf => PInf
  | PInf, NInf | NInf, PInf => NInf
  end.

(** NumPy division: a finite non-zero value over zero is an infinity, zero
    over zero is NaN; no exception is raised.  The zero has no sign here:
    over the source's negative zero the quotient is the infinity of the
    other sign. *)
Definition fdiv (x y : fnum) : fnum :=
  match x, y with
  | NaN, _ | _, NaN => NaN
  | Fin a, Fin b =>
      if Qeq_bool b 0 then
        if Qltb 0 a then PInf else if Qltb a 0 then NInf else NaN
      else Fin (a / b)
  | Fin _, PInf | Fin _, NInf => Fin 0
  | PInf, Fin b => if Qltb b 0 then NInf else PInf
  | NInf, Fin b => if Qltb b 0 then PInf else NInf
  | _, _ => NaN
  end.

(** Comparisons: every comparison with NaN is false. *)
Definition fltb (x y : fnum) : bool :=
  match x, y with
  | NaN, _ | _, NaN => false
  | Fin a, Fin b => Qltb a b
  | NInf, NInf => false
  | NInf, _ => true
  | _, PInf => match x with PInf => false | _ => true end
  | _, _ => false
  end.

Definition fleb (x y : fnum) : bool :=
  match x, y with
  | NaN, _ | _, NaN => false
  | Fin a, Fin b => Qle_bool a b
  | NInf, _ => true
  | _, PInf => true
  | _, _ => false
  end.

Definition fgtb (x y : fnum) : bool := fltb y x.
Definition fgeb (x y : fnum) : bool := fleb y x.

(** Equality of values up to the representation of the rational. *)
Definition feq (x y : fnum) : Prop :=
  match x, y with
  | Fin a, Fin b => a == b
  | PInf, PInf | NInf, NInf | NaN, NaN => True
  | _, _ => False
  end.

(** [lo <= x <= hi] for a finite [x]; false for NaN and the infinities. *)
Definition in_range (lo hi : Q) (x : fnum) : Prop :=
  match x with
  | Fin q => lo <= q /\ q <= hi
  | _ => False
  end.

(* ================================================================== *)
(** * Data frames                                                      *)
(* ================================================================== *)

(** One kline after [process_raw_klines]; only [time] and [close] are read
    by the decision core. *)
Record Bar : Type := { time : Z; close : Q }.

(** The indicator columns.  The source names them [f"SMA_{n}"] and
    [f"RSI_{n}"]; the structured key is that name. *)
Inductive column : Type :=
| SMA (window : nat)
| RSI (period : nat).

Definition column_eqb (a b : column) : bool :=
  match a, b with
  | SMA m, SMA n => Nat.eqb m n
  | RSI m, RSI n => Nat.eqb m n
  | _, _ => false
  end.

Record DataFrame : Type := {
  bars : list Bar;
  indicators : list (column * list fnum)
}.

Definition len (df : DataFrame) : nat := List.length (bars df).

Fixpoint assign (c : column) (v : list fnum) (cols : list (column * list fnum))
  : list (column * list fnum) :=
  match cols with
  | [] => [(c, v)]
  | (c', v') :: rest =>
      if column_eqb c' c then (c, v) :: rest else (c', v') :: assign c v rest
  end.

(** [df[c] = v] *)
Definition set_column (c : column) (v : list fnum) (df : DataFrame) : DataFrame :=
  {| bars := bars df; indicators := assign c v (indicators df) |}.

Fixpoint get_column (c : column) (cols : list (column * list fnum))
  : option (list fnum) :=
  match cols with
  | [] => None
  | (c', v) :: rest => if column_eqb c' c then Some v else get_column c rest
  end.

(** [c in df.columns] *)
Definition has_column (c : column) (df : DataFrame) : bool :=
  match get_column c (indicators df) with Some _ => true | None => false end.

(** A row of the frame, read by column.  A missing column reads as NaN; the
    source only reads columns whose presence it has checked. *)
Definition Row : Type := column -> fnum.

Definition row_at (df : DataFrame) (i : nat) : Row :=
  fun c => match get_column c (indicators df) with
           | Some v => nth i v NaN
           | None => NaN
           end.

(** [df.iloc[-k]] for [k >= 1]: [None] stands for pandas' IndexError. *)
Definition iloc_back (df : DataFrame) (k : nat) : option Row :=
  if (k <=? len df)%nat then Some (row_at df (len df - k)) else None.

(** [df.iloc[-k]['close']] *)
Definition close_back (df : DataFrame) (k : nat) : Q :=
  nth (len df - k) (map close (bars df)) 0.

(* ================================================================== *)
(** * config.py                                                        *)
(* ================================================================== *)

Module config.

Record Params : Type := {
  granularity : string;
  short_sma : nat;
  long_sma : nat;
  rsi_period : nat;
  rsi_overbought : Q;
  rsi_oversold : Q
}.



Definition PRODUCTS : list string :=
  ["BTCUSDT"; "ETHUSDT"; "ADAUSDT"; "SOLUSDT"; "DOGEUSDT"; "SHIBUSDT"]%string.

Definition QUOTE_CURRENCY : string := "USDT".

Definition TRADE_AMOUNT_USDT : Q := 15.
Definition LIMIT_ORDER_OFFSET : Q := 1 # 10000.

Definition SAFE_PORTFOLIO_VALUE_THRESHOLD : Q := 200.
Definition MARKET_CRASH_THRESHOLD_PERCENT : Q := - (10).
Definition BINANCE_BTC_MIN_VALUE : Q := 50.

End config.

(* ================================================================== *)
(** * strategy.py                                                      *)
(* ================================================================== *)

Module strategy.
Import config.

(** [process_raw_klines]: [None] for a missing or empty answer, otherwise
    the bars sorted by time (pandas' [sort_values('time')]; an insertion
    sort here, the order of bars with equal times is not used). *)
Fixpoint insert_bar (b : Bar) (l : list Bar) : list Bar :=
  match l with
  | [] => [b]
  | x :: r => if (time b <? time x)%Z then b :: x :: r else x :: insert_bar b r
  end.

Definition sort_values_time (l : list Bar) : list Bar :=
  fold_left (fun acc b => insert_bar b acc) l [].

Definition process_raw_klines (klines_json : option (list Bar)) : option DataFrame :=
  match klines_json with
  | None => None
  | Some [] => None
  | Some l => Some {| bars := sort_values_time l; indicators := [] |}
  end.

(** [Series.diff()]: NaN first, then the difference to the previous value. *)
Fixpoint diff_from (prev : fnum) (xs : list fnum) : list fnum :=
  match xs with
  | [] => []
  | x :: r => fsub x prev :: diff_from x r
  end.

Definition diff (xs : list fnum) : list fnum :=
  match xs with
  | [] => []
  | x :: r => NaN :: diff_from x r
  end.

(** [Series.where(cond, other)]: keep the value where [cond] holds. *)
Definition where_ (cond : fnum -> bool) (other : fnum) (xs : list fnum) : list fnum :=
  map (fun x => if cond x then x else other) xs.

Definition fsum (xs : list fnum) : fnum := fold_right fadd (Fin 0) xs.

(** The mean of the last [w] values of [pre] (the values up to and including
    the current row): NaN while fewer than [w] rows are available, when the
    window holds a NaN, and for an empty window.  The value is the exact
    mean; the source accumulates it in binary floating point, so its value
    can differ from this one in the last bits.  Which rows are NaN is the
    same in both. *)
Definition window_mean (w : nat) (pre : list fnum) : fnum :=
  if (w =? 0)%nat || (List.length pre <? w)%nat then NaN
  else fdiv (fsum (skipn (List.length pre - w) pre)) (Fin (inject_Z (Z.of_nat w))).

(** [Series.rolling(window=w).mean()] *)
Definition rolling_mean (w : nat) (xs : list fnum) : list fnum :=
  map (fun i => window_mean w (firstn (S i) xs)) (seq 0 (List.length xs)).

Definition series_div (xs ys : list fnum) : list fnum :=
  map (fun p => fdiv (fst p) (snd p)) (combine xs ys).

Definition fillna (v : fnum) (xs : list fnum) : list fnum :=
  map (fun x => if isna x then v else x) xs.

Definition close_series (df : DataFrame) : list fnum :=
  map (fun b => Fin (close b)) (bars df).

(** The intermediate series of the RSI computation, as the source names
    them. *)
Definition rsi_delta (df : DataFrame) : list fnum := diff (close_series df).

Definition rsi_gain (df : DataFrame) (rsi_period : nat) : list fnum :=
  rolling_mean rsi_period (where_ (fun d => fgtb d (Fin 0)) (Fin 0) (rsi_delta df)).

Definition rsi_loss (df : DataFrame) (rsi_period : nat) : list fnum :=
  rolling_mean rsi_period
    (map fopp (where_ (fun d => fltb d (Fin 0)) (Fin 0) (rsi_delta df))).

(** [rs = gain / loss; rs = rs.fillna(0)] *)
Definition rsi_rs (df : DataFrame) (rsi_period : nat) : list fnum :=
  fillna (Fin 0) (series_div (rsi_gain df rsi_period) (rsi_loss df rsi_period)).

(** [100 - (100 / (1 + rs))] *)
Definition rsi_of_rs (rs : fnum) : fnum :=
  fsub (Fin 100) (fdiv (Fin 100) (fadd (Fin 1) rs)).

Definition calculate_indicators (df : option DataFrame) (params : Params)
  : option DataFrame :=
  match df with
  | None => None
  | Some df =>
      let short_sma_period := short_sma params in
      let long_sma_period := long_sma params in
      let rsi_period := rsi_period params in
      let df1 := set_column (SMA short_sma_period)
                   (rolling_mean short_sma_period (close_series df)) df in
      let df2 := set_column (SMA long_sma_period)
                   (rolling_mean long_sma_period (close_series df1)) df1 in
      let rs := rsi_rs df2 rsi_period in
      Some (set_column (RSI rsi_period) (map rsi_of_rs rs) df2)
  end.

Inductive Signal : Type := BUY | SELL | HOLD.

(** The reason strings of [generate_signal]; the overbought reason carries
    the RSI value that the source formats into it. *)
Inductive Reason : Type :=
| Not_enough_data
| Indicator_columns_missing
| Indicators_still_calculating
| Golden_Cross_RSI_Confirmation
| Aggressive_Sell_RSI_Overbought (rsi : fnum)
| Death_Cross
| No_signal.

(** The outcome of a call that may raise. *)
Inductive Result (A : Type) : Type :=
| Ok (a : A)
| IndexError
| AttributeError.
Arguments IndexError {A}.
Arguments AttributeError {A}.

Definition sma_cross_over_of (short_sma_col long_sma_col : column)
  (last_row prev_row : Row) : bool :=
  fleb (prev_row short_sma_col) (prev_row long_sma_col)
  && fgtb (last_row short_sma_col) (last_row long_sma_col).

Definition sma_cross_under_of (short_sma_col long_sma_col : column)
  (last_row prev_row : Row) : bool :=
  fgeb (prev_row short_sma_col) (prev_row long_sma_col)
  && fltb (last_row short_sma_col) (last_row long_sma_col).

Definition rsi_is_overbought_of (rsi_col : column) (params : Params)
  (last_row : Row) : bool :=
  fgtb (last_row rsi_col) (Fin (rsi_overbought params)).

Definition generate_signal (df : option DataFrame) (params : Params)
  : Result (Signal * Reason) :=
  let short_sma_col := SMA (short_sma params) in
  let long_sma_col := SMA (long_sma params) in
  let rsi_col := RSI (rsi_period params) in
  match df with
  | None => Ok (HOLD, Not_enough_data)
  | Some df =>
      if (len df <? long_sma params)%nat then Ok (HOLD, Not_enough_data)
      else if negb (forallb (fun c => has_column c df)
                      [short_sma_col; long_sma_col; rsi_col])
      then Ok (HOLD, Indicator_columns_missing)
      else
        match iloc_back df 1, iloc_back df 2 with
        | Some last_row, Some prev_row =>
            if isna (last_row short_sma_col) || isna (last_row long_sma_col)
            then Ok (HOLD, Indicators_still_calculating)
            else
              let sma_cross_over :=
                sma_cross_over_of short_sma_col long_sma_col last_row prev_row in
              let rsi_confirm_buy :=
                fltb (last_row rsi_col) (Fin (rsi_overbought params)) in
              if sma_cross_over && rsi_confirm_buy
              then Ok (BUY, Golden_Cross_RSI_Confirmation)
              else
                let sma_cross_under :=
                  sma_cross_under_of short_sma_col long_sma_col last_row prev_row in
                let rsi_is_overbought :=
                  rsi_is_overbought_of rsi_col params last_row in
                if rsi_is_overbought
                then Ok (SELL, Aggressive_Sell_RSI_Overbought (last_row rsi_col))
                else if sma_cross_under then Ok (SELL, Death_Cross)
                else Ok (HOLD, No_signal)
        | _, _ => IndexError
        end
  end.

End strategy.

(* ================================================================== *)
(** * risk_manager.py: the crash check                                 *)
(* ================================================================== *)

Module risk_manager.
Import config strategy.

(** [((last_close - prev_close) / prev_close) * 100] on NumPy floats: over
    a zero [prev_close] the quotient is an infinity or NaN.  A finite
    result is computed exactly here; the float result of the source can
    differ from it in the last bits, which decides the comparison of
    [check_market_crash] only for a change within rounding distance of the
    threshold. *)
Definition price_change_percent (last_close prev_close : Q) : fnum :=
  fmul (fdiv (fsub (Fin last_close) (Fin prev_close)) (Fin prev_close)) (Fin 100).

(** [df.name].  Attribute access on a frame falls back to its columns;
    the frames of the bot have the kline columns and the indicator columns,
    none of them called [name], and nothing sets the attribute: the access
    raises AttributeError. *)
Definition df_name (df : DataFrame) : Result string := AttributeError.

(** [check_market_crash].  On a detected crash the console line is built
    first, from [df.name], and [return True] comes after it. *)
Definition check_market_crash (df : option DataFrame) : Result bool :=
  match df with
  | None => Ok false
  | Some df =>
      if (len df <? 2)%nat then Ok false
      else
        let last_close := close_back df 1 in
        let prev_close := close_back df 2 in
        if Qeq_bool prev_close 0 then Ok false
        else if fltb (price_change_percent last_close prev_close)
                  (Fin MARKET_CRASH_THRESHOLD_PERCENT)
        then
          match df_name df with
          | Ok _ => Ok true
          | IndexError => IndexError
          | AttributeError => AttributeError
          end
        else Ok false
  end.

End risk_manager.

(* ================================================================== *)
(** * Strings                                                          *)
(* ================================================================== *)

(** [pat in s] *)
Fixpoint contains (pat s : string) : bool :=
  String.prefix pat s
  || match s with
     | EmptyString => false
     | String _ r => contains pat r
     end.

(** [s.replace(pat, '')] for a non-empty [pat]: every occurrence of [pat],
    found from the left, is dropped.  [skip] counts the characters of a
    matched occurrence still to drop. *)
Fixpoint remove_from (pat : string) (skip : nat) (s : string) : string :=
  match s with
  | EmptyString => EmptyString
  | String c r =>
      match skip with
      | S k => remove_from pat k r
      | O =>
          if String.prefix pat s then remove_from pat (String.length pat - 1) r
          else String c (remove_from pat 0 r)
      end
  end.

Definition remove_all (pat s : string) : string :=
  match pat with
  | EmptyString => s
  | _ => remove_from pat 0 s
  end.

Definition upper_ascii (c : ascii) : ascii :=
  let n := nat_of_ascii c in
  if ((97 <=? n) && (n <=? 122))%nat then ascii_of_nat (n - 32) else c.

(** [s.upper()] on ASCII text *)
Fixpoint upper (s : string) : string :=
  match s with
  | EmptyString => EmptyString
  | String c r => String (upper_ascii c) (upper r)
  end.

(* ================================================================== *)
(** * trade_logger.py                                                  *)
(* ================================================================== *)

Module trade_logger.

(** One row of the trade log.  [timestamp] is the parsed time of the row
    (seconds); the source writes it with second resolution and compares the
    parsed values. *)
Record TradeRecord : Type := {
  timestamp : Z;
  order_id : Z;
  symbol : string;
  side : string;
  price : Q;
  quantity : Q;
  cost : Q;
  commission : Q;
  pnl : Q
}.

(** The row [log_trade] builds; [now] is the clock reading taken by the
    call. *)
Definition log_entry (now : Z) (symbol side : string)
  (price quantity cost commission : Q) (order_id : Z) (pnl : Q) : TradeRecord :=
  {| timestamp := now; order_id := order_id; symbol := symbol;
     side := upper side; price := price; quantity := quantity;
     cost := cost; commission := commission; pnl := pnl |}.

(** [log_trade]: the row is appended at the end of the log.  The log is
    the frame [read_log] gives; a row written to the file is read back as
    it was written when its symbol is one of the bot's keys
    ([f"{exchange}_{product_id}"]), while [read_csv] would read a symbol
    such as [NA] back as a missing value. *)
Definition log_trade (now : Z) (symbol side : string)
  (price quantity cost commission : Q) (order_id : Z) (pnl : Q)
  (log : list TradeRecord) : list TradeRecord :=
  log ++ [log_entry now symbol side price quantity cost commission order_id pnl].

(** [df.tail(1)], as the row it holds if any *)
Definition tail1 (l : list TradeRecord) : option TradeRecord :=
  match rev l with
  | [] => None
  | r :: _ => Some r
  end.

Definition get_last_buy_for_symbol (log_df : list TradeRecord) (sym : string)
  : option TradeRecord :=
  match log_df with
  | [] => None
  | _ =>
      let symbol_df := filter (fun r => String.eqb (symbol r) sym) log_df in
      let last_buy := tail1 (filter (fun r => String.eqb (side r) "BUY") symbol_df) in
      let last_sell := tail1 (filter (fun r => String.eqb (side r) "SELL") symbol_df) in
      match last_buy with
      | None => None
      | Some buy =>
          match last_sell with
          | Some sell =>
              if (timestamp sell >? timestamp buy)%Z then None else Some buy
          | None => Some buy
          end
      end
  end.

End trade_logger.

(* ================================================================== *)
(** * binance_client.py                                                *)
(* ================================================================== *)

Module binance_client.

Record Fill : Type := { qty : Q; fill_price : Q; fill_commission : Q }.

(** The exchange's answer to an order.  [fills] is empty when the answer
    carries no fills (the key is missing or its list is empty). *)
Record OrderResponse : Type := { orderId : Z; fills : list Fill }.

(** The dictionary returned by [_parse_order_response]. *)
Record OrderDetails : Type := {
  od_order_id : Z;
  od_price : Q;
  od_quantity : Q;
  od_cost : Q;
  od_commission : Q
}.

Record SymbolInfo : Type := { tick_size : Q; step_size : Q }.

(** [connected] is [self.client is not None]. *)
Record BinanceClient : Type := {
  connected : bool;
  symbol_info : list (string * SymbolInfo)
}.

(** The exchange and the clock, as seen by the bot: every call reads and may
    change the outside world [W].  [None] stands for a raised exception,
    which each client method catches. *)
Record Exchange (W : Type) : Type := {
  api_get_asset_balance : string -> W -> option Q * W;
  api_get_symbol_ticker : string -> W -> option Q * W;
  api_get_historical_klines : string -> string -> W -> option (list Bar) * W;
  api_create_order : string -> string -> Q -> Q -> W -> option OrderResponse * W;
  clock_now : W -> Z * W
}.

Fixpoint lookup_info (s : string) (l : list (string * SymbolInfo)) : option SymbolInfo :=
  match l with
  | [] => None
  | (k, v) :: r => if String.eqb k s then Some v else lookup_info s r
  end.

Definition Qsum (l : list Q) : Q := fold_right Qplus 0 l.

Definition _parse_order_response (order_response : OrderResponse) : option OrderDetails :=
  match fills order_response with
  | [] => None
  | fs =>
      let total_quantity := Qsum (map qty fs) in
      let total_cost := Qsum (map (fun f => qty f * fill_price f) fs) in
      let avg_price := if Qltb 0 total_quantity then total_cost / total_quantity else 0 in
      let total_commission := Qsum (map fill_commission fs) in
      Some {| od_order_id := orderId order_response; od_price := avg_price;
              od_quantity := total_quantity; od_cost := total_cost;
              od_commission := total_commission |}
  end.

(** [round(x, 8)]: to the nearest multiple of 1e-8, ties to even. *)
Definition round_half_even (x : Q) : Z :=
  let f := Qfloor x in
  let r := x - inject_Z f in
  if Qltb r (1 # 2) then f
  else if Qltb (1 # 2) r then (f + 1)%Z
  else if Z.even f then f else (f + 1)%Z.

Definition round8 (x : Q) : Q := Qmake (round_half_even (x * 100000000)) 100000000.

(** [round(math.floor(v / size) * size, 8)]; [None] is the ZeroDivisionError
    of a zero [size].  The quotient is floored exactly; the source floors
    the float quotient, which is one step lower where the float division
    falls just below an integer (0.15 / 0.0001 is 1499.99... in floats). *)
Definition round_down_to (size v : Q) : option Q :=
  if Qeq_bool size 0 then None
  else Some (round8 (inject_Z (Qfloor (v / size)) * size)).

Definition _round_price_to_tick (info : SymbolInfo) (price : Q) : option Q :=
  round_down_to (tick_size info) price.

Definition _round_quantity_to_step (info : SymbolInfo) (quantity : Q) : option Q :=
  round_down_to (step_size info) quantity.

End binance_client.

(* ================================================================== *)
(** * main.py: the bot's state and its per-symbol step                 *)
(* ================================================================== *)

Module main.
Import config strategy trade_logger binance_client.

(** What a step does that can be seen from outside, in the order it does
    it: the stages it enters (each is a call or a console line of
    [process_symbol]), the orders handed to the exchange and the rows
    written to the trade log. *)
Inductive Event : Type :=
| Canary_checked (ok : bool)
| BTC_failsafe
| Analyzing (product_id : string)
| Indicators_calculated
| Position_status (product_id : string) (is_open : bool)
| Crash_checked (crash : bool)
| Signal_generated (signal : Signal) (reason : Reason)
| Execute_buy (product_id : string)
| Execute_sell (product_id : string)
| Order_requested (sym side : string) (quantity price : Q)
| Order_sent (sym side : string) (quantity price : Q)
| Trade_logged (r : TradeRecord).

(** The bot together with what it acts on: the outside world, the trade log
    file and the in-memory [open_positions] cache. *)
Record BotState (W : Type) : Type := {
  world : W;
  ledger : list TradeRecord;
  open_positions : list (string * string * bool)
}.

Section Bot.

Variable W : Type.
Variable api : Exchange W.

(** A computation of the bot: from a state to a result, the state it leaves
    and the events it produced, oldest first. *)
Definition M (A : Type) : Type := BotState W -> A * BotState W * list Event.

Definition ret {A : Type} (a : A) : M A := fun st => (a, st, []).

Definition bind {A B : Type} (m : M A) (k : A -> M B) : M B :=
  fun st =>
    match m st with
    | (a, st1, t1) =>
        match k a st1 with
        | (b, st2, t2) => (b, st2, t1 ++ t2)
        end
    end.

Notation "x <- m ;; k" := (bind m (fun x => k))
  (at level 61, m at next level, right associativity).
Notation "m ;;; k" := (bind m (fun _ => k))
  (at level 61, right associativity).

Definition emit (e : Event) : M unit := fun st => (tt, st, [e]).

(** A call to the outside world. *)
Definition call {A : Type} (f : W -> A * W) : M A :=
  fun st =>
    match f (world st) with
    | (a, w) => (a, {| world := w; ledger := ledger st;
                       open_positions := open_positions st |}, [])
    end.

Definition read_log : M (list TradeRecord) := fun st => (ledger st, st, []).

Definition write_log (l : list TradeRecord) : M unit :=
  fun st => (tt, {| world := world st; ledger := l;
                    open_positions := open_positions st |}, []).

Fixpoint set_flag (exchange product_id : string) (v : bool)
  (l : list (string * string * bool)) : list (string * string * bool) :=
  match l with
  | [] => [(exchange, product_id, v)]
  | (e, p, b) :: r =>
      if String.eqb e exchange && String.eqb p product_id
      then (e, p, v) :: r
      else (e, p, b) :: set_flag exchange product_id v r
  end.

Fixpoint get_flag (exchange product_id : string)
  (l : list (string * string * bool)) : bool :=
  match l with
  | [] => false
  | (e, p, b) :: r =>
      if String.eqb e exchange && String.eqb p product_id then b
      else get_flag exchange product_id r
  end.

(** [self.open_positions[exchange][product_id] = v] *)
Definition set_open (exchange product_id : string) (v : bool) : M unit :=
  fun st => (tt, {| world := world st; ledger := ledger st;
                    open_positions :=
                      set_flag exchange product_id v (open_positions st) |}, []).

(** [self.open_positions[exchange][product_id]]; the source reads a key only
    after writing it. *)
Definition get_open (exchange product_id : string) : M bool :=
  fun st => (get_flag exchange product_id (open_positions st), st, []).

(** ** The client's methods *)

Definition get_asset_balance (client : BinanceClient) (asset : string) : M Q :=
  if negb (connected client) then ret 0
  else
    r <- call (api_get_asset_balance api asset) ;;
    match r with
    | Some free => ret free
    | None => ret 0
    end.

Definition get_current_price (client : BinanceClient) (sym : string) : M (option Q) :=
  if negb (connected client) then ret None
  else call (api_get_symbol_ticker api sym).

Definition get_historic_rates (client : BinanceClient) (sym interval : string)
  : M (option (list Bar)) :=
  if negb (connected client) then ret None
  else call (api_get_historical_klines api sym interval).

Definition place_limit_order (client : BinanceClient) (sym side : string)
  (quantity price : Q) : M (option OrderDetails) :=
  emit (Order_requested sym side quantity price) ;;;
  if negb (connected client) then ret None
  else
    match lookup_info sym (symbol_info client) with
    | None => ret None
    | Some info =>
        match _round_quantity_to_step info quantity with
        | None => ret None
        | Some rounded_quantity =>
            if Qle_bool rounded_quantity 0 then ret None
            else
              match _round_price_to_tick info price with
              | None => ret None
              | Some rounded_price =>
                  emit (Order_sent sym side rounded_quantity rounded_price) ;;;
                  order <- call (api_create_order api sym side
                                   rounded_quantity rounded_price) ;;
                  match order with
                  | None => ret None
                  | Some order => ret (_parse_order_response order)
                  end
              end
        end
    end.

(** ** risk_manager.check_binance_btc_balance *)

Definition check_binance_btc_balance (client : BinanceClient) : M bool :=
  btc_balance <- get_asset_balance client "BTC" ;;
  btc_price <- get_current_price client "BTCUSDT" ;;
  match btc_price with
  | None => ret false
  | Some btc_price =>
      let btc_value := btc_balance * btc_price in
      if Qltb btc_value BINANCE_BTC_MIN_VALUE then ret false else ret true
  end.

(** ** trade_logger on the bot's log file *)

Definition log_trade_m (sym side : string) (price quantity cost commission : Q)
  (order_id : Z) (pnl : Q) : M unit :=
  now <- call (clock_now api) ;;
  log <- read_log ;;
  write_log (log_trade now sym side price quantity cost commission order_id pnl log) ;;;
  emit (Trade_logged (log_entry now sym side price quantity cost commission order_id pnl)).

(** ** TradingBot *)

(** A price that passes [if not price: return]. *)
Definition usable_price (price : option Q) : option Q :=
  match price with
  | Some p => if Qeq_bool p 0 then None else Some p
  | None => None
  end.

(** [order_details and order_details.get('order_id')] *)
Definition accepted (order_details : option OrderDetails) : option OrderDetails :=
  match order_details with
  | Some d => if (od_order_id d =? 0)%Z then None else Some d
  | None => None
  end.

Definition execute_buy (exchange : string) (client : BinanceClient)
  (product_id : string) : M unit :=
  emit (Execute_buy product_id) ;;;
  price <- get_current_price client product_id ;;
  match usable_price price with
  | None => ret tt
  | Some price =>
      let quantity := TRADE_AMOUNT_USDT / price in
      let limit_price := price * (1 - LIMIT_ORDER_OFFSET) in
      order_details <- place_limit_order client product_id "buy" quantity limit_price ;;
      match accepted order_details with
      | Some d =>
          log_trade_m (exchange ++ "_" ++ product_id) "BUY" (od_price d)
            (od_quantity d) (od_cost d) (od_commission d) (od_order_id d) 0 ;;;
          set_open exchange product_id true
      | None => ret tt
      end
  end.

Definition execute_sell (exchange : string) (client : BinanceClient)
  (product_id : string) (last_buy : TradeRecord) : M unit :=
  emit (Execute_sell product_id) ;;;
  let base_currency := remove_all QUOTE_CURRENCY product_id in
  balance <- get_asset_balance client base_currency ;;
  if Qltb 0 balance then
    price <- get_current_price client product_id ;;
    match usable_price price with
    | None => ret tt
    | Some price =>
        let limit_price := price * (1 + LIMIT_ORDER_OFFSET) in
        order_details <- place_limit_order client product_id "sell" balance limit_price ;;
        match accepted order_details with
        | Some d =>
            let buy_cost := cost last_buy in
            let sell_value := od_cost d in
            let net_pnl := sell_value - buy_cost in
            log_trade_m (exchange ++ "_" ++ product_id) "SELL" (od_price d)
              balance sell_value (od_commission d) (od_order_id d) net_pnl ;;;
            set_open exchange product_id false
        | None => ret tt
        end
    end
  else ret tt.

Definition signal_eqb (a b : Signal) : bool :=
  match a, b with
  | BUY, BUY | SELL, SELL | HOLD, HOLD => true
  | _, _ => false
  end.

(** Whether the crash check found a crash: it then answers [True] or raises
    while building its console line. *)
Definition crash_found (r : Result bool) : bool :=
  match r with
  | Ok crash => crash
  | _ => true
  end.

(** [process_symbol].  The result is an exception when [check_market_crash]
    or [generate_signal] raises: the step stops there and the exception
    leaves the cycle. *)
Definition process_symbol (exchange : string) (client : BinanceClient)
  (product_id : string) (portfolio_safe : bool) (strategy_params : Params)
  : M (Result unit) :=
  halted <-
    (if String.eqb exchange "binance" && contains "BTC" product_id then
       ok <- check_binance_btc_balance client ;;
       emit (Canary_checked ok) ;;;
       ret (negb ok)
     else ret false) ;;
  if halted then emit BTC_failsafe ;;; ret (Ok tt)
  else
    emit (Analyzing product_id) ;;;
    klines <- get_historic_rates client product_id (granularity strategy_params) ;;
    let df_raw := process_raw_klines klines in
    let df_with_indicators := calculate_indicators df_raw strategy_params in
    match df_with_indicators with
    | None => ret (Ok tt)
    | Some df =>
        if (len df =? 0)%nat then ret (Ok tt)
        else
          emit Indicators_calculated ;;;
          let log_symbol := (exchange ++ "_" ++ product_id)%string in
          log_df <- read_log ;;
          let last_buy := get_last_buy_for_symbol log_df log_symbol in
          set_open exchange product_id
            (match last_buy with Some _ => true | None => false end) ;;;
          is_open <- get_open exchange product_id ;;
          emit (Position_status product_id is_open) ;;;
          let crash := risk_manager.check_market_crash df_with_indicators in
          emit (Crash_checked (crash_found crash)) ;;;
          match crash with
          | IndexError => ret IndexError
          | AttributeError => ret AttributeError
          | Ok true => ret (Ok tt)
          | Ok false =>
            match generate_signal df_with_indicators strategy_params with
            | IndexError => ret IndexError
            | AttributeError => ret AttributeError
            | Ok (signal, reason) =>
                emit (Signal_generated signal reason) ;;;
                is_open <- get_open exchange product_id ;;
                if signal_eqb signal BUY && negb is_open && portfolio_safe then
                  execute_buy exchange client product_id ;;; ret (Ok tt)
                else if signal_eqb signal SELL && is_open then
                  match last_buy with
                  | Some lb => execute_sell exchange client product_id lb ;;; ret (Ok tt)
                  | None => ret (Ok tt)
                  end
                else ret (Ok tt)
            end
          end
    end.

(** The product loop of [run_strategy_cycle] for one exchange, after the
    portfolio check has produced [is_safe]; an exception ends the loop. *)
Fixpoint process_products (exchange : string) (client : BinanceClient)
  (products : list string) (is_safe : bool) (active_strategy : Params)
  : M (Result unit) :=
  match products with
  | [] => ret (Ok tt)
  | product_id :: rest =>
      r <- process_symbol exchange client product_id is_safe active_strategy ;;
      match r with
      | IndexError => ret IndexError
      | AttributeError => ret AttributeError
      | Ok _ => process_products exchange client rest is_safe active_strategy
      end
  end.

End Bot.

End main.

(* ================================================================== *)
(** * The portfolio check and the strategy cycle                       *)
(* ================================================================== *)

(** [BinanceClient.get_enriched_balances], [get_24hr_ticker] and
    [calculate_total_portfolio_value] of binance_client.py,
    [check_portfolio_risk] of risk_manager.py and
    [TradingBot.run_strategy_cycle] of main.py. *)
Module cycle.
Import config strategy trade_logger binance_client main.


(** One entry of [get_account()['balances']]. *)
Record RawBalance : Type := { asset : string; free : Q }.

(** An entry with the keys [get_enriched_balances] adds to it. *)
Record EnrichedBalance : Type := {
  eb_asset : string;
  eb_free : Q;
  usd_value : Q;
  unrealized_pnl : Q;
  unrealized_pnl_pct : Q;
  pnl_24h : Q;
  pnl_24h_pct : Q
}.

(** The 24-hour statistics of a symbol, [None] inside when the answer has
    no ['priceChangePercent']. *)
Record Ticker : Type := { priceChangePercent : option Q }.

(** The calls of the cycle beyond those of [Exchange].  [None] stands for a
    raised exception (or, for the ticker, an empty answer):
    [get_24hr_ticker] catches it, [get_enriched_balances] does not catch
    the one of [get_account]. *)
Record AccountApi (W : Type) : Type := {
  api_get_account : W -> option (list RawBalance) * W;
  api_get_ticker : string -> W -> option Ticker * W;
  utc_hour : W -> nat * W
}.

(** The exceptions that leave the cycle: the one raised by [get_account],
    the IndexError of [generate_signal] and the AttributeError of
    [check_market_crash]. *)
Inductive Exception : Type := Account_error | Index_error | Attribute_error.

Inductive Raising (A : Type) : Type :=
| Returns (a : A)
| Raises (e : Exception).

Arguments Raises {A} e.

(** [list.sort(key=...)] with a boolean key: a stable sort, entries whose
    key is [False] first. *)
Fixpoint insert_by_key {A : Type} (key : A -> bool) (x : A) (l : list A) : list A :=
  match l with
  | [] => [x]
  | y :: r =>
      if negb (key x) && key y then x :: y :: r
      else y :: insert_by_key key x r
  end.

Definition sort_by_key {A : Type} (key : A -> bool) (l : list A) : list A :=
  fold_left (fun acc x => insert_by_key key x acc) l [].

Section Cycle.

Variable W : Type.
Variable api : Exchange W.
Variable account : AccountApi W.

Notation "x <- m ;; k" := (bind m (fun x => k))
  (at level 61, m at next level, right associativity).

Definition get_24hr_ticker (client : BinanceClient) (sym : string)
  : M W (option Ticker) :=
  if negb (connected client) then ret None
  else call (api_get_ticker account sym).

(** The body of the loop of [get_enriched_balances] for an entry with a
    positive free amount. *)
Definition enrich (client : BinanceClient) (balance : RawBalance)
  : M W EnrichedBalance :=
  let quote_currency := QUOTE_CURRENCY in
  if String.eqb (asset balance) quote_currency then
    ret {| eb_asset := asset balance; eb_free := free balance;
           usd_value := free balance;
           unrealized_pnl := 0; unrealized_pnl_pct := 0;
           pnl_24h := 0; pnl_24h_pct := 0 |}
  else
    let sym := (asset balance ++ quote_currency)%string in
    price <- get_current_price api client sym ;;
    match usable_price price with
    | None =>
        ret {| eb_asset := asset balance; eb_free := free balance;
               usd_value := 0;
               unrealized_pnl := 0; unrealized_pnl_pct := 0;
               pnl_24h := 0; pnl_24h_pct := 0 |}
    | Some price =>
        let usd := free balance * price in
        log_df <- @read_log W ;;
        let last_buy := get_last_buy_for_symbol log_df ("binance_" ++ sym) in
        let pnl :=
          match last_buy with
          | Some lb =>
              let cost_basis := cost lb in
              (usd - cost_basis,
               if Qltb 0 cost_basis then ((usd - cost_basis) / cost_basis) * 100
               else 0)
          | None => (0, 0)
          end in
        ticker_info <- get_24hr_ticker client sym ;;
        let pnl_day :=
          match ticker_info with
          | Some t =>
              let price_change_percent :=
                match priceChangePercent t with Some c => c | None => 0 end in
              let cost_basis_24h :=
                if Qeq_bool (100 + price_change_percent) 0 then usd
                else usd / (1 + price_change_percent / 100) in
              (usd - cost_basis_24h, price_change_percent)
          | None => (0, 0)
          end in
        ret {| eb_asset := asset balance; eb_free := free balance;
               usd_value := usd;
               unrealized_pnl := fst pnl; unrealized_pnl_pct := snd pnl;
               pnl_24h := fst pnl_day; pnl_24h_pct := snd pnl_day |}
    end.

(** The loop over the raw balances, with its two accumulators. *)
Fixpoint enrich_loop (client : BinanceClient) (raw_balances : list RawBalance)
  (enriched_balances : list EnrichedBalance) (total_portfolio_value : Q)
  : M W (list EnrichedBalance * Q) :=
  match raw_balances with
  | [] => ret (enriched_balances, total_portfolio_value)
  | balance :: rest =>
      if Qltb 0 (free balance) then
        e <- enrich client balance ;;
        enrich_loop client rest (enriched_balances ++ [e])
          (total_portfolio_value + usd_value e)
      else enrich_loop client rest enriched_balances total_portfolio_value
  end.

Definition get_enriched_balances (client : BinanceClient)
  : M W (Raising (list EnrichedBalance * Q)) :=
  if negb (connected client) then ret (Returns ([], 0))
  else
    raw <- call (api_get_account account) ;;
    match raw with
    | None => ret (Raises Account_error)
    | Some raw_balances =>
        r <- enrich_loop client raw_balances [] 0 ;;
        ret (Returns
               (sort_by_key
                  (fun x => negb (String.eqb (eb_asset x) QUOTE_CURRENCY)) (fst r),
                snd r))
    end.

Definition calculate_total_portfolio_value (client : BinanceClient)
  : M W (Raising Q) :=
  if negb (connected client) then ret (Returns 0)
  else
    r <- get_enriched_balances client ;;
    match r with
    | Returns (_, total_value) => ret (Returns total_value)
    | Raises e => ret (Raises e)
    end.

(** [risk_manager.check_portfolio_risk] *)
Definition check_portfolio_risk (client : BinanceClient)
  : M W (Raising (bool * Q)) :=
  r <- calculate_total_portfolio_value client ;;
  match r with
  | Returns total_value =>
      if Qltb total_value SAFE_PORTFOLIO_VALUE_THRESHOLD
      then ret (Returns (false, total_value))
      else ret (Returns (true, total_value))
  | Raises e => ret (Raises e)
  end.


End Cycle.

End cycle.

(* ================================================================== *)
(** * The daily balance log and the dashboard's performance metrics    *)
(* ================================================================== *)

(** [log_daily_balance] and [has_logged_today] of trade_logger.py,
    [TradingBot.run_scheduled_tasks] of main.py and the performance metrics
    of [dashboard_data] in dashboard.py. *)
Module reports.
Import config trade_logger binance_client cycle.

(** A row of the daily balance log; [date] is the text
    [strftime('%Y-%m-%d')] writes. *)
Record DailyBalance : Type := {
  date : string;
  total_portfolio_value_usdt : Q
}.

(** [.iloc[-1]], if the frame has a row. *)
Definition iloc_last {A : Type} (l : list A) : option A :=
  match rev l with
  | [] => None
  | r :: _ => Some r
  end.

(** [log_daily_balance]: a row with today's date is appended. *)
Definition log_daily_balance (today : string) (total_value : Q)
  (log : list DailyBalance) : list DailyBalance :=
  log ++ [{| date := today; total_portfolio_value_usdt := total_value |}].

(** [has_logged_today]; a missing file reads as a log without rows. *)
Definition has_logged_today (today : string) (log : list DailyBalance) : bool :=
  match iloc_last log with
  | None => false
  | Some r => String.eqb (date r) today
  end.

(** The notification timer of the bot and the daily balance file. *)
Record Scheduler : Type := {
  last_notification_time : Z;
  daily_log : list DailyBalance
}.

(** The totals handed to [notifier.send_daily_summary]. *)
Record Summary : Type := {
  current_total : Q;
  previous_total : Q
}.

(** The value of the previous day that [run_scheduled_tasks] looks up. *)
Definition previous_total_value (today : string) (daily_log : list DailyBalance) : Q :=
  let previous_day_log :=
    filter (fun r => negb (String.eqb (date r) today)) daily_log in
  match iloc_last previous_day_log with
  | Some r => total_portfolio_value_usdt r
  | None => 0
  end.

(** [run_scheduled_tasks] at clock reading [now] on the day [today].
    [portfolio] is what [get_enriched_balances] gives for the Binance
    client, [None] without a client; an exception of it is caught and
    leaves everything as it was.  The result holds the summary sent, if
    any; the notifier itself is not modelled. *)
Definition run_scheduled_tasks (now : Z) (today : string)
  (portfolio : option (Raising (list EnrichedBalance * Q))) (s : Scheduler)
  : Scheduler * option Summary :=
  if (now - last_notification_time s >? 86400)%Z then
    match portfolio with
    | Some (Returns (balances, current_total_value)) =>
        let previous_total_value := previous_total_value today (daily_log s) in
        let summary := {| current_total := current_total_value;
                          previous_total := previous_total_value |} in
        let log :=
          if negb (has_logged_today today (daily_log s))
          then log_daily_balance today current_total_value (daily_log s)
          else daily_log s in
        ({| last_notification_time := now; daily_log := log |}, Some summary)
    | Some (Raises _) => (s, None)
    | None => (s, None)
    end
  else (s, None).

(** [DataFrame.empty] of the trade log. *)
Definition empty (trade_df : list TradeRecord) : bool :=
  match trade_df with
  | [] => true
  | _ :: _ => false
  end.

(** The performance metrics of [dashboard_data]: the realized profit, the
    win rate in percent and the number of sells, over the rows of the
    exchange.  For a trade log without rows the rows of the exchange are a
    frame without columns, and reading its [pnl] column raises KeyError:
    the result is [None]. *)
Definition performance_metrics (exchange_name : string)
  (trade_df : list TradeRecord) : option (Q * Q * nat) :=
  if empty trade_df then None
  else
    let exchange_trade_df :=
      filter (fun r => String.prefix (exchange_name ++ "_") (symbol r)) trade_df in
    let realized_pnl := Qsum (map pnl exchange_trade_df) in
    let sells := filter (fun r => String.eqb (side r) "SELL") exchange_trade_df in
    let total_sells := List.length sells in
    let profitable_sells := filter (fun r => Qltb 0 (pnl r)) sells in
    let win_rate :=
      if (0 <? total_sells)%nat
      then (inject_Z (Z.of_nat (List.length profitable_sells))
            / inject_Z (Z.of_nat total_sells)) * 100
      else 0 in
    Some (realized_pnl, win_rate, total_sells).

End reports.

(* ================================================================== *)
(** * Vocabulary of the properties                                     *)
(* ================================================================== *)

Import config strategy trade_logger binance_client main.

(** A frame holding the given closes and no indicator column yet. *)
Definition frame_of_closes (closes : list Q) : DataFrame :=
  {| bars := map (fun c => {| time := 0; close := c |}) closes;
     indicators := [] |}.

(** [r] is a [sd] row ("BUY" or "SELL") of symbol [sym]. *)
Definition is_trade (sym sd : string) (r : TradeRecord) : bool :=
  String.eqb (symbol r) sym && String.eqb (side r) sd.

(** The log holds no [sd] row of [sym]. *)
Definition no_trade (sym sd : string) (log : list TradeRecord) : Prop :=
  forall r, In r log -> is_trade sym sd r = false.

(** [r] is the most recent [sd] row of [sym]: a [sd] row of [sym] in the
    log with no such row after it. *)
Definition most_recent (sym sd : string) (log : list TradeRecord)
  (r : TradeRecord) : Prop :=
  exists before after,
    log = before ++ r :: after /\ is_trade sym sd r = true /\ no_trade sym sd after.

(** The number of orders for [sym] handed to the exchange in a run. *)
Definition order_sent_for (sym : string) (e : Event) : bool :=
  match e with
  | Order_sent s _ _ _ => String.eqb s sym
  | _ => false
  end.

Definition orders_sent (sym : string) (tr : list Event) : nat :=
  List.length (filter (order_sent_for sym) tr).

Definition is_order_sent (e : Event) : bool :=
  match e with Order_sent _ _ _ _ => true | _ => false end.

Definition is_trade_logged (e : Event) : bool :=
  match e with Trade_logged _ => true | _ => false end.

(** The trade log and the position cache are the same in both states. *)
Definition same_files {W : Type} (st st' : BotState W) : Prop :=
  ledger st' = ledger st /\ open_positions st' = open_positions st.

(** The key of a product in the trade log: [f"{exchange}_{product_id}"]. *)
Definition log_symbol (exchange product_id : string) : string :=
  (exchange ++ "_" ++ product_id)%string.

(** The row [execute_buy] logs for the order details [d], read at the clock
    of world [w]. *)
Definition buy_row {W : Type} (api : Exchange W) (exchange product_id : string)
  (d : OrderDetails) (w : W)
  : TradeRecord :=
  log_entry (fst (clock_now api w)) (log_symbol exchange product_id) "BUY"
    (od_price d) (od_quantity d) (od_cost d) (od_commission d) (od_order_id d) 0.

(** The row [execute_sell] logs for the sold [balance]. *)
Definition sell_row {W : Type} (api : Exchange W) (exchange product_id : string)
  (last_buy : TradeRecord) (balance : Q) (d : OrderDetails) (w : W) : TradeRecord :=
  log_entry (fst (clock_now api w)) (log_symbol exchange product_id) "SELL"
    (od_price d) balance (od_cost d) (od_commission d) (od_order_id d)
    (od_cost d - cost last_buy).

(** ** The outcomes of one [process_symbol] step *)

Section Outcome.

Variable W : Type.
Variable api : Exchange W.
Variables (exchange : string) (client : BinanceClient) (product_id : string).
Variables (portfolio_safe : bool) (params : Params) (st : BotState W).

(** The position of the product as the trade log at the start of the step
    resolves it. *)
Definition resolved_buy : option TradeRecord :=
  get_last_buy_for_symbol (ledger st) (log_symbol exchange product_id).

Definition resolved_open : bool :=
  match resolved_buy with Some _ => true | None => false end.

(** The events of a canary check that let the step go on: none for a
    product the canary does not cover, a passed check otherwise. *)
Definition canary_passed (c : list Event) : Prop :=
  (String.eqb exchange "binance" && contains "BTC" product_id = false /\ c = [])
  \/ (String.eqb exchange "binance" && contains "BTC" product_id = true
      /\ c = [Canary_checked true]).

(** The events from the fetch to the crash check. *)
Definition analysis_events (crash : bool) : list Event :=
  [Analyzing product_id; Indicators_calculated;
   Position_status product_id resolved_open; Crash_checked crash].

(** The seven ways a step can go, each with its result, the state it
    leaves and its events.  A step on which the crash check fires ends with
    the AttributeError of [check_market_crash]. *)
Inductive step_outcome : Result unit -> BotState W -> list Event -> Prop :=
| Halted_by_canary st' :
    String.eqb exchange "binance" && contains "BTC" product_id = true ->
    same_files st st' ->
    step_outcome (Ok tt) st' [Canary_checked false; BTC_failsafe]
| No_data c st' :
    canary_passed c ->
    same_files st st' ->
    step_outcome (Ok tt) st' (c ++ [Analyzing product_id])
| Crashed c df st' :
    canary_passed c ->
    risk_manager.check_market_crash (Some df) = AttributeError ->
    ledger st' = ledger st ->
    open_positions st'
    = set_flag exchange product_id resolved_open (open_positions st) ->
    step_outcome AttributeError st' (c ++ analysis_events true)
| Raised c df st' :
    canary_passed c ->
    risk_manager.check_market_crash (Some df) = Ok false ->
    generate_signal (Some df) params = IndexError ->
    ledger st' = ledger st ->
    step_outcome IndexError st' (c ++ analysis_events false)
| No_action c df signal reason st' :
    canary_passed c ->
    risk_manager.check_market_crash (Some df) = Ok false ->
    generate_signal (Some df) params = Ok (signal, reason) ->
    signal_eqb signal BUY && negb resolved_open && portfolio_safe = false ->
    signal_eqb signal SELL && resolved_open = false ->
    ledger st' = ledger st ->
    open_positions st'
    = set_flag exchange product_id resolved_open (open_positions st) ->
    step_outcome (Ok tt) st'
      (c ++ analysis_events false ++ [Signal_generated signal reason])
| Bought c df reason st1 st' tb :
    canary_passed c ->
    risk_manager.check_market_crash (Some df) = Ok false ->
    generate_signal (Some df) params = Ok (BUY, reason) ->
    resolved_buy = None ->
    portfolio_safe = true ->
    ledger st1 = ledger st ->
    open_positions st1
    = set_flag exchange product_id false (open_positions st) ->
    execute_buy api exchange client product_id st1 = (tt, st', tb) ->
    step_outcome (Ok tt) st'
      (c ++ analysis_events false ++ [Signal_generated BUY reason] ++ tb)
| Sold c df reason last_buy st1 st' ts :
    canary_passed c ->
    risk_manager.check_market_crash (Some df) = Ok false ->
    generate_signal (Some df) params = Ok (SELL, reason) ->
    resolved_buy = Some last_buy ->
    ledger st1 = ledger st ->
    open_positions st1
    = set_flag exchange product_id true (open_positions st) ->
    execute_sell api exchange client product_id last_buy st1 = (tt, st', ts) ->
    step_outcome (Ok tt) st'
      (c ++ analysis_events false ++ [Signal_generated SELL reason] ++ ts).

End Outcome.

(** The events an order placement can produce. *)
Definition is_order_event (e : Event) : bool :=
  match e with
  | Order_requested _ _ _ _ | Order_sent _ _ _ _ | Trade_logged _ => true
  | _ => false
  end.

(** Finite and not negative. *)
Definition fin_nonneg (x : fnum) : Prop :=
  match x with Fin q => 0 <= q | _ => False end.

(** Finite and not negative, or not available. *)
Definition nonneg_or_nan (x : fnum) : Prop :=
  match x with Fin q => 0 <= q | NaN => True | _ => False end.

(** Finite or not available. *)
Definition fin_or_nan (x : fnum) : Prop :=
  match x with Fin _ | NaN => True | _ => False end.

(** A gain/loss ratio after [fillna]: not negative, possibly infinite. *)
Definition ratio_ok (x : fnum) : Prop :=
  match x with Fin q => 0 <= q | PInf => True | _ => False end.

(** The rows of the log are in time order. *)
Definition time_ordered (log : list TradeRecord) : Prop :=
  StronglySorted (fun a b => (timestamp a <= timestamp b)%Z) log.

(** The close of row [i]. *)
Definition close_at (df : DataFrame) (i : nat) : Q :=
  nth i (map close (bars df)) 0.

(** Finite and positive. *)
Definition fin_pos (x : fnum) : Prop :=
  match x with Fin q => 0 < q | _ => False end.

(** Finite and zero. *)
Definition fin_zero (x : fnum) : Prop :=
  match x with Fin q => q == 0 | _ => False end.

(** A key the bot logs under: [f"{exchange}_{product_id}"] for its exchange
    and one of its products. *)
Definition bot_key (sym : string) : Prop :=
  exists product_id, In product_id PRODUCTS /\ sym = log_symbol "binance" product_id.

(** The timestamps of the log increase strictly from row to row. *)
Definition strictly_time_ordered (log : list TradeRecord) : Prop :=
  StronglySorted (fun a b => (timestamp a < timestamp b)%Z) log.

(** [r] is a BUY or SELL row of [sym]. *)
Definition is_any_trade (sym : string) (r : TradeRecord) : bool :=
  is_trade sym "BUY" r || is_trade sym "SELL" r.

(** The last BUY or SELL row of [sym] in the log, if any. *)
Definition last_trade (sym : string) (log : list TradeRecord) : option TradeRecord :=
  tail1 (filter (is_any_trade sym) log).

(** The BUY and SELL rows of [sym] alternate in the log: a BUY row comes
    only while the position is closed, a SELL row only while it is open;
    [open] is the position before the first row. *)
Fixpoint alternates (sym : string) (open : bool) (log : list TradeRecord) : bool :=
  match log with
  | [] => true
  | r :: rest =>
      if is_trade sym "BUY" r then negb open && alternates sym true rest
      else if is_trade sym "SELL" r then open && alternates sym false rest
      else alternates sym open rest
  end.

(** The position of [sym] after the rows of the log. *)
Fixpoint position_after (sym : string) (open : bool) (log : list TradeRecord) : bool :=
  match log with
  | [] => open
  | r :: rest =>
      position_after sym
        (if is_trade sym "BUY" r then true
         else if is_trade sym "SELL" r then false else open) rest
  end.

(** Every symbol starts closed and is bought and sold in turn. *)
Definition positions_alternate (log : list TradeRecord) : Prop :=
  forall sym, alternates sym false log = true.

(** [a] is [b] with some elements left out. *)
Inductive subsequence {A : Type} : list A -> list A -> Prop :=
| subsequence_nil : subsequence [] []
| subsequence_skip x a b : subsequence a b -> subsequence a (x :: b)
| subsequence_take x a b : subsequence a b -> subsequence (x :: a) (x :: b).

(** ** The portfolio *)

(** The exchange quotes the same price for a symbol whenever it is asked. *)
Definition steady_prices {W : Type} (api : Exchange W) (quote : string -> option Q)
  : Prop :=
  forall s w, fst (api_get_symbol_ticker api s w) = quote s.

(** What a holding of [free] units of [asset] is worth at the prices
    [quote]: the quote currency at face value, another asset at its price,
    or nothing when it has no usable price. *)
Definition holding_value (quote : string -> option Q) (asset : string) (free : Q) : Q :=
  if String.eqb asset QUOTE_CURRENCY then free
  else match usable_price (quote (asset ++ QUOTE_CURRENCY)%string) with
       | Some p => free * p
       | None => 0
       end.

(** The entries of the account with a positive free amount. *)
Definition positive_balances (raw : list cycle.RawBalance) : list cycle.RawBalance :=
  filter (fun b => Qltb 0 (cycle.free b)) raw.

Definition is_quote (a : string * Q) : bool := String.eqb (fst a) QUOTE_CURRENCY.



(* ================================================================== *)
(** * Sample data and sample runs                                      *)
(* ================================================================== *)

(** Sample rows of the trade log. *)
Definition sample_buy : TradeRecord :=
  {| timestamp := 1000; order_id := 1; symbol := "binance_ETHUSDT"; side := "BUY";
     price := 2000; quantity := 75 # 10000; cost := 15; commission := 0; pnl := 0 |}.

Definition sample_earlier_sell : TradeRecord :=
  {| timestamp := 950; order_id := 3; symbol := "binance_ETHUSDT"; side := "SELL";
     price := 1900; quantity := 1 # 100; cost := 19; commission := 0; pnl := 1 |}.

Definition sample_sell_same_second : TradeRecord :=
  {| timestamp := 1000; order_id := 2; symbol := "binance_ETHUSDT"; side := "SELL";
     price := 2100; quantity := 75 # 10000; cost := 1575 # 100; commission := 0;
     pnl := 75 # 100 |}.

(** A profile with small windows. *)
Definition small_profile : Params :=
  {| granularity := "1h"; short_sma := 2; long_sma := 3; rsi_period := 2;
     rsi_overbought := 70; rsi_oversold := 30 |}.

(** A profile whose long window is a single bar. *)
Definition one_bar_profile : Params :=
  {| granularity := "1h"; short_sma := 2; long_sma := 1; rsi_period := 1;
     rsi_overbought := 70; rsi_oversold := 30 |}.

(** A frame with indicator columns written by hand. *)
Definition frame_with (closes : list Q) (short long rsi : nat)
  (vs vl vr : list fnum) : DataFrame :=
  set_column (RSI rsi) vr
    (set_column (SMA long) vl
       (set_column (SMA short) vs (frame_of_closes closes))).

(** Three bars whose averages cross under on the last bar while the
    oscillator column is undefined there. *)
Definition frame_rsi_undefined : DataFrame :=
  frame_with [10; 10; 7] 2 3 2
    [NaN; Fin 10; Fin (17 # 2)] [NaN; Fin 10; Fin 9] [NaN; NaN; NaN].

(** Three bars whose averages cross under on the last bar while the
    oscillator is above the overbought threshold of [small_profile]. *)
Definition frame_cross_under_overbought : DataFrame :=
  frame_with [10; 10; 7] 2 3 2
    [NaN; Fin 10; Fin (17 # 2)] [NaN; Fin 10; Fin 9] [Fin 0; Fin 50; Fin 80].

(** Bars at times 0, 1, 2, ... with the given closes. *)
Definition bars_of_closes (closes : list Q) : list Bar :=
  map (fun p => {| time := Z.of_nat (fst p); close := snd p |})
      (combine (seq 0 (List.length closes)) closes).

(** An exchange that answers every call the same way. *)
Definition sample_api (balance : Q) (ticker : option Q) (closes : list Q)
  (order : option OrderResponse) (now : Z) : Exchange unit :=
  {| api_get_asset_balance := fun _ w => (Some balance, w);
     api_get_symbol_ticker := fun _ w => (ticker, w);
     api_get_historical_klines := fun _ _ w => (Some (bars_of_closes closes), w);
     api_create_order := fun _ _ _ _ w => (order, w);
     clock_now := fun w => (now, w) |}.

Definition sample_client : BinanceClient :=
  {| connected := true;
     symbol_info :=
       [("BTCUSDT"%string, {| tick_size := 1 # 100; step_size := 1 # 100000 |});
        ("ETHUSDT"%string, {| tick_size := 1 # 100; step_size := 1 # 10000 |})] |}.

Definition sample_fill_response : OrderResponse :=
  {| orderId := 77;
     fills := [{| qty := 1 # 2; fill_price := 10; fill_commission := 1 # 100 |}] |}.

Definition sample_state (log : list TradeRecord) : BotState unit :=
  {| world := tt; ledger := log;
     open_positions := [("binance"%string, "ETHUSDT"%string, false)] |}.

Definition sample_btc_buy : TradeRecord :=
  {| timestamp := 900; order_id := 5; symbol := "binance_BTCUSDT"; side := "BUY";
     price := 60000; quantity := 25 # 100000; cost := 15; commission := 0; pnl := 0 |}.

Definition cross_under_closes : list Q := [10; 10; 10; 19 # 2].
Definition cross_over_closes : list Q := [10; 10; 10; 9; 56 # 5].


(** An open BTC position and a crossunder without a crash, but no BTC
    price: the canary halts the step. *)
Definition sample_canary_step :=
  process_symbol (sample_api 1 None cross_under_closes (Some sample_fill_response) 2000)
    "binance" sample_client "BTCUSDT" true small_profile (sample_state [sample_btc_buy]).

(** An open ETH position and a crossunder without a crash, with the
    portfolio check failed. *)
Definition sample_sell_step :=
  process_symbol
    (sample_api 1 (Some 100) cross_under_closes (Some sample_fill_response) 2000)
    "binance" sample_client "ETHUSDT" false small_profile (sample_state [sample_buy]).

(** No position and a crossover, with the portfolio check passed. *)
Definition sample_buy_step :=
  process_symbol
    (sample_api 1 (Some 100) cross_over_closes (Some sample_fill_response) 2000)
    "binance" sample_client "ETHUSDT" true small_profile (sample_state []).


(** A profile with small windows and an oscillator over three steps, closes
    whose averages cross under on the last bar after a strong rise, and the
    frame [calculate_indicators] computes from them. *)
Definition three_step_profile : Params :=
  {| granularity := "1h"; short_sma := 2; long_sma := 3; rsi_period := 3;
     rsi_overbought := 70; rsi_oversold := 30 |}.

Definition rise_then_cross_under_closes : list Q := [10; 10; 10; 20; 19; 41 # 2].

Definition computed_frame (closes : list Q) (params : Params) : DataFrame :=
  match calculate_indicators (Some (frame_of_closes closes)) params with
  | Some out => out
  | None => frame_of_closes closes
  end.

(** The product loop over one product with an open position and a
    cross-under. *)
Definition sample_sell_loop :=
  process_products
    (sample_api 1 (Some 100) cross_under_closes (Some sample_fill_response) 2000)
    "binance" sample_client ["ETHUSDT"%string] false small_profile
    (sample_state [sample_buy]).

(** An account holding 150 USDT, one ETH and no XRP, read at a given hour. *)
Definition sample_raw_balances : list cycle.RawBalance :=
  [{| cycle.asset := "ETH"; cycle.free := 1 |};
   {| cycle.asset := "XRP"; cycle.free := 0 |};
   {| cycle.asset := "USDT"; cycle.free := 150 |}].

Definition sample_account (hour : nat) : cycle.AccountApi unit :=
  {| cycle.api_get_account := fun w => (Some sample_raw_balances, w);
     cycle.api_get_ticker :=
       fun _ w => (Some {| cycle.priceChangePercent := Some 5 |}, w);
     cycle.utc_hour := fun w => (hour, w) |}.

(** Closes that stay at 10 but for one dip: under the moderate profile the
    short average crosses over the long one on the last bar. *)
Definition dip_closes : list Q := repeat 10 14 ++ [9] ++ repeat 10 8.

Definition sample_exchange : Exchange unit :=
  sample_api 1 (Some 100) dip_closes (Some sample_fill_response) 2000.

Definition sample_portfolio :=
  cycle.get_enriched_balances sample_exchange (sample_account 12) sample_client
    (sample_state []).

Definition sample_portfolio_check :=
  cycle.check_portfolio_risk sample_exchange (sample_account 12) sample_client
    (sample_state []).


Definition sample_canary_check :=
  check_binance_btc_balance sample_exchange sample_client (sample_state []).


(* ================================================================== *)
(** * Properties                                                       *)
(* ================================================================== *)

(** ** Comparisons *)

Lemma Qltb_lt (a b : Q) : Qltb a b = true <-> a < b.
Proof.
  unfold Qltb. rewrite negb_true_iff. split; intro H.
  - apply Qnot_le_lt. intro Hle. apply Qle_bool_iff in Hle. congruence.
  - destruct (Qle_bool b a) eqn:E; [|reflexivity].
    apply Qle_bool_iff in E. exfalso. exact (Qlt_not_le _ _ H E).
Qed.

Lemma Qltb_ge (a b : Q) : Qltb a b = false <-> b <= a.
Proof.
  unfold Qltb. rewrite negb_false_iff. apply Qle_bool_iff.
Qed.

Lemma Qeq_bool_false (a b : Q) : Qeq_bool a b = false <-> ~ a == b.
Proof.
  split; intro H.
  - intro E. apply Qeq_bool_iff in E. congruence.
  - destruct (Qeq_bool a b) eqn:E; [|reflexivity].
    apply Qeq_bool_iff in E. contradiction.
Qed.

Lemma fltb_asym (x y : fnum) : fltb x y = true -> fltb y x = false.
Proof.
  destruct x as [a| | |], y as [b| | |]; simpl; try congruence.
  intros H. apply Qltb_lt in H. apply Qltb_ge. apply Qlt_le_weak. exact H.
Qed.

Lemma fltb_not_nan_l (x y : fnum) : fltb x y = true -> isna x = false.
Proof. destruct x, y; simpl; congruence. Qed.

Lemma fltb_not_nan_r (x y : fnum) : fltb x y = true -> isna y = false.
Proof. destruct x, y; simpl; congruence. Qed.

(** ** Position Resolver *)

Lemma filter_filter {A : Type} (f g : A -> bool) (l : list A) :
  filter g (filter f l) = filter (fun x => f x && g x) l.
Proof.
  induction l as [|a l IH]; simpl; [reflexivity|].
  destruct (f a); simpl; [destruct (g a); simpl; congruence | exact IH].
Qed.

Lemma tail1_app_last (l : list TradeRecord) (r : TradeRecord) :
  tail1 (l ++ [r]) = Some r.
Proof. unfold tail1. rewrite rev_app_distr. reflexivity. Qed.

Lemma filter_none (f : TradeRecord -> bool) (l : list TradeRecord) :
  (forall r, In r l -> f r = false) -> filter f l = [].
Proof.
  induction l as [|a l IH]; simpl; intros H; [reflexivity|].
  rewrite (H a (or_introl eq_refl)). apply IH. intros r Hr. apply H. now right.
Qed.

Lemma tail1_no_trade (sym sd : string) (log : list TradeRecord) :
  no_trade sym sd log -> tail1 (filter (is_trade sym sd) log) = None.
Proof. intros H. rewrite (filter_none _ _ H). reflexivity. Qed.

Lemma tail1_most_recent (sym sd : string) (log : list TradeRecord) (r : TradeRecord) :
  most_recent sym sd log r -> tail1 (filter (is_trade sym sd) log) = Some r.
Proof.
  intros (before & after & -> & Hr & Hafter).
  rewrite filter_app. simpl. rewrite Hr, (filter_none _ _ Hafter).
  apply tail1_app_last.
Qed.

Lemma get_last_buy_unfold (log : list TradeRecord) (sym : string) :
  get_last_buy_for_symbol log sym =
  match tail1 (filter (is_trade sym "BUY") log) with
  | None => None
  | Some buy =>
      match tail1 (filter (is_trade sym "SELL") log) with
      | Some sell => if (timestamp sell >? timestamp buy)%Z then None else Some buy
      | None => Some buy
      end
  end.
Proof.
  unfold get_last_buy_for_symbol. rewrite !filter_filter.
  destruct log; reflexivity.
Qed.

(** C1.  The Position Resolver: CLOSED ([None]) when the symbol has no BUY
    row, or when its most recent SELL row is timestamped strictly after its
    most recent BUY row; otherwise OPEN with that most recent BUY row.  A
    most recent BUY and SELL with one and the same timestamp resolve to
    OPEN. *)
Theorem get_last_buy_for_symbol_resolves (log : list TradeRecord) (sym : string) :
  (no_trade sym "BUY" log -> get_last_buy_for_symbol log sym = None)
  /\ (forall buy sell,
        most_recent sym "BUY" log buy -> most_recent sym "SELL" log sell ->
        (timestamp buy < timestamp sell)%Z ->
        get_last_buy_for_symbol log sym = None)
  /\ (forall buy,
        most_recent sym "BUY" log buy -> no_trade sym "SELL" log ->
        get_last_buy_for_symbol log sym = Some buy)
  /\ (forall buy sell,
        most_recent sym "BUY" log buy -> most_recent sym "SELL" log sell ->
        (timestamp sell <= timestamp buy)%Z ->
        get_last_buy_for_symbol log sym = Some buy)
  /\ (forall buy sell,
        most_recent sym "BUY" log buy -> most_recent sym "SELL" log sell ->
        timestamp sell = timestamp buy ->
        get_last_buy_for_symbol log sym = Some buy).
Proof.
  rewrite get_last_buy_unfold. repeat split.
  - intros H. now rewrite (tail1_no_trade H).
  - intros buy sell Hb Hs Hlt.
    rewrite (tail1_most_recent Hb), (tail1_most_recent Hs).
    replace (timestamp sell >? timestamp buy)%Z with true; [reflexivity|].
    symmetry. apply Z.gtb_lt. exact Hlt.
  - intros buy Hb Hs. now rewrite (tail1_most_recent Hb), (tail1_no_trade Hs).
  - intros buy sell Hb Hs Hle.
    rewrite (tail1_most_recent Hb), (tail1_most_recent Hs).
    destruct (timestamp sell >? timestamp buy)%Z eqn:E; [|reflexivity].
    apply Z.gtb_lt in E. lia.
  - intros buy sell Hb Hs Heq.
    rewrite (tail1_most_recent Hb), (tail1_most_recent Hs), Heq.
    replace (timestamp buy >? timestamp buy)%Z with false; [reflexivity|].
    symmetry. rewrite Z.gtb_ltb. apply Z.ltb_irrefl.
Qed.

Lemma get_last_buy_for_symbol_resolves_witness :
  get_last_buy_for_symbol [sample_buy; sample_sell_same_second] "binance_ETHUSDT"
  = Some sample_buy.
Proof.
  apply (proj2 (proj2 (proj2 (proj2
           (get_last_buy_for_symbol_resolves
              [sample_buy; sample_sell_same_second] "binance_ETHUSDT"))))
         sample_buy sample_sell_same_second).
  - exists [], [sample_sell_same_second]. repeat split.
    intros r [<-|[]]. reflexivity.
  - exists [sample_buy], []. repeat split. intros r [].
  - reflexivity.
Defined.

(** ** Crash check *)

(** The check answers [False] or raises: the drop test is the only way to
    the console line, and the console line raises. *)
Lemma check_market_crash_cases (df : option DataFrame) :
  risk_manager.check_market_crash df = Ok false
  \/ risk_manager.check_market_crash df = AttributeError.
Proof.
  unfold risk_manager.check_market_crash, risk_manager.df_name.
  destruct df as [df|]; [|now left].
  destruct (len df <? 2)%nat; [now left|].
  destruct (Qeq_bool (close_back df 2) 0); [now left|].
  destruct (fltb _ _); [now right | now left].
Qed.

(** C4.  What [check_market_crash] does where the claim says it flags a
    crash.  It never returns [True]: on a detected fall it raises
    AttributeError before its [return True], so closes [100, 85], a fall of
    15 percent, raise instead of giving crash = true; so do closes
    [100, 0], a fall of 100 percent with a previous close of 100.  Without
    a detected fall it answers [False]: for fewer than two closes, for a
    previous close of 0 (the zero guard, as for closes [0, 100]) and for
    closes [100, 100]. *)
Theorem check_market_crash_raises_on_crash :
  (forall df, risk_manager.check_market_crash df <> Ok true)
  /\ risk_manager.check_market_crash (Some (frame_of_closes [100; 85]))
     = AttributeError
  /\ risk_manager.check_market_crash (Some (frame_of_closes [100; 0]))
     = AttributeError
  /\ risk_manager.check_market_crash (Some (frame_of_closes [100; 100])) = Ok false
  /\ risk_manager.check_market_crash (Some (frame_of_closes [0; 100])) = Ok false
  /\ (forall df, (len df < 2)%nat \/ close_back df 2 == 0 ->
        risk_manager.check_market_crash (Some df) = Ok false)
  /\ (forall df, risk_manager.check_market_crash (Some df) = AttributeError ->
        (2 <= len df)%nat /\ ~ close_back df 2 == 0).
Proof.
  split; [|split; [|split; [|split; [|split; [|split]]]]];
    try (vm_compute; reflexivity).
  - intros df E. destruct (check_market_crash_cases df) as [H|H];
      rewrite H in E; discriminate.
  - intros df H. unfold risk_manager.check_market_crash.
    destruct (len df <? 2)%nat eqn:El; [reflexivity|].
    destruct H as [H|H]; [apply Nat.ltb_ge in El; lia|].
    apply Qeq_bool_iff in H. now rewrite H.
  - intros df. unfold risk_manager.check_market_crash, risk_manager.df_name.
    destruct (len df <? 2)%nat eqn:El; [discriminate|].
    destruct (Qeq_bool (close_back df 2) 0) eqn:Ez; [discriminate|].
    destruct (fltb _ _) eqn:Ef; [|discriminate].
    intros _. apply Nat.ltb_ge in El. apply Qeq_bool_false in Ez. auto.
Qed.

(** ** Signal Generator *)

Lemma has_column_of_value (df : DataFrame) (i : nat) (c : column) :
  isna (row_at df i c) = false -> has_column c df = true.
Proof.
  unfold row_at, has_column.
  destruct (get_column c (indicators df)); [reflexivity | simpl; discriminate].
Qed.

Lemma iloc_back_some (df : DataFrame) (k : nat) (r : Row) :
  iloc_back df k = Some r -> (k <= len df)%nat /\ r = row_at df (len df - k).
Proof.
  unfold iloc_back. destruct (k <=? len df)%nat eqn:E; [|discriminate].
  intros [= <-]. split; [apply Nat.leb_le; exact E | reflexivity].
Qed.

Lemma iloc_back_le (df : DataFrame) (k : nat) :
  (k <= len df)%nat -> iloc_back df k = Some (row_at df (len df - k)).
Proof.
  intros H. unfold iloc_back. apply Nat.leb_le in H. now rewrite H.
Qed.

(** C2.  When the bearish crossunder (short average at or above the long
    average on the previous step and below it on the current step) and the
    overbought condition (oscillator above the overbought threshold on the
    current step) hold together, on a frame that has passed the length
    check, [generate_signal] returns SELL with the overbought reason, not
    the crossover reason. *)
Theorem generate_signal_overbought_before_cross_under
  (df : DataFrame) (params : Params) (last_row prev_row : Row) :
  (long_sma params <= len df)%nat ->
  iloc_back df 1 = Some last_row ->
  iloc_back df 2 = Some prev_row ->
  fgeb (prev_row (SMA (short_sma params))) (prev_row (SMA (long_sma params))) = true ->
  fltb (last_row (SMA (short_sma params))) (last_row (SMA (long_sma params))) = true ->
  fgtb (last_row (RSI (rsi_period params))) (Fin (rsi_overbought params)) = true ->
  generate_signal (Some df) params
  = Ok (SELL, Aggressive_Sell_RSI_Overbought (last_row (RSI (rsi_period params)))).
Proof.
  intros Hlen Hlast Hprev Hge Hlt Hob.
  pose proof (fltb_not_nan_l _ _ Hlt) as Hs.
  pose proof (fltb_not_nan_r _ _ Hlt) as Hl.
  pose proof (fltb_not_nan_r _ _ Hob) as Hr.
  destruct (iloc_back_some _ _ Hlast) as [_ Elast].
  unfold generate_signal.
  replace (len df <? long_sma params)%nat with false
    by (symmetry; apply Nat.ltb_ge; exact Hlen).
  simpl forallb.
  rewrite Elast in Hs, Hl, Hr.
  rewrite (has_column_of_value _ _ _ Hs), (has_column_of_value _ _ _ Hl),
    (has_column_of_value _ _ _ Hr).
  simpl negb. cbv iota.
  rewrite Hlast, Hprev. rewrite <- Elast in Hs, Hl.
  rewrite Hs, Hl. simpl orb. cbv iota.
  unfold sma_cross_over_of, rsi_is_overbought_of.
  unfold fgtb at 1. rewrite (fltb_asym _ _ Hlt), andb_false_r. simpl andb.
  cbv iota. rewrite Hob. reflexivity.
Qed.

Lemma generate_signal_overbought_before_cross_under_witness :
  generate_signal (Some frame_cross_under_overbought) small_profile
  = Ok (SELL, Aggressive_Sell_RSI_Overbought (Fin 80)).
Proof.
  apply (generate_signal_overbought_before_cross_under
           frame_cross_under_overbought small_profile
           (last_row := row_at frame_cross_under_overbought 2)
           (prev_row := row_at frame_cross_under_overbought 1));
    vm_compute; first [reflexivity | lia].
Defined.

(** C8 (as amended).  A missing frame or one with fewer rows than the long
    window gives HOLD, "Not enough data", whatever the prices.  A frame that
    has at least as many rows as the long window, at least two rows and the
    three indicator columns gives HOLD, "Indicators still calculating",
    whenever the short or the long average is undefined on the current
    step. *)
Theorem generate_signal_holds_on_short_or_warming_input (params : Params) :
  generate_signal None params = Ok (HOLD, Not_enough_data)
  /\ (forall df, (len df < long_sma params)%nat ->
        generate_signal (Some df) params = Ok (HOLD, Not_enough_data))
  /\ (forall df,
        (long_sma params <= len df)%nat -> (2 <= len df)%nat ->
        has_column (SMA (short_sma params)) df = true ->
        has_column (SMA (long_sma params)) df = true ->
        has_column (RSI (rsi_period params)) df = true ->
        isna (row_at df (len df - 1) (SMA (short_sma params))) = true
        \/ isna (row_at df (len df - 1) (SMA (long_sma params))) = true ->
        generate_signal (Some df) params = Ok (HOLD, Indicators_still_calculating)).
Proof.
  split; [reflexivity|]. split.
  - intros df H. unfold generate_signal. apply Nat.ltb_lt in H. now rewrite H.
  - intros df Hlen H2 Hs Hl Hr Hna. unfold generate_signal.
    replace (len df <? long_sma params)%nat with false
      by (symmetry; apply Nat.ltb_ge; exact Hlen).
    simpl forallb. rewrite Hs, Hl, Hr. simpl negb. cbv iota.
    rewrite (@iloc_back_le df 1%nat) by lia. rewrite (@iloc_back_le df 2%nat) by lia.
    apply orb_true_iff in Hna. rewrite Hna. reflexivity.
Qed.

Lemma generate_signal_holds_on_short_or_warming_input_witness :
  generate_signal
    (Some (frame_with [10; 11] 2 2 2 [NaN; NaN] [NaN; NaN] [Fin 0; Fin 0]))
    {| granularity := "1h"; short_sma := 2; long_sma := 2; rsi_period := 2;
       rsi_overbought := 70; rsi_oversold := 30 |}
  = Ok (HOLD, Indicators_still_calculating).
Proof.
  apply (proj2 (proj2 (generate_signal_holds_on_short_or_warming_input _)));
    vm_compute; first [reflexivity | lia | (left; reflexivity)].
Defined.

(** C8, the claim as first stated fails.  With a long window of one bar and
    a single bar of history, the frame computed by [calculate_indicators]
    passes the length check, its short average is undefined on the current
    step, and [generate_signal] raises when it reads the previous row.  And
    on a frame whose oscillator is undefined on the current step the rules
    are applied all the same: the crossunder below yields SELL. *)
Lemma generate_signal_fails_or_trades_on_undefined_input :
  (exists df,
     calculate_indicators (Some (frame_of_closes [10])) one_bar_profile = Some df
     /\ isna (row_at df (len df - 1) (SMA (short_sma one_bar_profile))) = true
     /\ generate_signal (Some df) one_bar_profile = IndexError)
  /\ isna (row_at frame_rsi_undefined (len frame_rsi_undefined - 1)
             (RSI (rsi_period small_profile))) = true
  /\ generate_signal (Some frame_rsi_undefined) small_profile = Ok (SELL, Death_Cross).
Proof.
  split; [eexists; split; [reflexivity|]|]; repeat split; vm_compute; reflexivity.
Qed.

(** ** Indicator Engine *)

(** C3, evaluated on closes [1, 2, 3] with an oscillator period of 2.  On
    the last row the rolling loss-mean is zero and the gain-mean is 1; the
    ratio [gain / loss] is then infinite, [fillna(0)] leaves it so, and the
    oscillator is 100. *)
Theorem rsi_ratio_is_infinite_when_loss_mean_is_zero :
  feq (nth 2 (rsi_loss (frame_of_closes [1; 2; 3]) 2) NaN) (Fin 0)
  /\ feq (nth 2 (rsi_gain (frame_of_closes [1; 2; 3]) 2) NaN) (Fin 1)
  /\ nth 2 (rsi_rs (frame_of_closes [1; 2; 3]) 2) NaN = PInf
  /\ (exists df,
        calculate_indicators (Some (frame_of_closes [1; 2; 3])) small_profile = Some df
        /\ feq (row_at df 2 (RSI 2)) (Fin 100)).
Proof.
  repeat split; try (vm_compute; reflexivity).
  eexists. split; [reflexivity|]. vm_compute. reflexivity.
Qed.

(** ** Running the client's methods *)

Section Runs.

Variable W : Type.
Variable api : Exchange W.

Lemma get_current_price_run (client : BinanceClient) (sym : string)
  (st st' : BotState W) (r : option Q) (tr : list Event) :
  get_current_price api client sym st = (r, st', tr) ->
  same_files st st' /\ tr = [].
Proof.
  unfold get_current_price, call, ret, same_files.
  destruct (negb (connected client)).
  - intros [= <- <- <-]. auto.
  - destruct (api_get_symbol_ticker api sym (world st)) as [a w].
    intros [= <- <- <-]. simpl. auto.
Qed.

Lemma get_asset_balance_run (client : BinanceClient) (asset : string)
  (st st' : BotState W) (r : Q) (tr : list Event) :
  get_asset_balance api client asset st = (r, st', tr) ->
  same_files st st' /\ tr = [].
Proof.
  unfold get_asset_balance, bind, call, ret, same_files.
  destruct (negb (connected client)).
  - intros [= <- <- <-]. auto.
  - destruct (api_get_asset_balance api asset (world st)) as [[a|] w];
      intros [= <- <- <-]; simpl; auto.
Qed.

Lemma get_historic_rates_run (client : BinanceClient) (sym interval : string)
  (st st' : BotState W) (r : option (list Bar)) (tr : list Event) :
  get_historic_rates api client sym interval st = (r, st', tr) ->
  same_files st st' /\ tr = [].
Proof.
  unfold get_historic_rates, call, ret, same_files.
  destruct (negb (connected client)).
  - intros [= <- <- <-]. auto.
  - destruct (api_get_historical_klines api sym interval (world st)) as [a w].
    intros [= <- <- <-]. simpl. auto.
Qed.

Lemma check_binance_btc_balance_run (client : BinanceClient)
  (st st' : BotState W) (r : bool) (tr : list Event) :
  check_binance_btc_balance api client st = (r, st', tr) ->
  same_files st st' /\ tr = [].
Proof.
  unfold check_binance_btc_balance, bind.
  destruct (get_asset_balance api client "BTC" st) as [[b st1] t1] eqn:E1.
  destruct (get_current_price api client "BTCUSDT" st1) as [[p st2] t2] eqn:E2.
  apply get_asset_balance_run in E1. apply get_current_price_run in E2.
  destruct E1 as [[L1 O1] ->], E2 as [[L2 O2] ->].
  unfold same_files.
  destruct p as [p|]; [destruct (Qltb _ _)|]; unfold ret;
    intros [= <- <- <-]; simpl; split; try split; congruence.
Qed.

(** [place_limit_order] writes no file; it announces the request and hands
    at most one order to the exchange, none when the rounded quantity is
    not positive. *)
Lemma place_limit_order_run (client : BinanceClient) (sym sd : string)
  (quantity price : Q) (st st' : BotState W) (r : option OrderDetails)
  (tr : list Event) :
  place_limit_order api client sym sd quantity price st = (r, st', tr) ->
  same_files st st'
  /\ ((r = None /\ tr = [Order_requested sym sd quantity price])
      \/ exists info rq rp,
           lookup_info sym (symbol_info client) = Some info
           /\ _round_quantity_to_step info quantity = Some rq
           /\ 0 < rq
           /\ _round_price_to_tick info price = Some rp
           /\ tr = [Order_requested sym sd quantity price; Order_sent sym sd rq rp]
           /\ r = match fst (api_create_order api sym sd rq rp (world st)) with
                  | Some order => _parse_order_response order
                  | None => None
                  end).
Proof.
  unfold place_limit_order, bind, emit, ret, call, same_files.
  destruct (negb (connected client)).
  { intros [= <- <- <-]. auto. }
  destruct (lookup_info sym (symbol_info client)) as [info|].
  2:{ intros [= <- <- <-]. auto. }
  destruct (_round_quantity_to_step info quantity) as [rq|] eqn:Eq.
  2:{ intros [= <- <- <-]. auto. }
  destruct (Qle_bool rq 0) eqn:Ele.
  { intros [= <- <- <-]. auto. }
  destruct (_round_price_to_tick info price) as [rp|] eqn:Ep.
  2:{ intros [= <- <- <-]. auto. }
  assert (Hpos : 0 < rq).
  { apply Qnot_le_lt. intro H. apply Qle_bool_iff in H. congruence. }
  destruct (api_create_order api sym sd rq rp (world st)) as [[order|] w] eqn:Ec;
    intros [= <- <- <-]; simpl; (split; [auto|]); right;
    exists info, rq, rp; rewrite Ec; simpl; auto 10.
Qed.

Lemma log_trade_m_run (sym sd : string) (price quantity cost commission : Q)
  (order_id : Z) (pnl : Q) (st st' : BotState W) (tr : list Event) :
  log_trade_m api sym sd price quantity cost commission order_id pnl st = (tt, st', tr) ->
  let row := log_entry (fst (clock_now api (world st))) sym sd price quantity
               cost commission order_id pnl in
  ledger st' = ledger st ++ [row]
  /\ open_positions st' = open_positions st
  /\ tr = [Trade_logged row].
Proof.
  unfold log_trade_m, bind, call, read_log, write_log, emit, log_trade.
  destruct (clock_now api (world st)) as [now w]. simpl.
  intros [= <- <-]. simpl. auto.
Qed.

End Runs.

(** ** Running [execute_buy] and [execute_sell] *)

Section Execution.

Variable W : Type.
Variable api : Exchange W.

Lemma execute_buy_run (exchange : string) (client : BinanceClient)
  (product_id : string) (st st' : BotState W) (tr : list Event) :
  execute_buy api exchange client product_id st = (tt, st', tr) ->
  exists price st1,
    get_current_price api client product_id st = (price, st1, [])
    /\ match usable_price price with
       | None => same_files st st' /\ tr = [Execute_buy product_id]
       | Some p =>
           exists od st2 t2,
             place_limit_order api client product_id "buy"
               (TRADE_AMOUNT_USDT / p) (p * (1 - LIMIT_ORDER_OFFSET)) st1
             = (od, st2, t2)
             /\ match accepted od with
                | None => same_files st st' /\ tr = Execute_buy product_id :: t2
                | Some d =>
                    ledger st' = ledger st ++ [buy_row api exchange product_id d (world st2)]
                    /\ open_positions st'
                       = set_flag exchange product_id true (open_positions st)
                    /\ tr = Execute_buy product_id :: t2
                            ++ [Trade_logged (buy_row api exchange product_id d (world st2))]
                end
       end.
Proof.
  unfold execute_buy, bind, emit.
  destruct (get_current_price api client product_id st) as [[price st1] t1] eqn:E1.
  pose proof E1 as X; apply get_current_price_run in X; destruct X as [[L1 O1] ->].
  intros H. exists price, st1. split; [reflexivity|]. revert H.
  destruct (usable_price price) as [p|].
  2:{ unfold ret. intros [= <- <-]. unfold same_files. auto. }
  destruct (place_limit_order api client product_id "buy" _ _ st1)
    as [[od st2] t2] eqn:E2.
  pose proof E2 as X; apply place_limit_order_run in X; destruct X as [[L2 O2] _].
  intros H. exists od, st2, t2. split; [reflexivity|]. revert H.
  destruct (accepted od) as [d|].
  2:{ unfold ret. intros [= <- <-]. unfold same_files. simpl.
      rewrite app_nil_r. repeat split; congruence. }
  destruct (log_trade_m api _ _ _ _ _ _ _ _ st2) as [[[] st3] t3] eqn:E3.
  pose proof E3 as X; apply log_trade_m_run in X; destruct X as (L3 & O3 & ->).
  unfold set_open. intros [= <- <-]. simpl.
  rewrite ?app_nil_r. unfold buy_row, log_symbol.
  repeat split; congruence.
Qed.

Lemma execute_sell_run (exchange : string) (client : BinanceClient)
  (product_id : string) (last_buy : TradeRecord) (st st' : BotState W)
  (tr : list Event) :
  execute_sell api exchange client product_id last_buy st = (tt, st', tr) ->
  exists balance st0,
    get_asset_balance api client (remove_all QUOTE_CURRENCY product_id) st
    = (balance, st0, [])
    /\ if Qltb 0 balance then
         exists price st1,
           get_current_price api client product_id st0 = (price, st1, [])
           /\ match usable_price price with
              | None => same_files st st' /\ tr = [Execute_sell product_id]
              | Some p =>
                  exists od st2 t2,
                    place_limit_order api client product_id "sell" balance
                      (p * (1 + LIMIT_ORDER_OFFSET)) st1
                    = (od, st2, t2)
                    /\ match accepted od with
                       | None =>
                           same_files st st' /\ tr = Execute_sell product_id :: t2
                       | Some d =>
                           let row := sell_row api exchange product_id last_buy
                                        balance d (world st2) in
                           ledger st' = ledger st ++ [row]
                           /\ open_positions st'
                              = set_flag exchange product_id false (open_positions st)
                           /\ tr = Execute_sell product_id :: t2 ++ [Trade_logged row]
                       end
              end
       else same_files st st' /\ tr = [Execute_sell product_id].
Proof.
  unfold execute_sell, bind, emit.
  destruct (get_asset_balance api client _ st) as [[balance st0] t0] eqn:E0.
  pose proof E0 as X; apply get_asset_balance_run in X; destruct X as [[L0 O0] ->].
  intros H. exists balance, st0. split; [reflexivity|]. revert H.
  destruct (Qltb 0 balance).
  2:{ unfold ret. intros [= <- <-]. unfold same_files. auto. }
  destruct (get_current_price api client product_id st0) as [[price st1] t1] eqn:E1.
  pose proof E1 as X; apply get_current_price_run in X; destruct X as [[L1 O1] ->].
  intros H. exists price, st1. split; [reflexivity|]. revert H.
  destruct (usable_price price) as [p|].
  2:{ unfold ret. intros [= <- <-]. unfold same_files. simpl.
      repeat split; congruence. }
  destruct (place_limit_order api client product_id "sell" _ _ st1)
    as [[od st2] t2] eqn:E2.
  pose proof E2 as X; apply place_limit_order_run in X; destruct X as [[L2 O2] _].
  intros H. exists od, st2, t2. split; [reflexivity|]. revert H.
  destruct (accepted od) as [d|].
  2:{ unfold ret. intros [= <- <-]. unfold same_files. simpl.
      rewrite app_nil_r. repeat split; congruence. }
  destruct (log_trade_m api _ _ _ _ _ _ _ _ st2) as [[[] st3] t3] eqn:E3.
  pose proof E3 as X; apply log_trade_m_run in X; destruct X as (L3 & O3 & ->).
  unfold set_open. intros [= <- <-]. simpl.
  rewrite ?app_nil_r. unfold sell_row, log_symbol.
  repeat split; congruence.
Qed.

End Execution.

(** ** Running [process_symbol] *)

Lemma get_set_flag (exchange product_id : string) (v : bool)
  (l : list (string * string * bool)) :
  get_flag exchange product_id (set_flag exchange product_id v l) = v.
Proof.
  induction l as [|[[e p] b] l IH]; simpl.
  - now rewrite !String.eqb_refl.
  - destruct (String.eqb e exchange && String.eqb p product_id) eqn:E; simpl;
      rewrite E; [reflexivity | exact IH].
Qed.

(** The only exception of [generate_signal] is the IndexError. *)
Lemma generate_signal_raises_index_error_only (df : option DataFrame)
  (params : Params) :
  generate_signal df params <> AttributeError.
Proof.
  unfold generate_signal. cbv zeta.
  destruct df as [df|]; [|discriminate].
  destruct (len df <? long_sma params)%nat; [discriminate|].
  destruct (negb _); [discriminate|].
  destruct (iloc_back df 1) as [last_row|]; [|discriminate].
  destruct (iloc_back df 2) as [prev_row|]; [|discriminate].
  destruct (_ || _); [discriminate|].
  destruct (_ && _); [discriminate|].
  destruct (rsi_is_overbought_of _ _ _); [discriminate|].
  destruct (sma_cross_under_of _ _ _ _); discriminate.
Qed.

Section Step.

Variable W : Type.
Variable api : Exchange W.

(** The canary part of the step: it writes no file, and either halts the
    step or passes. *)
Lemma canary_run (exchange : string) (client : BinanceClient) (product_id : string)
  (st st1 : BotState W) (halted : bool) (t : list Event) :
  (if String.eqb exchange "binance" && contains "BTC" product_id
   then bind (check_binance_btc_balance api client)
          (fun ok => bind (emit (Canary_checked ok)) (fun _ => ret (negb ok)))
   else ret false) st = (halted, st1, t) ->
  same_files st st1
  /\ (if halted
      then String.eqb exchange "binance" && contains "BTC" product_id = true
           /\ t = [Canary_checked false]
      else canary_passed exchange product_id t).
Proof.
  unfold canary_passed.
  destruct (String.eqb exchange "binance" && contains "BTC" product_id).
  - unfold bind, emit, ret.
    destruct (check_binance_btc_balance api client st) as [[ok st2] t2] eqn:E.
    apply check_binance_btc_balance_run in E. destruct E as [F ->].
    intros [= <- <- <-]. split; [exact F|]. destruct ok; simpl; auto.
  - unfold ret. intros [= <- <- <-]. unfold same_files. auto.
Qed.

Lemma bind_run {A B : Type} (m : M W A) (k : A -> M W B)
  (st st2 : BotState W) (b : B) (t : list Event) :
  bind m k st = (b, st2, t) ->
  exists a st1 t1 t2, m st = (a, st1, t1) /\ k a st1 = (b, st2, t2) /\ t = t1 ++ t2.
Proof.
  unfold bind. destruct (m st) as [[a st1] t1] eqn:E1.
  destruct (k a st1) as [[b' st2'] t2] eqn:E2. intros [= <- <- <-].
  exists a, st1, t1, t2. auto.
Qed.

Ltac bind_inv H :=
  let a := fresh "a" in
  let s := fresh "s" in
  let t1 := fresh "t" in
  let t2 := fresh "t" in
  let R := fresh "R" in
  apply bind_run in H; destruct H as (a & s & t1 & t2 & R & H & ->).

Ltac tuple_inv H := inversion H; subst; clear H.

Ltac emit_inv H := unfold emit in H; tuple_inv H.

Theorem process_symbol_outcome (exchange : string) (client : BinanceClient)
  (product_id : string) (portfolio_safe : bool) (params : Params)
  (st st' : BotState W) (r : Result unit) (tr : list Event) :
  process_symbol api exchange client product_id portfolio_safe params st
  = (r, st', tr) ->
  step_outcome api exchange client product_id portfolio_safe params st r st' tr.
Proof.
  intros H. unfold process_symbol in H.
  bind_inv H. apply canary_run in R. destruct R as [[L1 O1] Hcan].
  destruct a.
  { destruct Hcan as [Hbtc ->]. bind_inv H. emit_inv R.
    unfold ret in H. tuple_inv H.
    apply Halted_by_canary; [exact Hbtc | split; assumption]. }
  bind_inv H. emit_inv R. bind_inv H.
  apply get_historic_rates_run in R. destruct R as [[L2 O2] ->].
  destruct (calculate_indicators (process_raw_klines a) params) as [df|] eqn:Edf.
  2:{ unfold ret in H. tuple_inv H. cbn [app].
      apply No_data; [exact Hcan | split; congruence]. }
  destruct (len df =? 0)%nat.
  { unfold ret in H. tuple_inv H. cbn [app].
    apply No_data; [exact Hcan | split; congruence]. }
  remember (risk_manager.check_market_crash (Some df)) as crash eqn:Ecrash.
  remember (generate_signal (Some df) params) as sig eqn:Esig.
  symmetry in Ecrash, Esig. revert Ecrash Esig.
  bind_inv H. emit_inv R. bind_inv H. unfold read_log in R. tuple_inv R.
  bind_inv H. unfold set_open in R. tuple_inv R.
  bind_inv H. unfold get_open in R. cbn [open_positions] in R.
  rewrite get_set_flag in R. tuple_inv R.
  bind_inv H. emit_inv R. bind_inv H. emit_inv R.
  rewrite L2, L1 in *. rewrite O2, O1 in *.
  change (get_last_buy_for_symbol (ledger st) _)
    with (resolved_buy exchange product_id st) in *.
  fold (resolved_open exchange product_id st) in *.
  cbn [app].
  intros Ecrash Esig.
  destruct (check_market_crash_cases (Some df)) as [Hc|Hc];
    rewrite Hc in Ecrash; subst crash; cbn [crash_found] in *.
  2:{ unfold ret in H. tuple_inv H.
      eapply Crashed; [exact Hcan | exact Hc | reflexivity | reflexivity]. }
  rename Hc into Ecrash.
  revert Esig. destruct sig as [[signal reason]| |]; intros Esig.
  3:{ exfalso. exact (generate_signal_raises_index_error_only _ _ Esig). }
  2:{ unfold ret in H. tuple_inv H.
      eapply Raised; [exact Hcan | exact Ecrash | exact Esig | reflexivity]. }
  bind_inv H. emit_inv R. bind_inv H.
  unfold get_open in R. cbn [open_positions] in R.
  rewrite get_set_flag in R. tuple_inv R.
  cbn [app].
  change (t ++ Analyzing product_id :: Indicators_calculated
            :: Position_status product_id (resolved_open exchange product_id st)
            :: Crash_checked false :: Signal_generated signal reason :: t1)
    with (t ++ analysis_events exchange product_id st false
            ++ [Signal_generated signal reason] ++ t1).
  destruct (signal_eqb signal BUY && negb (resolved_open exchange product_id st)
            && portfolio_safe) eqn:Ebuy.
  { apply andb_true_iff in Ebuy. destruct Ebuy as [Ebuy Esafe].
    apply andb_true_iff in Ebuy. destruct Ebuy as [Ebuy Eclosed].
    destruct signal; try discriminate.
    bind_inv H. unfold ret in H. tuple_inv H. rewrite app_nil_r.
    match goal with u : unit |- _ => destruct u end.
    assert (Eres : resolved_buy exchange product_id st = None).
    { unfold resolved_open in Eclosed.
      destruct (resolved_buy exchange product_id st); [discriminate | reflexivity]. }
    eapply Bought;
      [exact Hcan | exact Ecrash | exact Esig | exact Eres | reflexivity | | | exact R].
    - reflexivity.
    - cbn [open_positions]. f_equal.
      unfold resolved_open in Eclosed |- *. now rewrite Eres. }
  destruct (signal_eqb signal SELL && resolved_open exchange product_id st) eqn:Esell.
  { apply andb_true_iff in Esell. destruct Esell as [Esell Eopen].
    destruct signal; try discriminate.
    unfold resolved_open in Eopen.
    destruct (resolved_buy exchange product_id st) as [lb|] eqn:Eres; [|discriminate].
    bind_inv H. unfold ret in H. tuple_inv H. rewrite app_nil_r.
    match goal with u : unit |- _ => destruct u end.
    eapply Sold;
      [exact Hcan | exact Ecrash | exact Esig | exact Eres | | | exact R].
    - reflexivity.
    - cbn [open_positions]. f_equal. unfold resolved_open. now rewrite Eres. }
  unfold ret in H. tuple_inv H.
  eapply No_action;
    [exact Hcan | exact Ecrash | exact Esig | exact Ebuy | exact Esell | | ];
    reflexivity.
Qed.

End Step.

(** ** Events of a step *)

Section StepEvents.

Variable W : Type.
Variable api : Exchange W.

Lemma place_limit_order_events (client : BinanceClient) (sym sd : string)
  (quantity price : Q) (st st' : BotState W) (r : option OrderDetails)
  (tr : list Event) :
  place_limit_order api client sym sd quantity price st = (r, st', tr) ->
  Forall (fun e => is_order_event e = true) tr
  /\ (forall e, In e tr -> is_trade_logged e = false)
  /\ (forall s, orders_sent s tr <= 1)%nat
  /\ (forall s, s <> sym -> orders_sent s tr = 0%nat)
  /\ (forall s d q p, In (Order_requested s d q p) tr ->
        s = sym /\ d = sd /\ q = quantity /\ p = price).
Proof.
  intros H. apply place_limit_order_run in H.
  destruct H as [_ [[_ ->]|(info & rq & rp & _ & _ & _ & _ & -> & _)]].
  - repeat split.
    + repeat constructor.
    + intros e [<-|[]]. reflexivity.
    + intros s. cbv. lia.
    + simpl in H. destruct H as [H|[]]. congruence.
    + simpl in H. destruct H as [H|[]]. congruence.
    + simpl in H. destruct H as [H|[]]. congruence.
    + simpl in H. destruct H as [H|[]]. congruence.
  - repeat split.
    + repeat constructor.
    + intros e [<-|[<-|[]]]; reflexivity.
    + intros s. unfold orders_sent. simpl. destruct (String.eqb sym s); simpl; lia.
    + intros s Hs. unfold orders_sent. simpl.
      destruct (String.eqb sym s) eqn:E; [|reflexivity].
      apply String.eqb_eq in E. congruence.
    + simpl in H. destruct H as [H|[H|[]]]; congruence.
    + simpl in H. destruct H as [H|[H|[]]]; congruence.
    + simpl in H. destruct H as [H|[H|[]]]; congruence.
    + simpl in H. destruct H as [H|[H|[]]]; congruence.
Qed.

Lemma orders_sent_app (s : string) (t1 t2 : list Event) :
  orders_sent s (t1 ++ t2) = (orders_sent s t1 + orders_sent s t2)%nat.
Proof. unfold orders_sent. now rewrite filter_app, length_app. Qed.

(** [execute_buy] starts with its own event; what follows are the events of
    one order placement, with at most one row logged. *)
Lemma execute_buy_events (exchange : string) (client : BinanceClient)
  (product_id : string) (st st' : BotState W) (tr : list Event) :
  execute_buy api exchange client product_id st = (tt, st', tr) ->
  exists rest,
    tr = Execute_buy product_id :: rest
    /\ Forall (fun e => is_order_event e = true) rest
    /\ (forall s, orders_sent s rest <= 1)%nat
    /\ (forall s, s <> product_id -> orders_sent s rest = 0%nat)
    /\ (forall row, In (Trade_logged row) rest ->
          ledger st' = ledger st ++ [row]
          /\ symbol row = log_symbol exchange product_id /\ side row = "BUY"%string)
    /\ ((forall row, ~ In (Trade_logged row) rest) -> same_files st st').
Proof.
  intros H. apply execute_buy_run in H.
  destruct H as (price & st1 & _ & H).
  destruct (usable_price price) as [p|].
  2:{ destruct H as [F ->]. exists [].
      split; [reflexivity|]. split; [constructor|].
      split; [intros; cbv; lia|]. split; [reflexivity|].
      split; [intros row []|intros _; exact F]. }
  destruct H as (od & st2 & t2 & Hp & H).
  apply place_limit_order_events in Hp.
  destruct Hp as (Hev & Hnolog & Hle & Hzero & _).
  destruct (accepted od) as [d|].
  - destruct H as (L & O & ->).
    exists (t2 ++ [Trade_logged (buy_row api exchange product_id d (world st2))]).
    split; [reflexivity|]. split; [|split; [|split; [|split]]].
    + apply Forall_app. split; [exact Hev | repeat constructor].
    + intros s. rewrite orders_sent_app. specialize (Hle s).
      change (orders_sent s [Trade_logged _]) with 0%nat. lia.
    + intros s Hs. rewrite orders_sent_app, (Hzero s Hs). reflexivity.
    + intros row Hin. apply in_app_iff in Hin. destruct Hin as [Hin|[Hin|[]]].
      * apply Hnolog in Hin. discriminate.
      * injection Hin as <-. split; [exact L|]. split; reflexivity.
    + intros Hno. exfalso. apply (Hno (buy_row api exchange product_id d (world st2))).
      apply in_app_iff. right. left. reflexivity.
  - destruct H as [F ->]. exists t2.
    split; [reflexivity|]. split; [exact Hev|]. split; [exact Hle|].
    split; [exact Hzero|]. split; [|intros _; exact F].
    intros row Hin. apply Hnolog in Hin. discriminate.
Qed.

Lemma execute_sell_events (exchange : string) (client : BinanceClient)
  (product_id : string) (last_buy : TradeRecord) (st st' : BotState W)
  (tr : list Event) :
  execute_sell api exchange client product_id last_buy st = (tt, st', tr) ->
  exists rest,
    tr = Execute_sell product_id :: rest
    /\ Forall (fun e => is_order_event e = true) rest
    /\ (forall s, orders_sent s rest <= 1)%nat
    /\ (forall s, s <> product_id -> orders_sent s rest = 0%nat)
    /\ (forall row, In (Trade_logged row) rest ->
          ledger st' = ledger st ++ [row]
          /\ symbol row = log_symbol exchange product_id /\ side row = "SELL"%string)
    /\ ((forall row, ~ In (Trade_logged row) rest) -> same_files st st').
Proof.
  intros H. apply execute_sell_run in H.
  destruct H as (balance & st0 & _ & H).
  destruct (Qltb 0 balance).
  2:{ destruct H as [F ->]. exists [].
      split; [reflexivity|]. split; [constructor|].
      split; [intros; cbv; lia|]. split; [reflexivity|].
      split; [intros row []|intros _; exact F]. }
  destruct H as (price & st1 & _ & H).
  destruct (usable_price price) as [p|].
  2:{ destruct H as [F ->]. exists [].
      split; [reflexivity|]. split; [constructor|].
      split; [intros; cbv; lia|]. split; [reflexivity|].
      split; [intros row []|intros _; exact F]. }
  destruct H as (od & st2 & t2 & Hp & H).
  apply place_limit_order_events in Hp.
  destruct Hp as (Hev & Hnolog & Hle & Hzero & _).
  destruct (accepted od) as [d|].
  - cbv zeta in H. destruct H as (L & O & ->).
    exists (t2 ++ [Trade_logged
                     (sell_row api exchange product_id last_buy balance d (world st2))]).
    split; [reflexivity|]. split; [|split; [|split; [|split]]].
    + apply Forall_app. split; [exact Hev | repeat constructor].
    + intros s. rewrite orders_sent_app. specialize (Hle s).
      change (orders_sent s [Trade_logged _]) with 0%nat. lia.
    + intros s Hs. rewrite orders_sent_app, (Hzero s Hs). reflexivity.
    + intros row Hin. apply in_app_iff in Hin. destruct Hin as [Hin|[Hin|[]]].
      * apply Hnolog in Hin. discriminate.
      * injection Hin as <-. split; [exact L|]. split; reflexivity.
    + intros Hno. exfalso.
      apply (Hno (sell_row api exchange product_id last_buy balance d (world st2))).
      apply in_app_iff. right. left. reflexivity.
  - destruct H as [F ->]. exists t2.
    split; [reflexivity|]. split; [exact Hev|]. split; [exact Hle|].
    split; [exact Hzero|]. split; [|intros _; exact F].
    intros row Hin. apply Hnolog in Hin. discriminate.
Qed.

End StepEvents.

(** ** Tactics for the events of a step *)

(** The two forms of a passed canary check. *)
Ltac canary_cases Hcan :=
  let E := fresh "Ecov" in
  destruct Hcan as [[E ->]|[E ->]].

(** An event that occurs nowhere in an explicit list of events. *)
Ltac no_match :=
  match goal with
  | H : In _ _ |- _ =>
      simpl in H; repeat (destruct H as [H|H]; try discriminate H); try contradiction
  end.

(** An event that is not an order event cannot occur among order events. *)
Ltac order_only Hev :=
  match goal with
  | H : In ?e ?rest |- _ =>
      let X := fresh in
      pose proof (proj1 (Forall_forall _ _) Hev _ H) as X; discriminate X
  end.

(** ** The decisions of a step *)

Section Decisions.

Variable W : Type.
Variable api : Exchange W.

(** A row logged by a step is the one row appended to the trade log: a BUY
    row for a product resolved as CLOSED or a SELL row for one resolved as
    OPEN; a step that logs no row leaves the log as it was. *)
Lemma process_symbol_log_effect (exchange : string) (client : BinanceClient)
  (product_id : string) (portfolio_safe : bool) (params : Params)
  (st st' : BotState W) (r : Result unit) (tr : list Event) :
  process_symbol api exchange client product_id portfolio_safe params st
  = (r, st', tr) ->
  (forall row, In (Trade_logged row) tr ->
     ledger st' = ledger st ++ [row]
     /\ symbol row = log_symbol exchange product_id
     /\ ((side row = "BUY"%string
          /\ get_last_buy_for_symbol (ledger st) (log_symbol exchange product_id)
             = None)
         \/ (side row = "SELL"%string
             /\ get_last_buy_for_symbol (ledger st) (log_symbol exchange product_id)
                <> None)))
  /\ ((forall row, ~ In (Trade_logged row) tr) -> ledger st' = ledger st).
Proof.
  intros H. apply process_symbol_outcome in H.
  destruct H as [st' Hbtc F | c st' Hcan F | c df st' Hcan Ecrash L O
                | c df st' Hcan Ecrash Esig L
                | c df signal reason st' Hcan Ecrash Esig Nb Ns L O
                | c df reason st1 st' tb Hcan Ecrash Esig Eres Esafe L1 O1 Hx
                | c df reason last_buy st1 st' ts Hcan Ecrash Esig Eres L1 O1 Hx];
    unfold analysis_events, resolved_buy in *.
  - split; [intros; no_match | intros; apply F].
  - canary_cases Hcan; (split; [intros; no_match | intros; apply F]).
  - canary_cases Hcan; (split; [intros; no_match | intros; exact L]).
  - canary_cases Hcan; (split; [intros; no_match | intros; exact L]).
  - canary_cases Hcan; (split; [intros; no_match | intros; exact L]).
  - apply execute_buy_events in Hx.
    destruct Hx as (rest & -> & Hev & _ & _ & Hlog & Hnolog).
    split.
    + intros row Hin.
      assert (Hr : In (Trade_logged row) rest).
      { canary_cases Hcan; simpl in Hin;
          repeat (destruct Hin as [Hin|Hin]; try discriminate Hin); exact Hin. }
      destruct (Hlog row Hr) as (L & S1 & S2).
      split; [congruence|]. split; [exact S1|]. left. split; [exact S2 | exact Eres].
    + intros Hno. destruct Hnolog as [L _]; [|congruence].
      intros row Hr. apply (Hno row).
      apply in_app_iff. right. simpl. auto 10.
  - apply execute_sell_events in Hx.
    destruct Hx as (rest & -> & Hev & _ & _ & Hlog & Hnolog).
    split.
    + intros row Hin.
      assert (Hr : In (Trade_logged row) rest).
      { canary_cases Hcan; simpl in Hin;
          repeat (destruct Hin as [Hin|Hin]; try discriminate Hin); exact Hin. }
      destruct (Hlog row Hr) as (L & S1 & S2).
      split; [congruence|]. split; [exact S1|]. right. split; [exact S2 | congruence].
    + intros Hno. destruct Hnolog as [L _]; [|congruence].
      intros row Hr. apply (Hno row).
      apply in_app_iff. right. simpl. auto 10.
Qed.

(** C6.  In [process_symbol] the buy path is entered only when the signal
    is BUY, the position resolved from the trade log is CLOSED and the
    portfolio check has passed; the sell path only when the signal is SELL
    and the resolved position is OPEN.  Hence a BUY row is appended to the
    log only for a product resolved as CLOSED and a SELL row only for one
    resolved as OPEN: by construction a symbol has at most one open
    position. *)
Theorem process_symbol_trade_paths (exchange : string) (client : BinanceClient)
  (product_id : string) (portfolio_safe : bool) (params : Params)
  (st st' : BotState W) (r : Result unit) (tr : list Event) :
  process_symbol api exchange client product_id portfolio_safe params st
  = (r, st', tr) ->
  (forall q, In (Execute_buy q) tr ->
     q = product_id
     /\ portfolio_safe = true
     /\ get_last_buy_for_symbol (ledger st) (log_symbol exchange product_id) = None
     /\ exists df reason,
          generate_signal (Some df) params = Ok (BUY, reason)
          /\ In (Signal_generated BUY reason) tr)
  /\ (forall q, In (Execute_sell q) tr ->
        q = product_id
        /\ get_last_buy_for_symbol (ledger st) (log_symbol exchange product_id) <> None
        /\ exists df reason,
             generate_signal (Some df) params = Ok (SELL, reason)
             /\ In (Signal_generated SELL reason) tr)
  /\ (forall row, In (Trade_logged row) tr ->
        ledger st' = ledger st ++ [row]
        /\ symbol row = log_symbol exchange product_id
        /\ ((side row = "BUY"%string
             /\ get_last_buy_for_symbol (ledger st) (log_symbol exchange product_id)
                = None)
            \/ (side row = "SELL"%string
                /\ get_last_buy_for_symbol (ledger st) (log_symbol exchange product_id)
                   <> None)))
  /\ ((forall row, ~ In (Trade_logged row) tr) -> ledger st' = ledger st).
Proof.
  intros H. pose proof (process_symbol_log_effect _ _ _ _ _ _ H) as Hlog.
  split; [|split; [|exact Hlog]]; clear Hlog; apply process_symbol_outcome in H;
    destruct H as [st' Hbtc F | c st' Hcan F | c df st' Hcan Ecrash L O
                  | c df st' Hcan Ecrash Esig L
                  | c df signal reason st' Hcan Ecrash Esig Nb Ns L O
                  | c df reason st1 st' tb Hcan Ecrash Esig Eres Esafe L1 O1 Hx
                  | c df reason last_buy st1 st' ts Hcan Ecrash Esig Eres L1 O1 Hx];
    unfold analysis_events, resolved_buy in *;
    try (intros; no_match; fail);
    try (canary_cases Hcan; intros; no_match; fail).
  - (* the buy path was entered: it is the step's own *)
    apply execute_buy_events in Hx. destruct Hx as (rest & -> & Hev & _).
    intros q Hin. split; [|split; [exact Esafe | split; [exact Eres|]]].
    + canary_cases Hcan; simpl in Hin;
        repeat (destruct Hin as [Hin|Hin]; try discriminate Hin);
        try (injection Hin as <-; reflexivity); order_only Hev.
    + exists df, reason. split; [exact Esig|].
      apply in_app_iff. right. simpl. auto 10.
  - (* a sell step never enters the buy path *)
    apply execute_sell_events in Hx. destruct Hx as (rest & -> & Hev & _).
    intros q Hin. exfalso.
    canary_cases Hcan; simpl in Hin;
      repeat (destruct Hin as [Hin|Hin]; try discriminate Hin); order_only Hev.
  - (* a buy step never enters the sell path *)
    apply execute_buy_events in Hx. destruct Hx as (rest & -> & Hev & _).
    intros q Hin. exfalso.
    canary_cases Hcan; simpl in Hin;
      repeat (destruct Hin as [Hin|Hin]; try discriminate Hin); order_only Hev.
  - (* the sell path was entered: it is the step's own *)
    apply execute_sell_events in Hx. destruct Hx as (rest & -> & Hev & _).
    intros q Hin. split; [|split; [congruence|]].
    + canary_cases Hcan; simpl in Hin;
        repeat (destruct Hin as [Hin|Hin]; try discriminate Hin);
        try (injection Hin as <-; reflexivity); order_only Hev.
    + exists df, reason. split; [exact Esig|].
      apply in_app_iff. right. simpl. auto 10.
Qed.

End Decisions.

Section RiskGates.

Variable W : Type.
Variable api : Exchange W.

(** C5 (as amended).  Whenever a step generates the signal SELL for a
    product whose position resolves as OPEN, the sell path is executed,
    whatever the result of the portfolio check.  A failed canary check ends
    the step before any signal is generated: then neither the sell path nor
    the buy path is executed. *)
Theorem sell_path_not_blocked_by_portfolio_check (exchange : string)
  (client : BinanceClient) (product_id : string) (portfolio_safe : bool)
  (params : Params) (st st' : BotState W) (r : Result unit) (tr : list Event) :
  process_symbol api exchange client product_id portfolio_safe params st
  = (r, st', tr) ->
  (forall reason,
     In (Signal_generated SELL reason) tr ->
     get_last_buy_for_symbol (ledger st) (log_symbol exchange product_id) <> None ->
     In (Execute_sell product_id) tr)
  /\ (In BTC_failsafe tr ->
      (forall signal reason, ~ In (Signal_generated signal reason) tr)
      /\ (forall q, ~ In (Execute_sell q) tr)
      /\ (forall q, ~ In (Execute_buy q) tr)).
Proof.
  intros H. apply process_symbol_outcome in H.
  destruct H as [st' Hbtc F | c st' Hcan F | c df st' Hcan Ecrash L O
                | c df st' Hcan Ecrash Esig L
                | c df signal reason st' Hcan Ecrash Esig Nb Ns L O
                | c df reason st1 st' tb Hcan Ecrash Esig Eres Esafe L1 O1 Hx
                | c df reason last_buy st1 st' ts Hcan Ecrash Esig Eres L1 O1 Hx];
    unfold analysis_events in *.
  - split; [intros; no_match|]. intros _.
    repeat split; intros; intro; no_match.
  - canary_cases Hcan; (split; [intros; no_match|]); (intros ?; no_match).
  - canary_cases Hcan; (split; [intros; no_match|]); (intros ?; no_match).
  - canary_cases Hcan; (split; [intros; no_match|]); (intros ?; no_match).
  - split.
    + intros reason' Hin Hopen. exfalso.
      assert (Es : signal = SELL).
      { canary_cases Hcan; simpl in Hin;
          repeat (destruct Hin as [Hin|Hin]; try discriminate Hin);
          try contradiction; congruence. }
      subst signal. simpl in Ns.
      unfold resolved_open, resolved_buy in Ns.
      destruct (get_last_buy_for_symbol _ _); [discriminate | congruence].
    + canary_cases Hcan; (intros ?; no_match).
  - apply execute_buy_events in Hx.
    destruct Hx as (rest & -> & Hev & _).
    split.
    + intros reason' Hin Hopen. unfold resolved_buy in Eres. congruence.
    + intros Hin; exfalso;
        canary_cases Hcan; simpl in Hin;
        repeat (destruct Hin as [Hin|Hin]; try discriminate Hin); order_only Hev.
  - apply execute_sell_events in Hx.
    destruct Hx as (rest & -> & Hev & _).
    split.
    + intros reason' Hin Hopen. apply in_app_iff. right. simpl. auto 10.
    + intros Hin; exfalso;
        canary_cases Hcan; simpl in Hin;
        repeat (destruct Hin as [Hin|Hin]; try discriminate Hin); order_only Hev.
Qed.


End RiskGates.

(** ** Order execution and the trade log *)

Section Orders.

Variable W : Type.
Variable api : Exchange W.


Lemma orders_sent_cons_other (s : string) (e : Event) (t : list Event) :
  is_order_sent e = false -> orders_sent s (e :: t) = orders_sent s t.
Proof. unfold orders_sent. destruct e; simpl; try discriminate; reflexivity. Qed.

(** A step hands at most one order to the exchange, and only for its own
    product. *)
Lemma process_symbol_orders (exchange : string) (client : BinanceClient)
  (product_id : string) (portfolio_safe : bool) (params : Params)
  (st st' : BotState W) (r : Result unit) (tr : list Event) :
  process_symbol api exchange client product_id portfolio_safe params st
  = (r, st', tr) ->
  (forall s, orders_sent s tr <= 1)%nat
  /\ (forall s, s <> product_id -> orders_sent s tr = 0%nat).
Proof.
  intros H. apply process_symbol_outcome in H.
  destruct H as [st' Hbtc F | c st' Hcan F | c df st' Hcan Ecrash L O
                | c df st' Hcan Ecrash Esig L
                | c df signal reason st' Hcan Ecrash Esig Nb Ns L O
                | c df reason st1 st' tb Hcan Ecrash Esig Eres Esafe L1 O1 Hx
                | c df reason last_buy st1 st' ts Hcan Ecrash Esig Eres L1 O1 Hx];
    unfold analysis_events in *.
  - split; intros; cbv; lia.
  - canary_cases Hcan; split; intros; cbv; lia.
  - canary_cases Hcan; split; intros; cbv; lia.
  - canary_cases Hcan; split; intros; cbv; lia.
  - canary_cases Hcan; split; intros; cbv; lia.
  - apply execute_buy_events in Hx.
    destruct Hx as (rest & -> & _ & Hle & Hzero & _).
    split; intros; canary_cases Hcan; cbn [app];
      rewrite !orders_sent_cons_other by reflexivity; auto.
  - apply execute_sell_events in Hx.
    destruct Hx as (rest & -> & _ & Hle & Hzero & _).
    split; intros; canary_cases Hcan; cbn [app];
      rewrite !orders_sent_cons_other by reflexivity; auto.
Qed.

Lemma process_products_orders_other (exchange : string) (client : BinanceClient)
  (is_safe : bool) (params : Params) (s : string) (products : list string) :
  ~ In s products ->
  forall (st st' : BotState W) (r : Result unit) (tr : list Event),
    process_products api exchange client products is_safe params st = (r, st', tr) ->
    orders_sent s tr = 0%nat.
Proof.
  induction products as [|p rest IH]; intros Hnot st st' r tr H.
  - unfold process_products, ret in H. injection H as _ _ <-. reflexivity.
  - cbn [process_products] in H. apply bind_run in H.
    destruct H as (a & st1 & t1 & t2 & R & H & ->).
    apply process_symbol_orders in R. destruct R as [_ R].
    rewrite orders_sent_app, (R s) by (intro; subst; apply Hnot; now left).
    destruct a as [[]| |].
    + apply IH in H; [exact H|]. intro. apply Hnot. now right.
    + unfold ret in H. injection H as _ _ <-. reflexivity.
    + unfold ret in H. injection H as _ _ <-. reflexivity.
Qed.

(** Over the products of one cycle, each listed once, at most one order per
    symbol reaches the exchange: an order that failed is not sent again. *)
Lemma process_products_orders (exchange : string) (client : BinanceClient)
  (is_safe : bool) (params : Params) (products : list string) :
  NoDup products ->
  forall (st st' : BotState W) (r : Result unit) (tr : list Event),
    process_products api exchange client products is_safe params st = (r, st', tr) ->
    forall s, (orders_sent s tr <= 1)%nat.
Proof.
  induction 1 as [|p rest Hnotin Hnodup IH]; intros st st' r tr H s.
  - unfold process_products, ret in H. injection H as _ _ <-. cbv. lia.
  - cbn [process_products] in H. apply bind_run in H.
    destruct H as (a & st1 & t1 & t2 & R & H & ->).
    apply process_symbol_orders in R. destruct R as [R1 R0].
    rewrite orders_sent_app.
    destruct a as [[]| |].
    + destruct (string_dec s p) as [->|Hne].
      * assert (Z0 : orders_sent p t2 = 0%nat)
          by (eapply process_products_orders_other; [exact Hnotin | exact H]).
        rewrite Z0. specialize (R1 p). lia.
      * rewrite (R0 s Hne). specialize (IH _ _ _ _ H s). lia.
    + unfold ret in H. injection H as _ _ <-. specialize (R1 s).
      change (orders_sent s []) with 0%nat. lia.
    + unfold ret in H. injection H as _ _ <-. specialize (R1 s).
      change (orders_sent s []) with 0%nat. lia.
Qed.

(** C9.  [execute_buy] appends exactly one row to the trade log when the
    order is executed (a usable price, and order details with an order id
    come back from [place_limit_order]) and then sets the position flag;
    otherwise it leaves the log and the position flag as they were.
    [place_limit_order] fails, handing nothing to the exchange, when the
    quantity rounded to the step size is not positive, and fails when the
    exchange rejects the order or reports no fill.  A step changes the log
    by at most one appended row, the position resolved from an unchanged
    log is unchanged, and in the product loop of a cycle at most one order
    per symbol reaches the exchange. *)
Theorem order_execution_and_trade_log :
  (forall exchange client product_id (st st' : BotState W) tr,
     execute_buy api exchange client product_id st = (tt, st', tr) ->
     exists price st1,
       get_current_price api client product_id st = (price, st1, [])
       /\ (usable_price price = None ->
           same_files st st' /\ tr = [Execute_buy product_id])
       /\ (forall p, usable_price price = Some p ->
             exists od st2 t2,
               place_limit_order api client product_id "buy"
                 (TRADE_AMOUNT_USDT / p) (p * (1 - LIMIT_ORDER_OFFSET)) st1
               = (od, st2, t2)
               /\ (accepted od = None ->
                   same_files st st' /\ forall row, ~ In (Trade_logged row) tr)
               /\ (forall d, accepted od = Some d ->
                     ledger st' = ledger st ++ [buy_row api exchange product_id d (world st2)]
                     /\ filter is_trade_logged tr
                        = [Trade_logged (buy_row api exchange product_id d (world st2))]
                     /\ open_positions st'
                        = set_flag exchange product_id true (open_positions st)))
       /\ (orders_sent product_id tr <= 1)%nat)
  /\ (forall client sym sd quantity price (st st' : BotState W) r tr,
        place_limit_order api client sym sd quantity price st = (r, st', tr) ->
        same_files st st'
        /\ (orders_sent sym tr <= 1)%nat
        /\ (forall info rq,
              lookup_info sym (symbol_info client) = Some info ->
              _round_quantity_to_step info quantity = Some rq ->
              rq <= 0 ->
              r = None /\ orders_sent sym tr = 0%nat)
        /\ (forall rq rp,
              In (Order_sent sym sd rq rp) tr ->
              fst (api_create_order api sym sd rq rp (world st)) = None ->
              r = None)
        /\ (forall rq rp order,
              In (Order_sent sym sd rq rp) tr ->
              fst (api_create_order api sym sd rq rp (world st)) = Some order ->
              fills order = [] ->
              r = None))
  /\ (forall exchange client product_id portfolio_safe params
             (st st' : BotState W) r tr,
        process_symbol api exchange client product_id portfolio_safe params st
        = (r, st', tr) ->
        (ledger st' = ledger st
         \/ exists row, ledger st' = ledger st ++ [row] /\ In (Trade_logged row) tr)
        /\ (ledger st' = ledger st ->
            forall sym, get_last_buy_for_symbol (ledger st') sym
                        = get_last_buy_for_symbol (ledger st) sym))
  /\ (forall exchange client is_safe params products (st st' : BotState W) r tr,
        NoDup products ->
        process_products api exchange client products is_safe params st
        = (r, st', tr) ->
        forall sym, (orders_sent sym tr <= 1)%nat).
Proof.
  split; [|split; [|split]].
  - intros exchange client product_id st st' tr H.
    pose proof H as Hev. apply execute_buy_events in Hev.
    destruct Hev as (rest & Etr & _ & Hle & _).
    apply execute_buy_run in H. destruct H as (price & st1 & E1 & H).
    exists price, st1. split; [exact E1|].
    split; [|split].
    + intros Eu. rewrite Eu in H. exact H.
    + intros p Eu. rewrite Eu in H. destruct H as (od & st2 & t2 & E2 & H).
      exists od, st2, t2. split; [exact E2|].
      pose proof E2 as Hp. apply place_limit_order_events in Hp.
      destruct Hp as (_ & Hnolog & _).
      split.
      * intros Ea. rewrite Ea in H. destruct H as [F ->]. split; [exact F|].
        intros row [Hin|Hin]; [discriminate|]. apply Hnolog in Hin. discriminate.
      * intros d Ea. rewrite Ea in H. destruct H as (L & O & ->).
        split; [exact L|]. split; [|exact O].
        cbn [filter is_trade_logged]. rewrite filter_app.
        replace (filter is_trade_logged t2) with (@nil Event); [reflexivity|].
        symmetry. clear - Hnolog. induction t2 as [|e t IH]; [reflexivity|].
        simpl. rewrite (Hnolog e (or_introl eq_refl)).
        apply IH. intros e' He'. apply Hnolog. now right.
    + rewrite Etr, orders_sent_cons_other by reflexivity. apply Hle.
  - intros client sym sd quantity price st st' r tr H.
    pose proof H as Hev. apply place_limit_order_events in Hev.
    destruct Hev as (_ & _ & Hle & _).
    apply place_limit_order_run in H.
    destruct H as [F H]. split; [exact F|]. split; [apply Hle|].
    destruct H as [[-> ->]|(info & rq & rp & Ei & Eq & Hpos & Ep & -> & ->)].
    + split; [intros; split; reflexivity|].
      split; intros; reflexivity.
    + split; [|split].
      * intros info' rq' Ei' Eq' Hle'. exfalso.
        rewrite Ei in Ei'. injection Ei' as <-.
        rewrite Eq in Eq'. injection Eq' as <-.
        exact (Qlt_not_le _ _ Hpos Hle').
      * intros rq' rp' [Hin|[Hin|[]]] Hrej; [discriminate|].
        injection Hin as <- <-. now rewrite Hrej.
      * intros rq' rp' order [Hin|[Hin|[]]] Hans Hfills; [discriminate|].
        injection Hin as <- <-. rewrite Hans.
        unfold _parse_order_response. now rewrite Hfills.
  - intros exchange client product_id portfolio_safe params st st' r tr H.
    split; [|intros ->; reflexivity].
    apply process_symbol_log_effect in H.
    destruct H as (Hlog & Hnolog).
    destruct (existsb is_trade_logged tr) eqn:E.
    + apply existsb_exists in E. destruct E as (e & Hin & He).
      destruct e; try discriminate. right. exists r0.
      split; [apply (Hlog _ Hin) | exact Hin].
    + left. apply Hnolog. intros row Hin.
      assert (X : existsb is_trade_logged tr = true)
        by (apply existsb_exists; exists (Trade_logged row); auto).
      congruence.
  - intros exchange client is_safe params products st st' r tr Hnd H sym.
    eapply process_products_orders; eassumption.
Qed.

End Orders.

(** ** The properties on the sample runs *)

Lemma sample_step_eq {A B C : Type} (x : A * B * C) :
  x = (fst (fst x), snd (fst x), snd x).
Proof. destruct x as [[a b] c]. reflexivity. Qed.

Lemma process_symbol_trade_paths_witness :
  "ETHUSDT"%string = "ETHUSDT"%string
  /\ true = true
  /\ get_last_buy_for_symbol (ledger (sample_state []))
       (log_symbol "binance" "ETHUSDT") = None
  /\ exists df reason,
       generate_signal (Some df) small_profile = Ok (BUY, reason)
       /\ In (Signal_generated BUY reason) (snd sample_buy_step).
Proof.
  apply (proj1 (process_symbol_trade_paths
                  (sample_api 1 (Some 100) cross_over_closes
                     (Some sample_fill_response) 2000)
                  "binance" sample_client "ETHUSDT" true small_profile
                  (sample_state []) (sample_step_eq sample_buy_step))
           "ETHUSDT"%string).
  vm_compute. auto 10.
Defined.

Lemma sell_path_not_blocked_by_portfolio_check_witness :
  In (Execute_sell "ETHUSDT") (snd sample_sell_step).
Proof.
  apply (proj1 (sell_path_not_blocked_by_portfolio_check
                  (sample_api 1 (Some 100) cross_under_closes
                     (Some sample_fill_response) 2000)
                  "binance" sample_client "ETHUSDT" false small_profile
                  (sample_state [sample_buy]) (sample_step_eq sample_sell_step))
           Death_Cross).
  - vm_compute. auto 10.
  - vm_compute. discriminate.
Defined.

(** C5, the claim as first stated fails.  In [sample_canary_step] the
    signal on the data of the step is SELL, the crash check on that data
    does not fire and the BTC position resolves as OPEN, but the canary
    check fails (no BTC price) and the step ends without entering the sell
    path. *)
Lemma sell_blocked_by_canary :
  generate_signal
    (calculate_indicators
       (process_raw_klines (Some (bars_of_closes cross_under_closes))) small_profile)
    small_profile = Ok (SELL, Death_Cross)
  /\ risk_manager.check_market_crash
       (calculate_indicators
          (process_raw_klines (Some (bars_of_closes cross_under_closes)))
          small_profile) = Ok false
  /\ get_last_buy_for_symbol [sample_btc_buy] (log_symbol "binance" "BTCUSDT")
     = Some sample_btc_buy
  /\ sample_canary_step
     = (Ok tt, sample_state [sample_btc_buy], [Canary_checked false; BTC_failsafe])
  /\ ~ In (Execute_sell "BTCUSDT") (snd sample_canary_step).
Proof.
  split; [|split; [|split; [|split]]]; try (vm_compute; reflexivity).
  vm_compute. intros H.
  repeat (destruct H as [H|H]; try discriminate H). exact H.
Qed.



Lemma order_execution_and_trade_log_witness :
  ledger (snd (fst sample_buy_step)) = ledger (sample_state [])
  \/ exists row,
       ledger (snd (fst sample_buy_step)) = ledger (sample_state []) ++ [row]
       /\ In (Trade_logged row) (snd sample_buy_step).
Proof.
  apply (proj1 (proj1 (proj2 (proj2
           (order_execution_and_trade_log
              (sample_api 1 (Some 100) cross_over_closes
                 (Some sample_fill_response) 2000))))
           "binance"%string sample_client "ETHUSDT"%string true small_profile
           (sample_state []) _ _ _ (sample_step_eq sample_buy_step))).
Defined.


(** ** The oscillator stays within 0 and 100 *)

Lemma diff_from_fin_or_nan (l : list Q) (a : fnum) :
  fin_or_nan a -> Forall fin_or_nan (diff_from a (map Fin l)).
Proof.
  revert a. induction l as [|q l IH]; intros a Ha; simpl; constructor.
  - destruct a; simpl in *; auto.
  - apply IH. exact I.
Qed.

Lemma diff_fin_or_nan (l : list Q) : Forall fin_or_nan (diff (map Fin l)).
Proof.
  destruct l as [|q l]; simpl; constructor; [exact I|].
  apply diff_from_fin_or_nan. exact I.
Qed.

Lemma gains_nonneg (delta : list fnum) :
  Forall fin_or_nan delta ->
  Forall fin_nonneg (where_ (fun d => fgtb d (Fin 0)) (Fin 0) delta).
Proof.
  induction 1 as [|d l Hd _ IH]; simpl; constructor; [|exact IH].
  destruct d as [q| | |]; simpl in *; try contradiction; try apply Qle_refl.
  destruct (Qltb 0 q) eqn:E; simpl; [|apply Qle_refl].
  apply Qltb_lt in E. apply Qlt_le_weak. exact E.
Qed.

Lemma losses_nonneg (delta : list fnum) :
  Forall fin_or_nan delta ->
  Forall fin_nonneg (map fopp (where_ (fun d => fltb d (Fin 0)) (Fin 0) delta)).
Proof.
  induction 1 as [|d l Hd _ IH]; simpl; constructor; [|exact IH].
  destruct d as [q| | |]; simpl in *; try contradiction; try lra.
  destruct (Qltb q 0) eqn:E; simpl; [|lra].
  apply Qltb_lt in E. lra.
Qed.

Lemma fsum_nonneg (l : list fnum) : Forall fin_nonneg l -> fin_nonneg (fsum l).
Proof.
  induction 1 as [|x l Hx _ IH]; [apply Qle_refl|].
  change (fsum (x :: l)) with (fadd x (fsum l)).
  destruct x as [a| | |]; try contradiction.
  destruct (fsum l) as [b| | |]; try contradiction.
  simpl in *. lra.
Qed.

Lemma Forall_skipn_keep {A : Type} (P : A -> Prop) (n : nat) (l : list A) :
  Forall P l -> Forall P (skipn n l).
Proof.
  revert l. induction n as [|n IH]; intros l H; simpl; [exact H|].
  destruct H; [constructor | apply IH; assumption].
Qed.

Lemma Forall_firstn_keep {A : Type} (P : A -> Prop) (n : nat) (l : list A) :
  Forall P l -> Forall P (firstn n l).
Proof.
  revert l. induction n as [|n IH]; intros l H; simpl; [constructor|].
  destruct H; constructor; [assumption | apply IH; assumption].
Qed.

Lemma window_mean_nonneg (w : nat) (pre : list fnum) :
  Forall fin_nonneg pre -> nonneg_or_nan (window_mean w pre).
Proof.
  intros H. unfold window_mean.
  destruct (w =? 0)%nat eqn:Ew; [exact I|].
  destruct (List.length pre <? w)%nat; simpl; [exact I|].
  pose proof (fsum_nonneg (Forall_skipn_keep (List.length pre - w) H)) as Hs.
  destruct (fsum _) as [s| | |]; try contradiction. simpl in Hs.
  apply Nat.eqb_neq in Ew.
  assert (Hw : 0 < inject_Z (Z.of_nat w)).
  { unfold Qlt. simpl. lia. }
  simpl. replace (Qeq_bool (inject_Z (Z.of_nat w)) 0) with false.
  - simpl. apply Qle_shift_div_l; [exact Hw | lra].
  - symmetry. apply Qeq_bool_false. lra.
Qed.

Lemma rolling_mean_nonneg (w : nat) (xs : list fnum) :
  Forall fin_nonneg xs -> Forall nonneg_or_nan (rolling_mean w xs).
Proof.
  intros H. unfold rolling_mean. apply Forall_forall. intros x Hx.
  apply in_map_iff in Hx. destruct Hx as (i & <- & _).
  apply window_mean_nonneg. apply Forall_firstn_keep. exact H.
Qed.

Lemma rolling_mean_length (w : nat) (xs : list fnum) :
  List.length (rolling_mean w xs) = List.length xs.
Proof. unfold rolling_mean. now rewrite length_map, length_seq. Qed.

Lemma diff_from_length (a : fnum) (xs : list fnum) :
  List.length (diff_from a xs) = List.length xs.
Proof. revert a. induction xs; intros; simpl; auto. Qed.

Lemma diff_length (xs : list fnum) : List.length (diff xs) = List.length xs.
Proof. destruct xs; simpl; [reflexivity|]. now rewrite diff_from_length. Qed.

Lemma ratio_after_fillna (g l : fnum) :
  nonneg_or_nan g -> nonneg_or_nan l ->
  ratio_ok (if isna (fdiv g l) then Fin 0 else fdiv g l).
Proof.
  destruct g as [a| | |], l as [b| | |]; simpl; try contradiction;
    try (intros; apply Qle_refl).
  intros Ha Hb. destruct (Qeq_bool b 0) eqn:Eb.
  - destruct (Qltb 0 a) eqn:Ea; simpl; [exact I|].
    destruct (Qltb a 0) eqn:Ea'; simpl; [|apply Qle_refl].
    apply Qltb_lt in Ea'. lra.
  - simpl. apply Qeq_bool_false in Eb.
    apply Qle_shift_div_l; [|lra].
    destruct (Qlt_le_dec 0 b) as [Hlt|Hle]; [exact Hlt|].
    exfalso. apply Eb. lra.
Qed.

Lemma rsi_rs_ok (df : DataFrame) (p : nat) : Forall ratio_ok (rsi_rs df p).
Proof.
  unfold rsi_rs, fillna, series_div. rewrite map_map.
  apply Forall_forall. intros x Hx. apply in_map_iff in Hx.
  destruct Hx as ([g l] & <- & Hin). simpl.
  pose proof (in_combine_l _ _ _ _ Hin) as Hg.
  pose proof (in_combine_r _ _ _ _ Hin) as Hl.
  apply ratio_after_fillna.
  - refine (proj1 (Forall_forall _ _) _ _ Hg). unfold rsi_gain.
    apply rolling_mean_nonneg, gains_nonneg. unfold rsi_delta, close_series.
    rewrite <- (map_map close Fin). apply diff_fin_or_nan.
  - refine (proj1 (Forall_forall _ _) _ _ Hl). unfold rsi_loss.
    apply rolling_mean_nonneg, losses_nonneg. unfold rsi_delta, close_series.
    rewrite <- (map_map close Fin). apply diff_fin_or_nan.
Qed.

Lemma rsi_rs_length (df : DataFrame) (p : nat) :
  List.length (rsi_rs df p) = len df.
Proof.
  unfold rsi_rs, fillna, series_div, rsi_gain, rsi_loss, rsi_delta, close_series, where_, len.
  rewrite !length_map, length_combine, !rolling_mean_length, !length_map,
    diff_length, length_map.
  apply Nat.min_id.
Qed.

Lemma rsi_of_rs_in_range (rs : fnum) : ratio_ok rs -> in_range 0 100 (rsi_of_rs rs).
Proof.
  destruct rs as [q| | |]; simpl; try contradiction.
  - intros Hq. unfold rsi_of_rs. simpl.
    replace (Qeq_bool (1 + q) 0) with false
      by (symmetry; apply Qeq_bool_false; lra).
    simpl.
    assert (H1 : 0 < 1 + q) by lra.
    assert (Hlo : 0 <= 100 / (1 + q)) by (apply Qle_shift_div_l; [exact H1 | lra]).
    assert (Hhi : 100 / (1 + q) <= 100) by (apply Qle_shift_div_r; [exact H1 | nra]).
    split; lra.
  - intros _. unfold rsi_of_rs. simpl. split; lra.
Qed.

Lemma column_eqb_refl (c : column) : column_eqb c c = true.
Proof. destruct c; simpl; apply Nat.eqb_refl. Qed.

Lemma get_column_assign (c : column) (v : list fnum) (cols : list (column * list fnum)) :
  get_column c (assign c v cols) = Some v.
Proof.
  induction cols as [|[c' v'] cols IH]; simpl.
  - now rewrite column_eqb_refl.
  - destruct (column_eqb c' c) eqn:E; simpl.
    + now rewrite column_eqb_refl.
    + now rewrite E.
Qed.

(** The oscillator computed by [calculate_indicators] is, on every row, a
    finite value between 0 and 100; in particular it is never undefined. *)
Theorem rsi_within_0_and_100 (df out : DataFrame) (params : Params) (i : nat) :
  calculate_indicators (Some df) params = Some out ->
  (i < len df)%nat ->
  in_range 0 100 (row_at out i (RSI (rsi_period params))).
Proof.
  unfold calculate_indicators. intros [= <-] Hi.
  unfold row_at, set_column. cbn [indicators bars].
  rewrite get_column_assign.
  match goal with
  | |- in_range _ _ (nth i (map rsi_of_rs (rsi_rs ?d ?p)) NaN) =>
      pose proof (rsi_rs_ok d p) as Hok; pose proof (rsi_rs_length d p) as Hlen;
      change (len d) with (len df) in Hlen
  end.
  match goal with
  | |- in_range _ _ (nth i ?col NaN) =>
      assert (Hall : Forall (in_range 0 100) col);
      [| exact (proj1 (Forall_forall _ _) Hall _
                  (nth_In col NaN ltac:(rewrite length_map, Hlen; exact Hi)))]
  end.
  apply Forall_forall. intros x Hx. apply in_map_iff in Hx.
  destruct Hx as (rs & <- & Hrs). apply rsi_of_rs_in_range.
  exact (proj1 (Forall_forall _ _) Hok _ Hrs).
Qed.

Lemma rsi_within_0_and_100_witness :
  exists out,
    calculate_indicators (Some (frame_of_closes [1; 2; 3])) small_profile = Some out
    /\ in_range 0 100 (row_at out 2 (RSI (rsi_period small_profile))).
Proof.
  eexists. split; [reflexivity|].
  apply (@rsi_within_0_and_100 (frame_of_closes [1; 2; 3]) _ small_profile 2%nat).
  - reflexivity.
  - vm_compute. lia.
Defined.

(** ** The signal rules on a frame computed by [calculate_indicators] *)

Lemma column_eqb_eq (a b : column) : column_eqb a b = true -> a = b.
Proof.
  destruct a, b; simpl; try discriminate; intros H; apply Nat.eqb_eq in H;
    congruence.
Qed.

Lemma get_column_assign_other (c c' : column) (v : list fnum)
  (cols : list (column * list fnum)) :
  column_eqb c' c = false ->
  get_column c (assign c' v cols) = get_column c cols.
Proof.
  intros Hne. induction cols as [|[h vh] cols IH]; simpl.
  - now rewrite Hne.
  - destruct (column_eqb h c') eqn:E; simpl.
    + apply column_eqb_eq in E. subst h. now rewrite Hne.
    + destruct (column_eqb h c); [reflexivity | exact IH].
Qed.

Lemma rolling_mean_nth (w : nat) (xs : list fnum) (i : nat) :
  (i < List.length xs)%nat ->
  nth i (rolling_mean w xs) NaN = window_mean w (firstn (S i) xs).
Proof.
  intros Hi. unfold rolling_mean.
  rewrite (nth_indep _ NaN (window_mean w (firstn (S 0) xs)))
    by (now rewrite length_map, length_seq).
  rewrite (map_nth (fun i => window_mean w (firstn (S i) xs))).
  now rewrite seq_nth.
Qed.

Lemma window_mean_defined (w : nat) (pre : list fnum) :
  isna (window_mean w pre) = false -> (w <= List.length pre)%nat.
Proof.
  unfold window_mean. destruct (w =? 0)%nat; [discriminate|].
  destruct (List.length pre <? w)%nat eqn:E; [discriminate|].
  intros _. apply Nat.ltb_ge in E. exact E.
Qed.

(** The long average of a computed frame is the rolling mean of the closes. *)
Lemma computed_long_sma (df out : DataFrame) (params : Params) (i : nat) :
  calculate_indicators (Some df) params = Some out ->
  len out = len df
  /\ row_at out i (SMA (long_sma params))
     = nth i (rolling_mean (long_sma params) (close_series df)) NaN.
Proof.
  unfold calculate_indicators. intros [= <-]. split; [reflexivity|].
  unfold row_at, set_column. cbn [indicators bars].
  rewrite get_column_assign_other by reflexivity.
  rewrite get_column_assign. reflexivity.
Qed.

(** On a frame computed by [calculate_indicators], a previous row whose
    short average is at or above its long average (the first half of a
    crossunder) already implies that the frame passes the length check of
    [generate_signal]. *)
Theorem computed_frame_passes_length_check
  (df out : DataFrame) (params : Params) (prev_row : Row) :
  calculate_indicators (Some df) params = Some out ->
  iloc_back out 2 = Some prev_row ->
  fgeb (prev_row (SMA (short_sma params))) (prev_row (SMA (long_sma params))) = true ->
  (long_sma params <= len out)%nat.
Proof.
  intros Hout Hprev Hge.
  destruct (iloc_back_some _ _ Hprev) as [H2 Eprev].
  destruct (@computed_long_sma df out params (len out - 2) Hout) as [Hlen Hlong].
  assert (Hna : isna (prev_row (SMA (long_sma params))) = false).
  { unfold fgeb in Hge.
    destruct (prev_row (SMA (long_sma params))); [reflexivity..|discriminate]. }
  rewrite Eprev, Hlong in Hna.
  assert (Hi : (len out - 2 < List.length (close_series df))%nat).
  { unfold close_series. rewrite length_map. fold (len df). lia. }
  rewrite (@rolling_mean_nth _ _ _ Hi) in Hna.
  apply window_mean_defined in Hna.
  rewrite length_firstn in Hna. lia.
Qed.

Lemma computed_frame_passes_length_check_witness :
  (long_sma three_step_profile
   <= len (computed_frame rise_then_cross_under_closes three_step_profile))%nat.
Proof.
  apply (@computed_frame_passes_length_check
           (frame_of_closes rise_then_cross_under_closes)
           (computed_frame rise_then_cross_under_closes three_step_profile)
           three_step_profile
           (row_at (computed_frame rise_then_cross_under_closes three_step_profile) 4));
    vm_compute; reflexivity.
Defined.

(** ** The most recent row of a log in time order *)

(** In a log in time order, the most recent [sd] row of a symbol carries
    the latest timestamp among the [sd] rows of that symbol. *)
Lemma most_recent_is_latest (sym sd : string) (log : list TradeRecord)
  (r r' : TradeRecord) :
  time_ordered log ->
  most_recent sym sd log r ->
  In r' log -> is_trade sym sd r' = true ->
  (timestamp r' <= timestamp r)%Z.
Proof.
  intros Hord (before & after & -> & Hr & Hafter) Hin Hr'.
  apply in_app_iff in Hin. destruct Hin as [Hin|[<-|Hin]].
  - unfold time_ordered in Hord. clear - Hord Hin.
    induction before as [|x before IH]; [contradiction|].
    simpl in Hord. apply StronglySorted_inv in Hord. destruct Hord as [Hs Hall].
    destruct Hin as [<-|Hin]; [|apply IH; assumption].
    apply (proj1 (Forall_forall _ _) Hall). apply in_app_iff. right. now left.
  - lia.
  - rewrite (Hafter _ Hin) in Hr'. discriminate.
Qed.

(** The configured products are listed once each. *)
Lemma products_listed_once : NoDup PRODUCTS.
Proof.
  unfold PRODUCTS.
  repeat (constructor; [simpl; intuition discriminate|]). constructor.
Qed.

(** With the configured products, a cycle's product loop hands at most one
    order per symbol to the exchange. *)
Lemma configured_products_one_order_each (W : Type) (api : Exchange W)
  (exchange : string) (client : BinanceClient) (is_safe : bool) (params : Params)
  (st st' : BotState W) (r : Result unit) (tr : list Event) (sym : string) :
  process_products api exchange client PRODUCTS is_safe params st = (r, st', tr) ->
  (orders_sent sym tr <= 1)%nat.
Proof.
  intros H. eapply process_products_orders; [exact products_listed_once | exact H].
Qed.

(* ================================================================== *)
(** * Further properties of [strategy.py]                              *)
(* ================================================================== *)

(** ** [process_raw_klines] *)

Lemma insert_bar_permutation (b : Bar) (l : list Bar) :
  Permutation (b :: l) (insert_bar b l).
Proof.
  induction l as [|x l IH]; simpl; [apply Permutation_refl|].
  destruct (time b <? time x)%Z; [apply Permutation_refl|].
  apply perm_trans with (x :: b :: l); [apply perm_swap|].
  apply perm_skip. exact IH.
Qed.

Lemma insert_bar_sorted (b : Bar) (l : list Bar) :
  StronglySorted (fun x y => (time x <= time y)%Z) l ->
  StronglySorted (fun x y => (time x <= time y)%Z) (insert_bar b l).
Proof.
  induction 1 as [|x l Hs IH Hall]; simpl.
  - constructor; constructor.
  - destruct (time b <? time x)%Z eqn:E.
    + apply Z.ltb_lt in E. constructor; [constructor; assumption|].
      constructor; [lia|].
      apply Forall_forall. intros y Hy.
      pose proof (proj1 (Forall_forall _ _) Hall y Hy). simpl in *. lia.
    + apply Z.ltb_ge in E. constructor; [exact IH|].
      apply Forall_forall. intros y Hy.
      apply (Permutation_in _ (Permutation_sym (insert_bar_permutation b l))) in Hy.
      destruct Hy as [<-|Hy]; [exact E|].
      exact (proj1 (Forall_forall _ _) Hall y Hy).
Qed.

Lemma sort_values_time_from (l acc : list Bar) :
  StronglySorted (fun x y => (time x <= time y)%Z) acc ->
  Permutation (l ++ acc) (fold_left (fun a b => insert_bar b a) l acc)
  /\ StronglySorted (fun x y => (time x <= time y)%Z)
       (fold_left (fun a b => insert_bar b a) l acc).
Proof.
  revert acc. induction l as [|b l IH]; intros acc Hacc; simpl.
  - split; [apply Permutation_refl | exact Hacc].
  - destruct (IH (insert_bar b acc) (insert_bar_sorted b Hacc)) as [Hp Hs].
    split; [|exact Hs].
    apply perm_trans with (l ++ insert_bar b acc); [|exact Hp].
    apply perm_trans with (l ++ b :: acc).
    + apply Permutation_middle.
    + apply Permutation_app_head. apply insert_bar_permutation.
Qed.

(** [process_raw_klines] answers [None] exactly for a missing or empty
    answer of the exchange; otherwise the frame holds the same bars, each
    as often as it was received, in time order, and no indicator column. *)
Theorem process_raw_klines_sorts_by_time (klines : option (list Bar)) :
  (process_raw_klines klines = None <-> klines = None \/ klines = Some [])
  /\ (forall df, process_raw_klines klines = Some df ->
        exists l, klines = Some l
                  /\ Permutation l (bars df)
                  /\ StronglySorted (fun x y => (time x <= time y)%Z) (bars df)
                  /\ len df = List.length l
                  /\ indicators df = []).
Proof.
  split.
  - destruct klines as [[|b l]|]; simpl; split; intros H; auto; try discriminate.
    destruct H as [H|H]; discriminate.
  - intros df H. destruct klines as [[|b l]|]; try discriminate.
    injection H as <-. exists (b :: l).
    destruct (@sort_values_time_from (b :: l) [] (SSorted_nil _)) as [Hp Hs].
    rewrite app_nil_r in Hp. fold (sort_values_time (b :: l)) in Hp, Hs.
    split; [reflexivity|]. split; [exact Hp|]. split; [exact Hs|].
    split; [|reflexivity].
    unfold len. cbn [bars]. symmetry. apply Permutation_length. exact Hp.
Qed.

(** ** [generate_signal] *)

(** [generate_signal] raises exactly on a frame of fewer than two rows that
    passes the length check and has the three indicator columns. *)
Theorem generate_signal_raises_iff (df : DataFrame) (params : Params) :
  generate_signal (Some df) params = IndexError
  <-> (len df < 2)%nat
      /\ (long_sma params <= len df)%nat
      /\ has_column (SMA (short_sma params)) df = true
      /\ has_column (SMA (long_sma params)) df = true
      /\ has_column (RSI (rsi_period params)) df = true.
Proof.
  unfold generate_signal.
  destruct (len df <? long_sma params)%nat eqn:El.
  { apply Nat.ltb_lt in El. split; [discriminate | intros (_ & H & _); lia]. }
  apply Nat.ltb_ge in El. simpl forallb.
  destruct (has_column (SMA (short_sma params)) df);
    [|simpl; split; [discriminate | intros (_ & _ & H & _); discriminate]].
  destruct (has_column (SMA (long_sma params)) df);
    [|simpl; split; [discriminate | intros (_ & _ & _ & H & _); discriminate]].
  destruct (has_column (RSI (rsi_period params)) df);
    [|simpl; split; [discriminate | intros (_ & _ & _ & _ & H); discriminate]].
  simpl negb. cbv iota. unfold iloc_back.
  destruct (1 <=? len df)%nat eqn:E1.
  - destruct (2 <=? len df)%nat eqn:E2.
    + apply Nat.leb_le in E2. split; [|intros (H & _); lia].
      destruct (_ || _); [discriminate|].
      destruct (_ && _); [discriminate|].
      destruct (rsi_is_overbought_of _ _ _); [discriminate|].
      destruct (sma_cross_under_of _ _ _ _); discriminate.
    + apply Nat.leb_gt in E2. split; auto 10.
  - apply Nat.leb_gt in E1. split; [intros _|reflexivity].
    repeat split; auto; lia.
Qed.

(** What a BUY and a SELL answer of [generate_signal] say about the last
    two rows: BUY only on a crossover with the oscillator below the
    overbought threshold; SELL only with the oscillator above the
    threshold, or on a crossunder. *)
Theorem generate_signal_sound (df : DataFrame) (params : Params)
  (signal : Signal) (reason : Reason) :
  generate_signal (Some df) params = Ok (signal, reason) ->
  signal <> HOLD ->
  let last_row := row_at df (len df - 1) in
  let prev_row := row_at df (len df - 2) in
  let short := SMA (short_sma params) in
  let long := SMA (long_sma params) in
  let rsi := last_row (RSI (rsi_period params)) in
  (long_sma params <= len df)%nat /\ (2 <= len df)%nat
  /\ isna (last_row short) = false /\ isna (last_row long) = false
  /\ match signal with
     | BUY =>
         reason = Golden_Cross_RSI_Confirmation
         /\ fleb (prev_row short) (prev_row long) = true
         /\ fgtb (last_row short) (last_row long) = true
         /\ fltb rsi (Fin (rsi_overbought params)) = true
     | SELL =>
         (fgtb rsi (Fin (rsi_overbought params)) = true
          /\ reason = Aggressive_Sell_RSI_Overbought rsi)
         \/ (fgtb rsi (Fin (rsi_overbought params)) = false
             /\ fgeb (prev_row short) (prev_row long) = true
             /\ fltb (last_row short) (last_row long) = true
             /\ reason = Death_Cross)
     | HOLD => True
     end.
Proof.
  cbv zeta. unfold generate_signal.
  destruct (len df <? long_sma params)%nat eqn:El;
    [intros [= <- _] H; contradiction|].
  apply Nat.ltb_ge in El.
  destruct (negb _); [intros [= <- _] H; contradiction|].
  unfold iloc_back.
  destruct (1 <=? len df)%nat; [|discriminate].
  destruct (2 <=? len df)%nat eqn:E2; [|discriminate].
  apply Nat.leb_le in E2.
  destruct (isna (row_at df (len df - 1) (SMA (short_sma params)))) eqn:Es;
    [simpl; intros [= <- _] H; contradiction|].
  destruct (isna (row_at df (len df - 1) (SMA (long_sma params)))) eqn:Elg;
    [simpl; intros [= <- _] H; contradiction|].
  simpl orb. cbv iota.
  unfold sma_cross_over_of, sma_cross_under_of, rsi_is_overbought_of.
  destruct (fleb _ _ && fgtb _ _ && fltb _ _) eqn:Eb.
  { intros [= <- <-] _. apply andb_true_iff in Eb. destruct Eb as [Eb E3].
    apply andb_true_iff in Eb. destruct Eb as [E1 E2'].
    repeat split; auto. }
  destruct (fgtb (row_at df (len df - 1) (RSI (rsi_period params)))
              (Fin (rsi_overbought params))) eqn:Eo.
  { intros [= <- <-] _. do 4 (split; [auto|]). left. auto. }
  destruct (fgeb _ _ && fltb _ _) eqn:Eu.
  { intros [= <- <-] _. apply andb_true_iff in Eu. destruct Eu as [E1 E2'].
    do 4 (split; [auto|]). right. auto. }
  intros [= <- _] H. contradiction.
Qed.

Lemma generate_signal_sound_witness :
  (long_sma small_profile <= len frame_cross_under_overbought)%nat
  /\ (2 <= len frame_cross_under_overbought)%nat.
Proof.
  destruct (@generate_signal_sound frame_cross_under_overbought small_profile
              SELL (Aggressive_Sell_RSI_Overbought (Fin 80)))
    as (H1 & H2 & _).
  - vm_compute. reflexivity.
  - discriminate.
  - split; assumption.
Defined.

(** ** The moving averages of [calculate_indicators] *)

Lemma computed_sma (df out : DataFrame) (params : Params) (w i : nat) :
  calculate_indicators (Some df) params = Some out ->
  w = short_sma params \/ w = long_sma params ->
  row_at out i (SMA w) = nth i (rolling_mean w (close_series df)) NaN.
Proof.
  unfold calculate_indicators. intros [= <-] Hw.
  unfold row_at, set_column. cbn [indicators bars].
  rewrite get_column_assign_other by reflexivity.
  destruct (Nat.eq_dec w (long_sma params)) as [->|Hne].
  - rewrite get_column_assign. reflexivity.
  - destruct Hw as [->|Hw]; [|contradiction].
    rewrite get_column_assign_other.
    + rewrite get_column_assign. reflexivity.
    + simpl. apply Nat.eqb_neq. congruence.
Qed.

Lemma fsum_map_Fin (l : list Q) : fsum (map Fin l) = Fin (Qsum l).
Proof.
  induction l as [|q l IH]; [reflexivity|].
  change (fsum (map Fin (q :: l))) with (fadd (Fin q) (fsum (map Fin l))).
  rewrite IH. reflexivity.
Qed.

Lemma inject_nat_pos (w : nat) : (1 <= w)%nat -> 0 < inject_Z (Z.of_nat w).
Proof. intros H. unfold Qlt. simpl. lia. Qed.

Lemma window_mean_Fin (w : nat) (qs : list Q) :
  (1 <= w <= List.length qs)%nat ->
  window_mean w (map Fin qs)
  = Fin (Qsum (skipn (List.length qs - w) qs) / inject_Z (Z.of_nat w)).
Proof.
  intros [H1 H2]. unfold window_mean. rewrite length_map.
  replace (w =? 0)%nat with false by (symmetry; apply Nat.eqb_neq; lia).
  replace (List.length qs <? w)%nat with false by (symmetry; apply Nat.ltb_ge; lia).
  simpl orb. cbv iota. rewrite skipn_map, fsum_map_Fin. simpl.
  replace (Qeq_bool (inject_Z (Z.of_nat w)) 0) with false; [reflexivity|].
  symmetry. apply Qeq_bool_false. pose proof (inject_nat_pos H1). lra.
Qed.

(** The moving-average columns: the average over [w] rows is undefined
    exactly on the first [w - 1] rows of the frame; from row [w - 1] on
    every row carries a value. *)
Theorem sma_is_defined_after_warm_up (df out : DataFrame) (params : Params)
  (w i : nat) :
  calculate_indicators (Some df) params = Some out ->
  w = short_sma params \/ w = long_sma params ->
  (1 <= w)%nat ->
  (i < len df)%nat ->
  (isna (row_at out i (SMA w)) = true <-> (S i < w)%nat).
Proof.
  intros Hout Hw Hpos Hi. rewrite (computed_sma i Hout Hw).
  assert (Hlen : List.length (close_series df) = len df)
    by (unfold close_series; apply length_map).
  rewrite rolling_mean_nth by lia.
  assert (Hpre : firstn (S i) (close_series df)
                 = map Fin (firstn (S i) (map close (bars df)))).
  { unfold close_series. rewrite <- (map_map close Fin). apply firstn_map. }
  assert (Hl : List.length (firstn (S i) (map close (bars df))) = S i).
  { rewrite length_firstn, length_map. fold (len df). lia. }
  destruct (Nat.ltb_spec (S i) w) as [Hlt|Hge].
  - split; [intros _; exact Hlt|]. intros _.
    unfold window_mean. rewrite Hpre, length_map, Hl.
    replace (S i <? w)%nat with true by (symmetry; apply Nat.ltb_lt; exact Hlt).
    now rewrite orb_true_r.
  - rewrite Hpre, window_mean_Fin by lia. cbn [isna].
    split; [discriminate | lia].
Qed.

Lemma sma_is_defined_after_warm_up_witness :
  isna (row_at (computed_frame rise_then_cross_under_closes three_step_profile)
          4 (SMA 3)) = false
  /\ isna (row_at (computed_frame rise_then_cross_under_closes three_step_profile)
            1 (SMA 3)) = true.
Proof.
  split.
  - destruct (isna (row_at (computed_frame rise_then_cross_under_closes
                              three_step_profile) 4 (SMA 3))) eqn:E;
      [|reflexivity].
    apply (@sma_is_defined_after_warm_up
             (frame_of_closes rise_then_cross_under_closes)
             (computed_frame rise_then_cross_under_closes three_step_profile)
             three_step_profile 3%nat 4%nat) in E;
      [lia | reflexivity | right; reflexivity | lia | vm_compute; lia].
  - apply (@sma_is_defined_after_warm_up
             (frame_of_closes rise_then_cross_under_closes)
             (computed_frame rise_then_cross_under_closes three_step_profile)
             three_step_profile 3%nat 1%nat);
      [reflexivity | right; reflexivity | lia | vm_compute; lia | lia].
Defined.

(** ** The oscillator over a window without a loss *)

Lemma diff_from_nth (qs : list Q) (a : Q) (i : nat) :
  (i < List.length qs)%nat ->
  nth i (diff_from (Fin a) (map Fin qs)) NaN
  = Fin (nth i qs 0 + - nth i (a :: qs) 0).
Proof.
  revert a i. induction qs as [|q qs IH]; intros a i Hi; [simpl in Hi; lia|].
  destruct i as [|i]; [reflexivity|].
  simpl in Hi. cbn [map diff_from nth]. rewrite IH by lia. reflexivity.
Qed.

Lemma diff_nth (qs : list Q) (i : nat) :
  (1 <= i < List.length qs)%nat ->
  nth i (diff (map Fin qs)) NaN = Fin (nth i qs 0 + - nth (i - 1) qs 0).
Proof.
  intros [H1 H2]. destruct qs as [|q qs]; [simpl in H2; lia|].
  destruct i as [|i]; [lia|]. simpl in H2.
  cbn [map diff]. cbn [nth]. rewrite diff_from_nth by lia.
  replace (S i - 1)%nat with i by lia. reflexivity.
Qed.

Lemma nth_skipn_shift {A : Type} (k j : nat) (l : list A) (d : A) :
  nth j (skipn k l) d = nth (k + j) l d.
Proof.
  revert l. induction k as [|k IH]; intros l; [reflexivity|].
  destruct l as [|x l]; [destruct j; reflexivity|]. apply IH.
Qed.

Lemma Forall_skipn_nth {A : Type} (P : A -> Prop) (k : nat) (l : list A) (d : A) :
  (forall i, (k <= i < List.length l)%nat -> P (nth i l d)) ->
  Forall P (skipn k l).
Proof.
  intros H. apply Forall_forall. intros x Hx.
  destruct (In_nth _ _ d Hx) as (j & Hj & <-).
  rewrite length_skipn in Hj. rewrite nth_skipn_shift. apply H. lia.
Qed.

Lemma In_skipn_nth {A : Type} (k i : nat) (l : list A) (d : A) :
  (k <= i < List.length l)%nat -> In (nth i l d) (skipn k l).
Proof.
  intros H. replace i with (k + (i - k))%nat by lia.
  rewrite <- nth_skipn_shift. apply nth_In. rewrite length_skipn. lia.
Qed.

Lemma fsum_zero (l : list fnum) : Forall fin_zero l -> fin_zero (fsum l).
Proof.
  induction 1 as [|x l Hx _ IH]; [simpl; reflexivity|].
  change (fsum (x :: l)) with (fadd x (fsum l)).
  destruct x as [a| | |]; try contradiction.
  destruct (fsum l) as [b| | |]; try contradiction.
  simpl in *. lra.
Qed.

Lemma fsum_pos (l : list fnum) :
  Forall fin_nonneg l -> Exists fin_pos l -> fin_pos (fsum l).
Proof.
  induction 1 as [|x l Hx Hl IH]; intros He; [inversion He|].
  change (fsum (x :: l)) with (fadd x (fsum l)).
  pose proof (fsum_nonneg Hl) as Hs.
  destruct x as [a| | |]; try contradiction.
  destruct (fsum l) as [b| | |] eqn:Eb; try contradiction.
  simpl in *. inversion He as [? ? Hp|? ? Hp]; subst.
  - simpl in Hp. lra.
  - specialize (IH Hp). simpl in IH. lra.
Qed.

Lemma nth_map_in {A B : Type} (f : A -> B) (l : list A) (d' : B) (d : A) (i : nat) :
  (i < List.length l)%nat -> nth i (map f l) d' = f (nth i l d).
Proof.
  intros H. rewrite (nth_indep _ d' (f d)) by (now rewrite length_map).
  apply map_nth.
Qed.

(** The gain and loss entries of a row whose close is not below the close
    before it. *)
Lemma gain_loss_entries (df : DataFrame) (i : nat) :
  (i < len df)%nat ->
  ((1 <= i)%nat -> close_at df (i - 1) <= close_at df i) ->
  fin_nonneg (nth i (where_ (fun d => fgtb d (Fin 0)) (Fin 0) (rsi_delta df)) NaN)
  /\ fin_zero (nth i (map fopp (where_ (fun d => fltb d (Fin 0)) (Fin 0)
                                  (rsi_delta df))) NaN)
  /\ ((1 <= i)%nat -> close_at df (i - 1) < close_at df i ->
      fin_pos (nth i (where_ (fun d => fgtb d (Fin 0)) (Fin 0) (rsi_delta df)) NaN)).
Proof.
  intros Hi Hup. unfold where_.
  assert (Hd : List.length (rsi_delta df) = len df).
  { unfold rsi_delta, close_series. now rewrite diff_length, length_map. }
  rewrite (nth_map_in fopp _ NaN NaN) by (rewrite length_map; lia).
  rewrite !(nth_map_in _ _ NaN NaN) by lia.
  unfold rsi_delta, close_series. rewrite <- (map_map close Fin).
  destruct i as [|i].
  - destruct (map close (bars df)); simpl; repeat split; try lra; intros; lia.
  - rewrite diff_nth by (rewrite length_map; fold (len df); lia).
    replace (S i - 1)%nat with i in * by lia.
    unfold close_at in Hup. specialize (Hup ltac:(lia)).
    set (d := nth (S i) (map close (bars df)) 0 + - nth i (map close (bars df)) 0).
    assert (Hdn : 0 <= d) by (unfold d; lra).
    simpl.
    replace (Qltb d 0) with false by (symmetry; apply Qltb_ge; exact Hdn).
    simpl. split; [|split; [lra|]].
    + destruct (Qltb 0 d); simpl; lra.
    + intros _ Hlt. unfold close_at in Hlt.
      replace (Qltb 0 d) with true by (symmetry; apply Qltb_lt; unfold d; lra).
      simpl. unfold d. lra.
Qed.

Lemma computed_rsi (df out : DataFrame) (params : Params) (i : nat) :
  calculate_indicators (Some df) params = Some out ->
  len out = len df
  /\ row_at out i (RSI (rsi_period params))
     = nth i (map rsi_of_rs (rsi_rs df (rsi_period params))) NaN.
Proof.
  unfold calculate_indicators. intros [= <-]. split; [reflexivity|].
  unfold row_at, set_column. cbn [indicators bars].
  rewrite get_column_assign. reflexivity.
Qed.

Lemma generate_signal_buy_rsi (df : DataFrame) (params : Params) (reason : Reason) :
  generate_signal (Some df) params = Ok (BUY, reason) ->
  fltb (row_at df (len df - 1) (RSI (rsi_period params)))
    (Fin (rsi_overbought params)) = true.
Proof.
  unfold generate_signal.
  destruct (len df <? long_sma params)%nat; [discriminate|].
  destruct (negb _); [discriminate|].
  unfold iloc_back.
  destruct (1 <=? len df)%nat; [|discriminate].
  destruct (2 <=? len df)%nat; [|discriminate].
  destruct (_ || _); [discriminate|].
  destruct (sma_cross_over_of _ _ _ _); simpl.
  - destruct (fltb _ _); [reflexivity|].
    destruct (rsi_is_overbought_of _ _ _); [discriminate|].
    destruct (sma_cross_under_of _ _ _ _); discriminate.
  - destruct (rsi_is_overbought_of _ _ _); [discriminate|].
    destruct (sma_cross_under_of _ _ _ _); discriminate.
Qed.

(** The window mean at the last row of a series as long as the frame. *)
Lemma rolling_mean_last (p : nat) (xs : list fnum) :
  (1 <= p <= List.length xs)%nat ->
  nth (List.length xs - 1) (rolling_mean p xs) NaN
  = fdiv (fsum (skipn (List.length xs - p) xs)) (Fin (inject_Z (Z.of_nat p))).
Proof.
  intros [H1 H2]. rewrite rolling_mean_nth by lia.
  replace (S (List.length xs - 1)) with (List.length xs) by lia.
  rewrite firstn_all. unfold window_mean.
  replace (p =? 0)%nat with false by (symmetry; apply Nat.eqb_neq; lia).
  replace (List.length xs <? p)%nat with false by (symmetry; apply Nat.ltb_ge; lia).
  reflexivity.
Qed.

(** When the last [rsi_period] rows hold at least one rise of the close and
    no fall, the rolling loss-mean is zero, the gain/loss ratio is infinite
    and the oscillator of the last row is 100.  With an overbought
    threshold below 100, [generate_signal] then never answers BUY: a
    crossover in a window of rises only is not bought. *)
Theorem rsi_is_100_without_loss (df out : DataFrame) (params : Params) :
  calculate_indicators (Some df) params = Some out ->
  (1 <= rsi_period params <= len df)%nat ->
  (forall i, (len df - rsi_period params <= i < len df)%nat -> (1 <= i)%nat ->
             close_at df (i - 1) <= close_at df i) ->
  (exists i, (len df - rsi_period params <= i < len df)%nat /\ (1 <= i)%nat
             /\ close_at df (i - 1) < close_at df i) ->
  feq (row_at out (len df - 1) (RSI (rsi_period params))) (Fin 100)
  /\ (rsi_overbought params < 100 ->
      forall reason, generate_signal (Some out) params <> Ok (BUY, reason)).
Proof.
  intros Hout Hp Hup (j & Hj & Hj1 & Hrise).
  set (p := rsi_period params) in *.
  set (gains := where_ (fun d => fgtb d (Fin 0)) (Fin 0) (rsi_delta df)).
  set (losses := map fopp (where_ (fun d => fltb d (Fin 0)) (Fin 0) (rsi_delta df))).
  assert (Hd : List.length (rsi_delta df) = len df).
  { unfold rsi_delta, close_series. now rewrite diff_length, length_map. }
  assert (Hg : List.length gains = len df)
    by (unfold gains, where_; now rewrite length_map).
  assert (Hl : List.length losses = len df)
    by (unfold losses, where_; now rewrite !length_map).
  assert (Hpos : 0 < inject_Z (Z.of_nat p)) by (apply inject_nat_pos; lia).
  (* the gain mean of the last row is positive *)
  assert (Gm : fin_pos (nth (len df - 1) (rsi_gain df p) NaN)).
  { unfold rsi_gain. fold gains. rewrite <- Hg.
    rewrite rolling_mean_last by lia. rewrite Hg.
    assert (Hs : fin_pos (fsum (skipn (len df - p) gains))).
    { apply fsum_pos.
      - apply Forall_skipn_nth with (d := NaN). intros i Hi. rewrite Hg in Hi.
        apply gain_loss_entries; [lia|]. intros H1. apply Hup; lia.
      - apply Exists_exists. exists (nth j gains NaN). split.
        + apply In_skipn_nth. lia.
        + apply gain_loss_entries;
            [lia | intros H1; apply Hup; lia | lia | exact Hrise]. }
    destruct (fsum (skipn (len df - p) gains)) as [s| | |]; try contradiction.
    simpl in Hs |- *.
    replace (Qeq_bool (inject_Z (Z.of_nat p)) 0) with false
      by (symmetry; apply Qeq_bool_false; lra).
    simpl. apply Qlt_shift_div_l; lra. }
  (* the loss mean of the last row is zero *)
  assert (Lm : fin_zero (nth (len df - 1) (rsi_loss df p) NaN)).
  { unfold rsi_loss. fold losses. rewrite <- Hl.
    rewrite rolling_mean_last by lia. rewrite Hl.
    assert (Hs : fin_zero (fsum (skipn (len df - p) losses))).
    { apply fsum_zero. apply Forall_skipn_nth with (d := NaN).
      intros i Hi. rewrite Hl in Hi.
      apply gain_loss_entries; [lia|]. intros H1. apply Hup; lia. }
    destruct (fsum (skipn (len df - p) losses)) as [s| | |]; try contradiction.
    simpl in Hs |- *.
    replace (Qeq_bool (inject_Z (Z.of_nat p)) 0) with false
      by (symmetry; apply Qeq_bool_false; lra).
    simpl. rewrite Hs. field. lra. }
  (* hence the ratio is infinite and the oscillator 100 *)
  assert (Hrsi : row_at out (len df - 1) (RSI p) = Fin (100 + - 0)).
  { destruct (computed_rsi (len df - 1) Hout) as [_ E]. fold p in E. rewrite E.
    rewrite (nth_map_in rsi_of_rs _ NaN NaN) by (rewrite rsi_rs_length; lia).
    unfold rsi_rs, fillna, series_div.
    assert (Hc : List.length (combine (rsi_gain df p) (rsi_loss df p)) = len df).
    { rewrite length_combine. unfold rsi_gain, rsi_loss.
      rewrite !rolling_mean_length. fold gains losses. rewrite Hg, Hl.
      apply Nat.min_id. }
    rewrite (nth_map_in _ _ NaN NaN) by (rewrite length_map; lia).
    rewrite (nth_map_in _ _ NaN (NaN, NaN)) by lia.
    rewrite combine_nth
      by (unfold rsi_gain, rsi_loss; rewrite !rolling_mean_length;
          fold gains losses; congruence).
    cbn [fst snd].
    destruct (nth (len df - 1) (rsi_gain df p) NaN) as [g| | |]; try contradiction.
    destruct (nth (len df - 1) (rsi_loss df p) NaN) as [l| | |]; try contradiction.
    simpl in Gm, Lm. simpl.
    replace (Qeq_bool l 0) with true by (symmetry; apply Qeq_bool_iff; exact Lm).
    replace (Qltb 0 g) with true by (symmetry; apply Qltb_lt; exact Gm).
    reflexivity. }
  split.
  - rewrite Hrsi. simpl. lra.
  - intros Hob reason Hbuy. apply generate_signal_buy_rsi in Hbuy.
    destruct (computed_rsi 0 Hout) as [Hlen _]. rewrite Hlen in Hbuy.
    fold p in Hbuy. rewrite Hrsi in Hbuy. simpl in Hbuy.
    apply Qltb_lt in Hbuy. lra.
Qed.

Lemma rsi_is_100_without_loss_witness :
  feq (row_at (computed_frame [1; 2; 3] small_profile) 2 (RSI 2)) (Fin 100).
Proof.
  apply (@rsi_is_100_without_loss (frame_of_closes [1; 2; 3])
           (computed_frame [1; 2; 3] small_profile) small_profile).
  - reflexivity.
  - vm_compute. lia.
  - intros i Hi H1. change (len (frame_of_closes [1; 2; 3])) with 3%nat in Hi.
    change (rsi_period small_profile) with 2%nat in Hi.
    assert (Hc : i = 1%nat \/ i = 2%nat) by lia.
    destruct Hc as [-> | ->]; vm_compute; discriminate.
  - exists 2%nat. split; [vm_compute; lia|]. split; [lia|]. vm_compute. reflexivity.
Defined.

(* ================================================================== *)
(** * Further properties of [trade_logger.py]                          *)
(* ================================================================== *)

Lemma tail1_filter_app (f : TradeRecord -> bool) (l : list TradeRecord)
  (x : TradeRecord) :
  tail1 (filter f (l ++ [x])) = if f x then Some x else tail1 (filter f l).
Proof.
  rewrite filter_app. simpl. destruct (f x).
  - apply tail1_app_last.
  - now rewrite app_nil_r.
Qed.

Lemma tail1_filter_some (f : TradeRecord -> bool) (l : list TradeRecord)
  (r : TradeRecord) :
  tail1 (filter f l) = Some r ->
  exists before after,
    l = before ++ r :: after /\ f r = true /\ (forall x, In x after -> f x = false).
Proof.
  induction l as [|x l IH] using rev_ind; [discriminate|].
  rewrite tail1_filter_app. destruct (f x) eqn:E.
  - intros [= <-]. exists l, []. repeat split; auto. intros y [].
  - intros H. destruct (IH H) as (before & after & -> & Hr & Hafter).
    exists before, (after ++ [x]). rewrite <- app_assoc. repeat split; auto.
    intros y Hy. apply in_app_iff in Hy. destruct Hy as [Hy|[<-|[]]]; auto.
Qed.

Lemma tail1_filter_none (f : TradeRecord -> bool) (l : list TradeRecord) :
  tail1 (filter f l) = None -> forall x, In x l -> f x = false.
Proof.
  induction l as [|x l IH] using rev_ind; [intros _ y []|].
  rewrite tail1_filter_app. destruct (f x) eqn:E; [discriminate|].
  intros H y Hy. apply in_app_iff in Hy. destruct Hy as [Hy|[<-|[]]]; auto.
Qed.

(** What an answer of the position resolver says about the log.  An OPEN
    answer is the most recent BUY row of the symbol, and no most recent
    SELL row of the symbol is timestamped after it; a CLOSED answer means
    that the symbol has no BUY row or that its most recent SELL row is
    timestamped strictly after its most recent BUY row. *)
Theorem get_last_buy_for_symbol_inversion (log : list TradeRecord) (sym : string) :
  (forall buy, get_last_buy_for_symbol log sym = Some buy ->
     In buy log /\ symbol buy = sym /\ side buy = "BUY"%string
     /\ most_recent sym "BUY" log buy
     /\ forall sell, most_recent sym "SELL" log sell ->
                     (timestamp sell <= timestamp buy)%Z)
  /\ (get_last_buy_for_symbol log sym = None ->
      no_trade sym "BUY" log
      \/ exists buy sell,
           most_recent sym "BUY" log buy /\ most_recent sym "SELL" log sell
           /\ (timestamp buy < timestamp sell)%Z).
Proof.
  rewrite get_last_buy_unfold. split.
  - intros buy H.
    destruct (tail1 (filter (is_trade sym "BUY") log)) as [b|] eqn:Eb; [|discriminate].
    pose proof (tail1_filter_some _ _ Eb) as (before & after & El & Hb & Hafter).
    assert (Hmr : most_recent sym "BUY" log b).
    { exists before, after. auto. }
    assert (Hbuy : b = buy /\ forall sell, most_recent sym "SELL" log sell ->
                                           (timestamp sell <= timestamp b)%Z).
    { destruct (tail1 (filter (is_trade sym "SELL") log)) as [s|] eqn:Es.
      - destruct (timestamp s >? timestamp b)%Z eqn:Et; [discriminate|].
        injection H as <-. split; [reflexivity|]. intros sell Hs.
        rewrite (tail1_most_recent Hs) in Es. injection Es as ->.
        rewrite Z.gtb_ltb in Et. apply Z.ltb_ge in Et. exact Et.
      - injection H as <-. split; [reflexivity|]. intros sell Hs.
        rewrite (tail1_most_recent Hs) in Es. discriminate. }
    destruct Hbuy as [<- Hsell].
    unfold is_trade in Hb. apply andb_true_iff in Hb. destruct Hb as [H1 H2].
    apply String.eqb_eq in H1, H2.
    split; [rewrite El; apply in_app_iff; right; now left|].
    repeat split; auto.
  - intros H.
    destruct (tail1 (filter (is_trade sym "BUY") log)) as [b|] eqn:Eb.
    + destruct (tail1 (filter (is_trade sym "SELL") log)) as [s|] eqn:Es;
        [|discriminate].
      destruct (timestamp s >? timestamp b)%Z eqn:Et; [|discriminate].
      right. exists b, s.
      pose proof (tail1_filter_some _ _ Eb) as (b1 & a1 & E1 & Hb & Ha1).
      pose proof (tail1_filter_some _ _ Es) as (b2 & a2 & E2 & Hs & Ha2).
      split; [exists b1, a1; auto|]. split; [exists b2, a2; auto|].
      rewrite Z.gtb_ltb in Et. apply Z.ltb_lt in Et. exact Et.
    + left. exact (tail1_filter_none _ _ Eb).
Qed.

(** In a log in time order an OPEN answer of the resolver is the latest
    trade of the symbol: no BUY or SELL row of the symbol carries a later
    timestamp than the row returned. *)
Theorem open_position_is_latest_trade (log : list TradeRecord) (sym : string)
  (buy : TradeRecord) :
  time_ordered log ->
  get_last_buy_for_symbol log sym = Some buy ->
  forall r, In r log -> symbol r = sym ->
            side r = "BUY"%string \/ side r = "SELL"%string ->
            (timestamp r <= timestamp buy)%Z.
Proof.
  intros Hord H r Hin Hsym Hside. rewrite get_last_buy_unfold in H.
  destruct (tail1 (filter (is_trade sym "BUY") log)) as [b|] eqn:Eb; [|discriminate].
  pose proof (tail1_filter_some _ _ Eb) as (b1 & a1 & E1 & Hb & Ha1).
  assert (Hmb : most_recent sym "BUY" log b) by (exists b1, a1; auto).
  assert (Ht : forall sd, side r = sd -> is_trade sym sd r = true).
  { intros sd <-. unfold is_trade. now rewrite Hsym, !String.eqb_refl. }
  destruct (tail1 (filter (is_trade sym "SELL") log)) as [s|] eqn:Es.
  - destruct (timestamp s >? timestamp b)%Z eqn:Et; [discriminate|].
    injection H as <-. rewrite Z.gtb_ltb in Et. apply Z.ltb_ge in Et.
    pose proof (tail1_filter_some _ _ Es) as (b2 & a2 & E2 & Hs & Ha2).
    assert (Hms : most_recent sym "SELL" log s) by (exists b2, a2; auto).
    destruct Hside as [S|S].
    + exact (@most_recent_is_latest _ _ _ _ _ Hord Hmb Hin (Ht _ S)).
    + pose proof (@most_recent_is_latest _ _ _ _ _ Hord Hms Hin (Ht _ S)). lia.
  - injection H as <-. destruct Hside as [S|S].
    + exact (@most_recent_is_latest _ _ _ _ _ Hord Hmb Hin (Ht _ S)).
    + specialize (Ht _ S).
      rewrite (tail1_filter_none _ _ Es r Hin) in Ht. discriminate.
Qed.

Lemma open_position_is_latest_trade_witness :
  (timestamp sample_earlier_sell <= timestamp sample_buy)%Z.
Proof.
  apply (@open_position_is_latest_trade
           [sample_btc_buy; sample_earlier_sell; sample_buy] "binance_ETHUSDT"
           sample_buy).
  - repeat constructor; vm_compute; discriminate.
  - vm_compute. reflexivity.
  - right. left. reflexivity.
  - reflexivity.
  - right. reflexivity.
Defined.

Lemma resolve_ignores_row_of_other_symbol (log : list TradeRecord)
  (sym : string) (r : TradeRecord) :
  symbol r <> sym ->
  get_last_buy_for_symbol (log ++ [r]) sym = get_last_buy_for_symbol log sym.
Proof.
  intros Hr. rewrite !get_last_buy_unfold, !tail1_filter_app.
  assert (E : forall sd, is_trade sym sd r = false).
  { intros sd. unfold is_trade.
    destruct (String.eqb (symbol r) sym) eqn:E; [|reflexivity].
    apply String.eqb_eq in E. contradiction. }
  now rewrite !E.
Qed.

(** The resolver reads only the rows of the symbol it is asked about. *)
Theorem get_last_buy_for_symbol_reads_own_rows (log : list TradeRecord)
  (sym : string) :
  get_last_buy_for_symbol (filter (fun r => String.eqb (symbol r) sym) log) sym
  = get_last_buy_for_symbol log sym
  /\ forall r, symbol r <> sym ->
       get_last_buy_for_symbol (log ++ [r]) sym = get_last_buy_for_symbol log sym.
Proof.
  split.
  - rewrite !get_last_buy_unfold, !filter_filter.
    assert (E : forall sd,
               filter (fun x => String.eqb (symbol x) sym && is_trade sym sd x) log
               = filter (is_trade sym sd) log).
    { intros sd. apply filter_ext. intros x. unfold is_trade.
      destruct (String.eqb (symbol x) sym); reflexivity. }
    now rewrite !E.
  - intros r Hr. apply resolve_ignores_row_of_other_symbol. exact Hr.
Qed.

(** Logging and resolving, for a key the bot logs under and a side the
    bot logs (buy or sell, in any case).  After a BUY row for [sym] is
    logged at a time no earlier than every SELL row of [sym], the symbol
    resolves as OPEN with the new row.  After a SELL row is logged at a time strictly after
    the BUY row the symbol resolved to, the symbol resolves as CLOSED; a
    SELL row logged in the same second as that BUY row (or before) leaves it
    OPEN.  Logging for one symbol never changes how another resolves.  The
    side is stored in upper case, whatever case it was given in. *)
Theorem log_trade_then_resolve (now : Z) (sym sd : string)
  (price quantity cost commission : Q) (order_id : Z) (pnl : Q)
  (log : list TradeRecord) :
  bot_key sym ->
  upper sd = "BUY"%string \/ upper sd = "SELL"%string ->
  let row := log_entry now sym sd price quantity cost commission order_id pnl in
  let log' := log_trade now sym sd price quantity cost commission order_id pnl log in
  log' = log ++ [row]
  /\ (upper sd = "BUY"%string ->
      (forall s, In s log -> is_trade sym "SELL" s = true -> (timestamp s <= now)%Z) ->
      get_last_buy_for_symbol log' sym = Some row)
  /\ (upper sd = "SELL"%string ->
      forall buy, get_last_buy_for_symbol log sym = Some buy ->
        ((timestamp buy < now)%Z -> get_last_buy_for_symbol log' sym = None)
        /\ ((now <= timestamp buy)%Z -> get_last_buy_for_symbol log' sym = Some buy))
  /\ (forall other, other <> sym ->
        get_last_buy_for_symbol log' other = get_last_buy_for_symbol log other).
Proof.
  intros _ _. cbv zeta. unfold log_trade.
  set (row := log_entry now sym sd price quantity cost commission order_id pnl).
  split; [reflexivity|]. split; [|split].
  - intros Hsd Hsells.
    rewrite get_last_buy_unfold, !tail1_filter_app.
    assert (Eb : is_trade sym "BUY" row = true).
    { unfold is_trade, row, log_entry. cbn [symbol side].
      now rewrite Hsd, String.eqb_refl. }
    assert (Es : is_trade sym "SELL" row = false).
    { unfold is_trade, row, log_entry. cbn [symbol side].
      now rewrite Hsd, String.eqb_refl. }
    rewrite Eb, Es.
    destruct (tail1 (filter (is_trade sym "SELL") log)) as [s|] eqn:E; [|reflexivity].
    pose proof (tail1_filter_some _ _ E) as (before & after & El & Hs & _).
    assert (Hin : In s log) by (rewrite El; apply in_app_iff; right; now left).
    specialize (Hsells s Hin Hs).
    replace (timestamp s >? timestamp row)%Z with false; [reflexivity|].
    symmetry. rewrite Z.gtb_ltb. apply Z.ltb_ge. exact Hsells.
  - intros Hsd buy Hbuy.
    assert (Eb : is_trade sym "BUY" row = false).
    { unfold is_trade, row, log_entry. cbn [symbol side].
      now rewrite Hsd, String.eqb_refl. }
    assert (Es : is_trade sym "SELL" row = true).
    { unfold is_trade, row, log_entry. cbn [symbol side].
      now rewrite Hsd, String.eqb_refl. }
    rewrite get_last_buy_unfold in Hbuy.
    rewrite get_last_buy_unfold, !tail1_filter_app, Eb, Es.
    destruct (tail1 (filter (is_trade sym "BUY") log)) as [b|]; [|discriminate].
    assert (b = buy).
    { destruct (tail1 (filter (is_trade sym "SELL") log)) as [s|].
      - destruct (timestamp s >? timestamp b)%Z; [discriminate | congruence].
      - congruence. }
    subst b. change (timestamp row) with now.
    split; intros Ht.
    + replace (now >? timestamp buy)%Z with true; [reflexivity|].
      symmetry. apply Z.gtb_lt. exact Ht.
    + replace (now >? timestamp buy)%Z with false; [reflexivity|].
      symmetry. rewrite Z.gtb_ltb. apply Z.ltb_ge. exact Ht.
  - intros other Hne.
    apply resolve_ignores_row_of_other_symbol.
    unfold row, log_entry. cbn [symbol]. congruence.
Qed.

Lemma log_trade_then_resolve_witness :
  get_last_buy_for_symbol
    (log_trade 2000 "binance_ETHUSDT" "buy" 100 1 100 0 77 0 [sample_earlier_sell])
    "binance_ETHUSDT"
  = Some (log_entry 2000 "binance_ETHUSDT" "buy" 100 1 100 0 77 0).
Proof.
  assert (Hkey : bot_key "binance_ETHUSDT").
  { exists "ETHUSDT"%string. split; [right; left; reflexivity | reflexivity]. }
  apply (proj1 (proj2 (@log_trade_then_resolve 2000 "binance_ETHUSDT" "buy"
                         100 1 100 0 77 0 [sample_earlier_sell] Hkey
                         (or_introl eq_refl)))).
  - reflexivity.
  - intros s [<-|[]] _. vm_compute. discriminate.
Defined.

Lemma strictly_ordered_snoc (l : list TradeRecord) (x : TradeRecord) :
  strictly_time_ordered (l ++ [x]) ->
  strictly_time_ordered l /\ forall y, In y l -> (timestamp y < timestamp x)%Z.
Proof.
  unfold strictly_time_ordered. induction l as [|a l IH]; simpl; intros H.
  - split; [constructor | intros y []].
  - apply StronglySorted_inv in H. destruct H as [Hs Hall].
    destruct (IH Hs) as [Hl Hlt]. split.
    + constructor; [exact Hl|].
      apply Forall_forall. intros y Hy.
      apply (proj1 (Forall_forall _ _) Hall). apply in_app_iff. now left.
    + intros y [<-|Hy]; [|apply Hlt; exact Hy].
      apply (proj1 (Forall_forall _ _) Hall). apply in_app_iff. right. now left.
Qed.

Lemma is_trade_sides_exclusive (sym : string) (r : TradeRecord) :
  is_trade sym "BUY" r = true -> is_trade sym "SELL" r = false.
Proof.
  unfold is_trade. intros H. apply andb_true_iff in H. destruct H as [_ H].
  apply String.eqb_eq in H. rewrite H. now rewrite andb_false_r.
Qed.

(** In a log whose timestamps increase strictly the resolver looks at the
    last BUY-or-SELL row of the symbol only. *)
Lemma resolve_in_ordered_log (log : list TradeRecord) (sym : string) :
  strictly_time_ordered log ->
  get_last_buy_for_symbol log sym
  = match last_trade sym log with
    | Some r => if String.eqb (side r) "BUY" then Some r else None
    | None => None
    end.
Proof.
  unfold last_trade.
  induction log as [|x log IH] using rev_ind; intros Hord.
  - reflexivity.
  - apply strictly_ordered_snoc in Hord. destruct Hord as [Hord Hlt].
    specialize (IH Hord).
    rewrite get_last_buy_unfold, !tail1_filter_app.
    rewrite get_last_buy_unfold in IH.
    unfold is_any_trade at 1.
    destruct (is_trade sym "BUY" x) eqn:Eb.
    + rewrite (is_trade_sides_exclusive _ _ Eb). simpl orb. cbv iota.
      assert (Hside : side x = "BUY"%string).
      { unfold is_trade in Eb. apply andb_true_iff in Eb.
        apply String.eqb_eq. apply Eb. }
      rewrite Hside. change (String.eqb "BUY" "BUY") with true. cbv iota.
      destruct (tail1 (filter (is_trade sym "SELL") log)) as [s|] eqn:Es;
        [|reflexivity].
      pose proof (tail1_filter_some _ _ Es) as (b1 & a1 & E1 & _ & _).
      assert (Hin : In s log) by (rewrite E1; apply in_app_iff; right; now left).
      specialize (Hlt s Hin).
      replace (timestamp s >? timestamp x)%Z with false
        by (symmetry; rewrite Z.gtb_ltb; apply Z.ltb_ge; lia).
      reflexivity.
    + destruct (is_trade sym "SELL" x) eqn:Esx.
      * simpl orb. cbv iota.
        assert (Hside : side x = "SELL"%string).
        { unfold is_trade in Esx. apply andb_true_iff in Esx.
          apply String.eqb_eq. apply Esx. }
        rewrite Hside. change (String.eqb "SELL" "BUY") with false. cbv iota.
        destruct (tail1 (filter (is_trade sym "BUY") log)) as [b|] eqn:Ebb;
          [|reflexivity].
        pose proof (tail1_filter_some _ _ Ebb) as (b1 & a1 & E1 & _ & _).
        assert (Hin : In b log) by (rewrite E1; apply in_app_iff; right; now left).
        specialize (Hlt b Hin).
        replace (timestamp x >? timestamp b)%Z with true
          by (symmetry; apply Z.gtb_lt; exact Hlt).
        reflexivity.
      * simpl orb. cbv iota. exact IH.
Qed.

(** In a log whose timestamps increase strictly, a symbol resolves as OPEN
    exactly when its last BUY-or-SELL row is a BUY row, and the row the
    resolver returns is that row. *)
Theorem open_iff_last_trade_is_buy (log : list TradeRecord) (sym : string) :
  strictly_time_ordered log ->
  forall r,
    get_last_buy_for_symbol log sym = Some r
    <-> last_trade sym log = Some r /\ side r = "BUY"%string.
Proof.
  intros Hord r. rewrite (resolve_in_ordered_log sym Hord).
  destruct (last_trade sym log) as [t|].
  - destruct (String.eqb_spec (side t) "BUY") as [E|E].
    + split; [intros [= <-]; auto | intros [[= <-] _]; reflexivity].
    + split; [discriminate | intros [[= <-] H]; contradiction].
  - split; [discriminate | intros [H _]; discriminate].
Qed.

Lemma open_iff_last_trade_is_buy_witness :
  get_last_buy_for_symbol [sample_btc_buy; sample_buy] "binance_ETHUSDT"
  = Some sample_buy
  <-> last_trade "binance_ETHUSDT" [sample_btc_buy; sample_buy] = Some sample_buy
      /\ side sample_buy = "BUY"%string.
Proof.
  apply (@open_iff_last_trade_is_buy [sample_btc_buy; sample_buy] "binance_ETHUSDT").
  repeat constructor; vm_compute; reflexivity.
Defined.

(* ================================================================== *)
(** * Further properties of [binance_client.py]                        *)
(* ================================================================== *)

(** ** [_parse_order_response] *)



(* ================================================================== *)
(** * Further properties of [risk_manager.py] and [main.py]            *)
(* ================================================================== *)

Section MoreBot.

Variable W : Type.
Variable api : Exchange W.

(** ** The canary check *)

(** [check_binance_btc_balance] writes nothing and answers "safe" exactly
    when a BTC price is available and the BTC balance times that price is
    at least the configured minimum.  It fails closed: without a client
    connection, without a price, or when the balance cannot be read (it
    then counts as 0), the answer is "unsafe". *)
Theorem check_binance_btc_balance_fails_closed (client : BinanceClient)
  (st st' : BotState W) (ok : bool) (tr : list Event) :
  check_binance_btc_balance api client st = (ok, st', tr) ->
  same_files st st' /\ tr = []
  /\ (ok = true <->
      exists balance st1 price,
        get_asset_balance api client "BTC" st = (balance, st1, [])
        /\ get_current_price api client "BTCUSDT" st1 = (Some price, st', [])
        /\ BINANCE_BTC_MIN_VALUE <= balance * price)
  /\ (connected client = false -> ok = false)
  /\ (fst (api_get_asset_balance api "BTC" (world st)) = None -> ok = false).
Proof.
  intros H. pose proof H as Hrun. apply check_binance_btc_balance_run in Hrun.
  destruct Hrun as [F ->]. split; [exact F|]. split; [reflexivity|].
  unfold check_binance_btc_balance in H. apply bind_run in H.
  destruct H as (balance & st1 & t1 & t2 & R1 & H & Et).
  pose proof R1 as X. apply get_asset_balance_run in X. destruct X as [_ ->].
  apply bind_run in H. destruct H as (price & st2 & t3 & t4 & R2 & H & ->).
  pose proof R2 as X. apply get_current_price_run in X. destruct X as [_ ->].
  assert (Hok : ok = true <->
                exists p, price = Some p /\ st2 = st'
                          /\ BINANCE_BTC_MIN_VALUE <= balance * p).
  { destruct price as [p|]; unfold ret in H.
    - destruct (Qltb (balance * p) BINANCE_BTC_MIN_VALUE) eqn:E;
        injection H as <- <- _.
      + apply Qltb_lt in E. split; [discriminate|].
        intros (p' & [= <-] & _ & Hle). exfalso. exact (Qlt_not_le _ _ E Hle).
      + apply Qltb_ge in E. split; [|reflexivity]. intros _. exists p. auto.
    - injection H as <- <- _. split; [discriminate|].
      intros (p' & Hp & _). discriminate. }
  split; [|split].
  - rewrite Hok. split.
    + intros (p & -> & <- & Hle). exists balance, st1, p. auto.
    + intros (b' & s' & p' & Hb & Hp & Hle).
      rewrite R1 in Hb. injection Hb as <- <-.
      rewrite R2 in Hp. injection Hp as -> ->. exists p'. auto.
  - intros Hc. destruct ok; [|reflexivity].
    destruct (proj1 Hok eq_refl) as (p & -> & _).
    unfold get_current_price in R2. rewrite Hc in R2. discriminate.
  - intros Hfail. destruct ok; [|reflexivity].
    destruct (proj1 Hok eq_refl) as (p & _ & _ & Hle).
    assert (Hb : balance = 0).
    { unfold get_asset_balance in R1. destruct (negb (connected client)).
      - unfold ret in R1. congruence.
      - unfold bind, call in R1.
        destruct (api_get_asset_balance api "BTC" (world st)) as [[b|] w];
          simpl in Hfail; [discriminate|].
        unfold ret in R1. congruence. }
    subst balance. unfold BINANCE_BTC_MIN_VALUE in Hle. lra.
Qed.

(** ** The orders [execute_buy] and [execute_sell] ask for *)

(** A buy order is asked for the product itself, for the quantity that
    [TRADE_AMOUNT_USDT] buys at the price [get_current_price] gave, at a
    limit just below that price; a sell order for the balance
    [get_asset_balance] gave for the base asset, at a limit just above the
    price [get_current_price] gave. *)
Theorem orders_are_priced_off_the_market (exchange : string)
  (client : BinanceClient) (product_id : string) :
  (forall (st st' : BotState W) tr s d q p,
     execute_buy api exchange client product_id st = (tt, st', tr) ->
     In (Order_requested s d q p) tr ->
     s = product_id /\ d = "buy"%string
     /\ exists market,
          fst (fst (get_current_price api client product_id st)) = Some market
          /\ ~ market == 0
          /\ q = TRADE_AMOUNT_USDT / market
          /\ p = market * (1 - LIMIT_ORDER_OFFSET)
          /\ (0 < market -> p < market))
  /\ (forall last_buy (st st' : BotState W) tr s d q p,
        execute_sell api exchange client product_id last_buy st = (tt, st', tr) ->
        In (Order_requested s d q p) tr ->
        s = product_id /\ d = "sell"%string
        /\ exists balance st0 market,
             get_asset_balance api client
               (remove_all QUOTE_CURRENCY product_id) st = (balance, st0, [])
             /\ fst (fst (get_current_price api client product_id st0))
                = Some market
             /\ 0 < balance /\ q = balance
             /\ ~ market == 0
             /\ p = market * (1 + LIMIT_ORDER_OFFSET)
             /\ (0 < market -> market < p))
  /\ (forall (st st' : BotState W) tr market st1,
        execute_buy api exchange client product_id st = (tt, st', tr) ->
        get_current_price api client product_id st = (Some market, st1, []) ->
        ~ market == 0 ->
        In (Order_requested product_id "buy" (TRADE_AMOUNT_USDT / market)
              (market * (1 - LIMIT_ORDER_OFFSET))) tr).
Proof.
  split; [|split].
  - intros st st' tr s d q p H Hin. apply execute_buy_run in H.
    destruct H as (price & st1 & E1 & H). rewrite E1. cbn [fst].
    unfold usable_price in H.
    destruct price as [m|]; [|destruct H as [_ ->]; simpl in Hin;
                               destruct Hin as [Hin|[]]; discriminate].
    destruct (Qeq_bool m 0) eqn:Em;
      [destruct H as [_ ->]; simpl in Hin; destruct Hin as [Hin|[]]; discriminate|].
    apply Qeq_bool_false in Em.
    destruct H as (od & st2 & t2 & E2 & H).
    apply place_limit_order_events in E2. destruct E2 as (_ & Hnolog & _ & _ & Hreq).
    assert (Hin2 : In (Order_requested s d q p) t2).
    { destruct (accepted od); [destruct H as (_ & _ & ->) | destruct H as [_ ->]];
        simpl in Hin; destruct Hin as [Hin|Hin]; try discriminate; auto.
      apply in_app_iff in Hin. destruct Hin as [Hin|[Hin|[]]]; [auto|discriminate]. }
    destruct (Hreq _ _ _ _ Hin2) as (-> & -> & -> & ->).
    split; [reflexivity|]. split; [reflexivity|]. exists m.
    split; [reflexivity|]. split; [exact Em|].
    split; [reflexivity|]. split; [reflexivity|].
    unfold LIMIT_ORDER_OFFSET. intros Hm. nra.
  - intros last_buy st st' tr s d q p H Hin. apply execute_sell_run in H.
    destruct H as (balance & st0 & E0 & H).
    destruct (Qltb 0 balance) eqn:Eb;
      [|destruct H as [_ ->]; simpl in Hin; destruct Hin as [Hin|[]]; discriminate].
    apply Qltb_lt in Eb.
    destruct H as (price & st1 & E1 & H).
    unfold usable_price in H.
    destruct price as [m|]; [|destruct H as [_ ->]; simpl in Hin;
                               destruct Hin as [Hin|[]]; discriminate].
    destruct (Qeq_bool m 0) eqn:Em;
      [destruct H as [_ ->]; simpl in Hin; destruct Hin as [Hin|[]]; discriminate|].
    apply Qeq_bool_false in Em.
    destruct H as (od & st2 & t2 & E2 & H).
    apply place_limit_order_events in E2. destruct E2 as (_ & Hnolog & _ & _ & Hreq).
    assert (Hin2 : In (Order_requested s d q p) t2).
    { destruct (accepted od); [cbv zeta in H; destruct H as (_ & _ & ->)
                              | destruct H as [_ ->]];
        simpl in Hin; destruct Hin as [Hin|Hin]; try discriminate; auto.
      apply in_app_iff in Hin. destruct Hin as [Hin|[Hin|[]]]; [auto|discriminate]. }
    destruct (Hreq _ _ _ _ Hin2) as (-> & -> & -> & ->).
    split; [reflexivity|]. split; [reflexivity|]. exists balance, st0, m.
    split; [exact E0|]. rewrite E1. cbn [fst].
    split; [reflexivity|]. split; [exact Eb|]. split; [reflexivity|].
    split; [exact Em|]. split; [reflexivity|].
    unfold LIMIT_ORDER_OFFSET. intros Hm. nra.
  - intros st st' tr market st1 H Eprice Hm. apply execute_buy_run in H.
    destruct H as (price & st1' & E1 & H).
    rewrite Eprice in E1. injection E1 as <- <-.
    unfold usable_price in H. apply Qeq_bool_false in Hm. rewrite Hm in H.
    destruct H as (od & st2 & t2 & E2 & H).
    apply place_limit_order_run in E2. destruct E2 as [_ E2].
    assert (Hin : In (Order_requested product_id "buy" (TRADE_AMOUNT_USDT / market)
                        (market * (1 - LIMIT_ORDER_OFFSET))) t2).
    { destruct E2 as [[_ ->]|(info & rq & rp & _ & _ & _ & _ & -> & _)];
        left; reflexivity. }
    destruct (accepted od); [destruct H as (_ & _ & ->) | destruct H as [_ ->]];
      right; [apply in_app_iff; left|]; exact Hin.
Qed.

(** ** [place_limit_order] without rules for the symbol *)

(** [place_limit_order] fails closed.  Without a connection, without the
    exchange's rules for the symbol, or with a step or tick size of zero
    (the division by zero of the rounding is caught), it answers [None],
    hands nothing to the exchange and leaves the state as it was. *)
Theorem place_limit_order_fails_closed (client : BinanceClient)
  (sym sd : string) (quantity price : Q) (st : BotState W) :
  connected client = false
  \/ lookup_info sym (symbol_info client) = None
  \/ (exists info,
        lookup_info sym (symbol_info client) = Some info
        /\ (step_size info == 0 \/ tick_size info == 0)) ->
  place_limit_order api client sym sd quantity price st
  = (None, st, [Order_requested sym sd quantity price]).
Proof.
  intros H. unfold place_limit_order, bind, emit, ret, call.
  destruct (connected client) eqn:Ec; cbn [negb]; [|reflexivity].
  destruct H as [H|[H|(info & Hi & Hz)]]; [discriminate H | now rewrite H |].
  rewrite Hi. unfold _round_quantity_to_step, _round_price_to_tick, round_down_to.
  destruct (Qeq_bool (step_size info) 0) eqn:Es; [reflexivity|].
  destruct (Qle_bool _ 0); [reflexivity|].
  destruct Hz as [Hz|Hz].
  - apply Qeq_bool_iff in Hz. congruence.
  - apply Qeq_bool_iff in Hz. rewrite Hz. reflexivity.
Qed.

End MoreBot.

Lemma place_limit_order_fails_closed_witness :
  place_limit_order sample_exchange
    {| connected := true;
       symbol_info :=
         [("ETHUSDT"%string, {| tick_size := 1 # 100; step_size := 0 |})] |}
    "ETHUSDT" "sell" 1 100 (sample_state [sample_buy])
  = (None, sample_state [sample_buy], [Order_requested "ETHUSDT" "sell" 1 100]).
Proof.
  apply place_limit_order_fails_closed.
  right. right. eexists. split; [reflexivity|]. left. reflexivity.
Defined.

(** ** The trade log over the product loop *)

Lemma logged_row_or_none (tr : list Event) :
  (exists row, In (Trade_logged row) tr) \/ (forall row, ~ In (Trade_logged row) tr).
Proof.
  induction tr as [|e tr [[row H]|H]].
  - right. intros row [].
  - left. exists row. now right.
  - destruct e; try (right; intros row [E|E]; [discriminate | exact (H row E)]).
    left. eexists. left. reflexivity.
Qed.

Lemma subsequence_nil_l {A : Type} (l : list A) : subsequence [] l.
Proof. induction l; constructor; assumption. Qed.

Lemma alternates_snoc (sym : string) (l : list TradeRecord) (x : TradeRecord) :
  forall o,
    alternates sym o (l ++ [x])
    = alternates sym o l
      && (if is_trade sym "BUY" x then negb (position_after sym o l)
          else if is_trade sym "SELL" x then position_after sym o l else true).
Proof.
  induction l as [|a l IH]; intros o; cbn [app alternates position_after].
  - destruct (is_trade sym "BUY" x); [now rewrite !andb_true_r|].
    destruct (is_trade sym "SELL" x); [now rewrite !andb_true_r | reflexivity].
  - destruct (is_trade sym "BUY" a); [now rewrite IH, andb_assoc|].
    destruct (is_trade sym "SELL" a); [now rewrite IH, andb_assoc | apply IH].
Qed.

Lemma position_after_snoc (sym : string) (l : list TradeRecord) (x : TradeRecord) :
  forall o,
    position_after sym o (l ++ [x])
    = if is_trade sym "BUY" x then true
      else if is_trade sym "SELL" x then false else position_after sym o l.
Proof.
  induction l as [|a l IH]; intros o; cbn [app position_after];
    [reflexivity | apply IH].
Qed.

Lemma position_after_last_trade (sym : string) (l : list TradeRecord) (o : bool) :
  position_after sym o l
  = match last_trade sym l with
    | Some r => String.eqb (side r) "BUY"
    | None => o
    end.
Proof.
  unfold last_trade. induction l as [|x l IH] using rev_ind; [reflexivity|].
  rewrite position_after_snoc, tail1_filter_app. unfold is_any_trade at 1.
  destruct (is_trade sym "BUY" x) eqn:Eb.
  - simpl orb. cbv iota. unfold is_trade in Eb. apply andb_true_iff in Eb.
    symmetry. apply Eb.
  - destruct (is_trade sym "SELL" x) eqn:Es; simpl orb; cbv iota; [|exact IH].
    unfold is_trade in Es. apply andb_true_iff in Es. destruct Es as [_ Es].
    apply String.eqb_eq in Es. rewrite Es. reflexivity.
Qed.

(** In a log whose timestamps increase strictly the position the resolver
    reports is the position after the rows of the log. *)
Lemma resolved_position_after (log : list TradeRecord) (sym : string) :
  strictly_time_ordered log ->
  position_after sym false log
  = match get_last_buy_for_symbol log sym with Some _ => true | None => false end.
Proof.
  intros Hord. rewrite (resolve_in_ordered_log sym Hord), position_after_last_trade.
  destruct (last_trade sym log) as [r|]; [|reflexivity].
  destruct (String.eqb (side r) "BUY"); reflexivity.
Qed.

Lemma strictly_ordered_prefix (l l' : list TradeRecord) :
  strictly_time_ordered (l ++ l') -> strictly_time_ordered l.
Proof.
  unfold strictly_time_ordered. induction l as [|a l IH]; simpl; intros H.
  - constructor.
  - apply StronglySorted_inv in H. destruct H as [Hs Hall].
    constructor; [apply IH; exact Hs|].
    apply Forall_forall. intros y Hy.
    apply (proj1 (Forall_forall _ _) Hall). apply in_app_iff. now left.
Qed.

Section Ledger.

Variable W : Type.
Variable api : Exchange W.

(** A step leaves the log as it was or appends one row to it: a BUY row
    for a product resolved as CLOSED, with the portfolio check passed, or a
    SELL row for a product resolved as OPEN. *)
Lemma process_symbol_appends (exchange : string) (client : BinanceClient)
  (product_id : string) (portfolio_safe : bool) (params : Params)
  (st st' : BotState W) (r : Result unit) (tr : list Event) :
  process_symbol api exchange client product_id portfolio_safe params st
  = (r, st', tr) ->
  ledger st' = ledger st
  \/ exists row,
       ledger st' = ledger st ++ [row]
       /\ symbol row = log_symbol exchange product_id
       /\ ((side row = "BUY"%string
            /\ get_last_buy_for_symbol (ledger st) (log_symbol exchange product_id)
               = None
            /\ portfolio_safe = true)
           \/ (side row = "SELL"%string
               /\ get_last_buy_for_symbol (ledger st) (log_symbol exchange product_id)
                  <> None)).
Proof.
  intros H. apply process_symbol_outcome in H.
  destruct H as [st' Hbtc F | c st' Hcan F | c df st' Hcan Ecrash L O
                | c df st' Hcan Ecrash Esig L
                | c df signal reason st' Hcan Ecrash Esig Nb Ns L O
                | c df reason st1 st' tb Hcan Ecrash Esig Eres Esafe L1 O1 Hx
                | c df reason last_buy st1 st' ts Hcan Ecrash Esig Eres L1 O1 Hx];
    unfold resolved_buy in *.
  - left. apply F.
  - left. apply F.
  - left. exact L.
  - left. exact L.
  - left. exact L.
  - apply execute_buy_events in Hx.
    destruct Hx as (rest & _ & _ & _ & _ & Hlog & Hnolog).
    destruct (logged_row_or_none rest) as [[row Hr]|Hno].
    + destruct (Hlog row Hr) as (L & S1 & S2).
      right. exists row. split; [congruence|]. split; [exact S1|]. left. auto.
    + left. destruct (Hnolog Hno) as [L _]. congruence.
  - apply execute_sell_events in Hx.
    destruct Hx as (rest & _ & _ & _ & _ & Hlog & Hnolog).
    destruct (logged_row_or_none rest) as [[row Hr]|Hno].
    + destruct (Hlog row Hr) as (L & S1 & S2).
      right. exists row. split; [congruence|]. split; [exact S1|]. right.
      split; [exact S2 | congruence].
    + left. destruct (Hnolog Hno) as [L _]. congruence.
Qed.

Lemma process_symbol_keeps_alternating (exchange : string) (client : BinanceClient)
  (product_id : string) (portfolio_safe : bool) (params : Params)
  (st st' : BotState W) (r : Result unit) (tr : list Event) :
  process_symbol api exchange client product_id portfolio_safe params st
  = (r, st', tr) ->
  strictly_time_ordered (ledger st') ->
  positions_alternate (ledger st) ->
  positions_alternate (ledger st').
Proof.
  intros H Hord Halt. apply process_symbol_appends in H.
  destruct H as [L | (row & L & Hsym & Hside)]; [now rewrite L|].
  rewrite L in Hord |- *. apply strictly_ordered_prefix in Hord.
  intros sym. rewrite alternates_snoc, (Halt sym). cbn [andb].
  rewrite (resolved_position_after sym Hord).
  unfold is_trade. rewrite Hsym.
  destruct (String.eqb_spec (log_symbol exchange product_id) sym) as [<-|Hne];
    [|reflexivity].
  cbn [andb].
  destruct Hside as [(-> & -> & _) | [-> Hres]].
  - reflexivity.
  - change (String.eqb "SELL" "BUY") with false.
    change (String.eqb "SELL" "SELL") with true. cbv iota.
    destruct (get_last_buy_for_symbol (ledger st) (log_symbol exchange product_id));
      [reflexivity | contradiction].
Qed.

Lemma process_products_appends (exchange : string) (client : BinanceClient)
  (is_safe : bool) (params : Params) (products : list string)
  (st st' : BotState W) (r : Result unit) (tr : list Event) :
  process_products api exchange client products is_safe params st = (r, st', tr) ->
  exists added,
    ledger st' = ledger st ++ added
    /\ subsequence (map symbol added) (map (log_symbol exchange) products)
    /\ Forall (fun row => side row = "SELL"%string
                          \/ (side row = "BUY"%string /\ is_safe = true)) added.
Proof.
  revert st st' r tr.
  induction products as [|p rest IH]; intros st st' r tr H.
  - unfold process_products, ret in H. injection H as _ <- _.
    exists []. rewrite app_nil_r. repeat constructor.
  - cbn [process_products] in H. apply bind_run in H.
    destruct H as (a & st1 & t1 & t2 & R & H & ->).
    apply process_symbol_appends in R.
    assert (Hrest : exists added2,
               ledger st' = ledger st1 ++ added2
               /\ subsequence (map symbol added2) (map (log_symbol exchange) rest)
               /\ Forall (fun row => side row = "SELL"%string
                                     \/ (side row = "BUY"%string /\ is_safe = true))
                    added2).
    { destruct a as [[]| |].
      - apply IH in H. exact H.
      - unfold ret in H. injection H as _ <- _. exists [].
        rewrite app_nil_r. split; [reflexivity|].
        split; [apply subsequence_nil_l | constructor].
      - unfold ret in H. injection H as _ <- _. exists [].
        rewrite app_nil_r. split; [reflexivity|].
        split; [apply subsequence_nil_l | constructor]. }
    destruct Hrest as (added2 & L2 & Hsub & Hall).
    destruct R as [L1 | (row & L1 & Hsym & Hside)].
    + exists added2. split; [congruence|]. split; [|exact Hall].
      cbn [map]. apply subsequence_skip. exact Hsub.
    + exists (row :: added2). split; [|split].
      * rewrite L2, L1, <- app_assoc. reflexivity.
      * cbn [map]. rewrite Hsym. apply subsequence_take. exact Hsub.
      * constructor; [|exact Hall].
        destruct Hside as [(S & _ & P) | [S _]]; auto.
Qed.

Lemma subsequence_length {A : Type} (a b : list A) :
  subsequence a b -> (List.length a <= List.length b)%nat.
Proof. induction 1; cbn [List.length]; lia. Qed.

Lemma subsequence_In {A : Type} (a b : list A) (x : A) :
  subsequence a b -> In x a -> In x b.
Proof.
  induction 1 as [|y a b Hs IH|y a b Hs IH]; intros Hin.
  - exact Hin.
  - right. exact (IH Hin).
  - destruct Hin as [<-|Hin]; [now left | right; exact (IH Hin)].
Qed.

(** The product loop only ever appends to the trade log, at most one row
    per listed product and in the order of the list, each row under the
    log key of its product.  A BUY row is appended only when the portfolio
    check has passed: with a failed check the loop can only sell. *)
Theorem product_loop_appends_to_log (exchange : string) (client : BinanceClient)
  (is_safe : bool) (params : Params) (products : list string)
  (st st' : BotState W) (r : Result unit) (tr : list Event) :
  process_products api exchange client products is_safe params st = (r, st', tr) ->
  exists added,
    ledger st' = ledger st ++ added
    /\ subsequence (map symbol added) (map (log_symbol exchange) products)
    /\ (List.length added <= List.length products)%nat
    /\ (forall row, In row added ->
          (exists p, In p products /\ symbol row = log_symbol exchange p)
          /\ (side row = "SELL"%string
              \/ (side row = "BUY"%string /\ is_safe = true)))
    /\ (is_safe = false -> forall row, In row added -> side row = "SELL"%string).
Proof.
  intros H. apply process_products_appends in H.
  destruct H as (added & L & Hsub & Hall).
  exists added. split; [exact L|]. split; [exact Hsub|].
  pose proof (proj1 (Forall_forall _ _) Hall) as Hside.
  split; [|split].
  - apply subsequence_length in Hsub. now rewrite !length_map in Hsub.
  - intros row Hrow. split; [|exact (Hside row Hrow)].
    assert (Hin : In (symbol row) (map (log_symbol exchange) products)).
    { eapply subsequence_In; [exact Hsub|]. apply in_map. exact Hrow. }
    apply in_map_iff in Hin. destruct Hin as (p & Ep & Hp).
    exists p. split; [exact Hp | now symmetry].
  - intros Hunsafe row Hrow.
    destruct (Hside row Hrow) as [S|[_ E]]; [exact S | congruence].
Qed.

(** Buying and selling alternate.  If every symbol of the log starts
    closed and is bought and sold in turn, it is still so after the product
    loop, provided the clock moved on between the rows of the log (its
    timestamps increase strictly): no symbol is bought twice without a sale
    in between, and none is sold without having been bought. *)
Theorem product_loop_keeps_positions_alternating (exchange : string)
  (client : BinanceClient) (is_safe : bool) (params : Params)
  (products : list string) (st st' : BotState W) (r : Result unit)
  (tr : list Event) :
  process_products api exchange client products is_safe params st = (r, st', tr) ->
  strictly_time_ordered (ledger st') ->
  positions_alternate (ledger st) ->
  positions_alternate (ledger st').
Proof.
  revert st st' r tr.
  induction products as [|p rest IH]; intros st st' r tr H Hord Halt.
  - unfold process_products, ret in H. injection H as _ <- _. exact Halt.
  - cbn [process_products] in H. apply bind_run in H.
    destruct H as (a & st1 & t1 & t2 & R & H & ->).
    destruct a as [[]| |].
    + pose proof H as Happ. apply process_products_appends in Happ.
      destruct Happ as (added & L & _).
      apply (IH _ _ _ _ H Hord).
      apply (process_symbol_keeps_alternating _ _ _ _ _ _ R); [|exact Halt].
      rewrite L in Hord. apply strictly_ordered_prefix in Hord. exact Hord.
    + unfold ret in H. injection H as _ <- _.
      apply (process_symbol_keeps_alternating _ _ _ _ _ _ R Hord Halt).
    + unfold ret in H. injection H as _ <- _.
      apply (process_symbol_keeps_alternating _ _ _ _ _ _ R Hord Halt).
Qed.

End Ledger.

Lemma product_loop_keeps_positions_alternating_witness :
  positions_alternate (ledger (snd (fst sample_sell_loop))).
Proof.
  apply (product_loop_keeps_positions_alternating
           (sample_api 1 (Some 100) cross_under_closes
              (Some sample_fill_response) 2000)
           "binance" sample_client false small_profile ["ETHUSDT"%string]
           (sample_state [sample_buy]) (sample_step_eq sample_sell_loop)).
  - vm_compute. repeat constructor.
  - intros sym. cbn [sample_state ledger alternates].
    destruct (is_trade sym "BUY" sample_buy); [reflexivity|].
    unfold is_trade. cbn [sample_buy side].
    change (String.eqb "BUY" "SELL") with false. now rewrite andb_false_r.
Defined.

(* ================================================================== *)
(** * Properties of the portfolio check and the strategy cycle         *)
(* ================================================================== *)

Import cycle.

(** ** Sorting on a boolean key *)

Lemma insert_by_key_partition {A : Type} (key : A -> bool) (x : A) (F T : list A) :
  Forall (fun a => key a = false) F ->
  Forall (fun a => key a = true) T ->
  insert_by_key key x (F ++ T) = if key x then F ++ T ++ [x] else F ++ x :: T.
Proof.
  intros HF HT. induction HF as [|a F Ha HF IH]; cbn [app insert_by_key].
  - induction HT as [|b T Hb HT IHT]; cbn [app insert_by_key].
    + destruct (key x); reflexivity.
    + rewrite Hb, andb_true_r. destruct (key x) eqn:Ex; cbn [negb].
      * rewrite IHT. reflexivity.
      * reflexivity.
  - rewrite Ha, andb_false_r, IH. destruct (key x); reflexivity.
Qed.

(** A stable sort on a boolean key puts the entries whose key is false
    first and keeps the order otherwise. *)
Lemma sort_by_key_partition {A : Type} (key : A -> bool) (l : list A) :
  sort_by_key key l = filter (fun a => negb (key a)) l ++ filter key l.
Proof.
  unfold sort_by_key. induction l as [|x l IH] using rev_ind; [reflexivity|].
  rewrite fold_left_app. cbn [fold_left]. rewrite IH.
  rewrite insert_by_key_partition.
  - rewrite !filter_app. cbn [filter]. destruct (key x); cbn [negb].
    + now rewrite app_nil_r.
    + now rewrite app_nil_r, <- app_assoc.
  - apply Forall_forall. intros a Ha. apply filter_In in Ha.
    destruct Ha as [_ Ha]. now apply negb_true_iff in Ha.
  - apply Forall_forall. intros a Ha. apply filter_In in Ha. apply Ha.
Qed.

Lemma map_filter_key {A B : Type} (g : A -> B) (p : B -> bool) (l : list A) :
  map g (filter (fun a => p (g a)) l) = filter p (map g l).
Proof.
  induction l as [|a l IH]; [reflexivity|]. cbn [filter map].
  destruct (p (g a)); cbn [map]; now rewrite IH.
Qed.

Lemma Qsum_app (a b : list Q) : Qsum (a ++ b) == Qsum a + Qsum b.
Proof.
  induction a as [|x a IH]; cbn [app Qsum fold_right].
  - unfold Qsum. cbn [fold_right]. ring.
  - fold (Qsum (a ++ b)). fold (Qsum a). rewrite IH. ring.
Qed.

Lemma Qsum_partition {A : Type} (f : A -> Q) (key : A -> bool) (l : list A) :
  Qsum (map f (filter (fun a => negb (key a)) l ++ filter key l)) == Qsum (map f l).
Proof.
  rewrite map_app, Qsum_app.
  induction l as [|x l IH]; [reflexivity|].
  cbn [filter]. destruct (key x); cbn [negb map].
  - change (Qsum (f x :: map f (filter key l)))
      with (f x + Qsum (map f (filter key l))).
    change (Qsum (f x :: map f l)) with (f x + Qsum (map f l)).
    rewrite <- IH. ring.
  - change (Qsum (f x :: map f (filter (fun a => negb (key a)) l)))
      with (f x + Qsum (map f (filter (fun a => negb (key a)) l))).
    change (Qsum (f x :: map f l)) with (f x + Qsum (map f l)).
    rewrite <- IH. ring.
Qed.

Section Portfolio.

Variable W : Type.
Variable api : Exchange W.
Variable account : AccountApi W.

Lemma same_files_trans (a b c : BotState W) :
  same_files a b -> same_files b c -> same_files a c.
Proof. unfold same_files. intros [L1 O1] [L2 O2]. split; congruence. Qed.

Lemma get_24hr_ticker_run (client : BinanceClient) (sym : string)
  (st st' : BotState W) (r : option Ticker) (tr : list Event) :
  get_24hr_ticker account client sym st = (r, st', tr) ->
  same_files st st' /\ tr = [].
Proof.
  unfold get_24hr_ticker, call, ret, same_files.
  destruct (negb (connected client)).
  - intros [= <- <- <-]. auto.
  - destruct (api_get_ticker account sym (world st)) as [a w].
    intros [= <- <- <-]. simpl. auto.
Qed.

Lemma steady_price_run (client : BinanceClient) (quote : string -> option Q)
  (sym : string) (st st' : BotState W) (r : option Q) (tr : list Event) :
  connected client = true ->
  steady_prices api quote ->
  get_current_price api client sym st = (r, st', tr) ->
  r = quote sym.
Proof.
  intros Hc Hq. unfold get_current_price, call. rewrite Hc. cbn [negb].
  specialize (Hq sym (world st)).
  destruct (api_get_symbol_ticker api sym (world st)) as [a w].
  intros [= <- <- <-]. exact Hq.
Qed.

(** One entry: its asset and free amount are kept, its value is the value
    of the holding, and nothing is written. *)
Lemma enrich_run (client : BinanceClient) (quote : string -> option Q)
  (balance : RawBalance) (st st' : BotState W) (e : EnrichedBalance)
  (tr : list Event) :
  connected client = true ->
  steady_prices api quote ->
  enrich api account client balance st = (e, st', tr) ->
  same_files st st' /\ tr = []
  /\ eb_asset e = asset balance /\ eb_free e = free balance
  /\ usd_value e = holding_value quote (asset balance) (free balance).
Proof.
  intros Hc Hq. unfold enrich, holding_value. cbv zeta.
  destruct (String.eqb (asset balance) QUOTE_CURRENCY).
  - unfold ret. intros [= <- <- <-]. unfold same_files. cbn. auto.
  - intros H. apply bind_run in H.
    destruct H as (price & st1 & t1 & t2 & R1 & H & ->).
    pose proof (@steady_price_run _ _ _ _ _ _ _ Hc Hq R1) as ->.
    apply get_current_price_run in R1. destruct R1 as [F1 ->].
    destruct (usable_price (quote (asset balance ++ QUOTE_CURRENCY)%string)) as [p|].
    + apply bind_run in H. destruct H as (log & st2 & t3 & t4 & R2 & H & ->).
      unfold read_log in R2. injection R2 as <- <- <-.
      apply bind_run in H. destruct H as (tk & st3 & t5 & t6 & R3 & H & ->).
      apply get_24hr_ticker_run in R3. destruct R3 as [F3 ->].
      unfold ret in H. injection H as <- <- <-.
      split; [exact (same_files_trans F1 F3)|]. cbn. auto.
    + unfold ret in H. injection H as <- <- <-. cbn. auto.
Qed.

Lemma enrich_loop_run (client : BinanceClient) (quote : string -> option Q)
  (raw : list RawBalance) :
  connected client = true ->
  steady_prices api quote ->
  forall (acc : list EnrichedBalance) (total : Q) (st st' : BotState W)
         (r : list EnrichedBalance * Q) (tr : list Event),
    enrich_loop api account client raw acc total st = (r, st', tr) ->
    same_files st st' /\ tr = []
    /\ exists new,
         fst r = acc ++ new
         /\ snd r == total + Qsum (map usd_value new)
         /\ map (fun e => (eb_asset e, eb_free e)) new
            = map (fun b => (asset b, free b)) (positive_balances raw)
         /\ Forall (fun e => usd_value e
                             = holding_value quote (eb_asset e) (eb_free e)) new.
Proof.
  intros Hc Hq. induction raw as [|b rest IH]; intros acc total st st' r tr H.
  - unfold enrich_loop, ret in H. injection H as <- <- <-.
    split; [unfold same_files; auto|]. split; [reflexivity|].
    exists []. cbn [fst snd map]. rewrite app_nil_r.
    split; [reflexivity|]. split; [unfold Qsum; cbn; ring|].
    split; [reflexivity | constructor].
  - cbn [enrich_loop] in H. unfold positive_balances. cbn [filter].
    destruct (Qltb 0 (free b)).
    + apply bind_run in H. destruct H as (e & st1 & t1 & t2 & R & H & ->).
      apply (@enrich_run _ _ _ _ _ _ _ Hc Hq) in R. destruct R as (F1 & -> & Ea & Ef & Ev).
      apply IH in H. destruct H as (F2 & -> & new & E1 & E2 & E3 & E4).
      split; [exact (same_files_trans F1 F2)|]. split; [reflexivity|].
      exists (e :: new). split; [|split; [|split]].
      * rewrite E1, <- app_assoc. reflexivity.
      * rewrite E2. cbn [map].
        change (Qsum (usd_value e :: map usd_value new))
          with (usd_value e + Qsum (map usd_value new)). ring.
      * cbn [map]. fold (positive_balances rest). rewrite <- E3, Ea, Ef.
        reflexivity.
      * constructor; [now rewrite Ea, Ef | exact E4].
    + apply IH in H. exact H.
Qed.

(** ** [get_enriched_balances] *)

(** With a connected client, an account that answers and prices that do not
    move during the call, [get_enriched_balances] lists the holdings with a
    positive free amount, those in the quote currency first and the order
    otherwise kept; each is valued as [holding_value] says; the total is
    the sum of these values; and nothing is written or ordered. *)
Theorem get_enriched_balances_values (client : BinanceClient)
  (quote : string -> option Q) (raw : list RawBalance)
  (st st' : BotState W) (r : Raising (list EnrichedBalance * Q))
  (tr : list Event) :
  connected client = true ->
  steady_prices api quote ->
  fst (api_get_account account (world st)) = Some raw ->
  get_enriched_balances api account client st = (r, st', tr) ->
  same_files st st' /\ tr = []
  /\ exists balances total,
       r = Returns (balances, total)
       /\ (let held := map (fun b => (asset b, free b)) (positive_balances raw) in
           map (fun e => (eb_asset e, eb_free e)) balances
           = filter is_quote held ++ filter (fun a => negb (is_quote a)) held)
       /\ Forall (fun e => usd_value e
                           = holding_value quote (eb_asset e) (eb_free e)) balances
       /\ total == Qsum (map usd_value balances)
       /\ total == Qsum (map (fun b => holding_value quote (asset b) (free b))
                           (positive_balances raw)).
Proof.
  intros Hc Hq Hraw H. unfold get_enriched_balances in H.
  rewrite Hc in H. cbn [negb] in H.
  apply bind_run in H. destruct H as (a & st1 & t1 & t2 & R & H & ->).
  assert (Ha : a = Some raw /\ same_files st st1 /\ t1 = []).
  { unfold call in R. destruct (api_get_account account (world st)) as [x w].
    injection R as <- <- <-. unfold same_files. cbn. auto. }
  destruct Ha as (-> & F1 & ->).
  apply bind_run in H. destruct H as (res & st2 & t3 & t4 & R2 & H & ->).
  apply (@enrich_loop_run _ _ _ Hc Hq) in R2.
  destruct R2 as (F2 & -> & new & E1 & E2 & E3 & E4).
  unfold ret in H. injection H as <- <- <-.
  split; [exact (same_files_trans F1 F2)|]. split; [reflexivity|].
  cbn [app] in E1. rewrite E1.
  eexists. eexists. split; [reflexivity|].
  rewrite sort_by_key_partition.
  assert (Ekey : forall p : EnrichedBalance -> bool,
             p = (fun a => negb (negb (String.eqb (eb_asset a) QUOTE_CURRENCY))) ->
             filter p new
             = filter (fun e => is_quote (eb_asset e, eb_free e)) new).
  { intros p ->. apply filter_ext. intros e. unfold is_quote. cbn [fst].
    apply negb_involutive. }
  split; [|split; [|split]].
  - cbv zeta. rewrite <- E3, map_app.
    rewrite <- (map_filter_key (fun e => (eb_asset e, eb_free e)) is_quote).
    rewrite <- (map_filter_key (fun e => (eb_asset e, eb_free e))
                  (fun a => negb (is_quote a))).
    rewrite (Ekey _ eq_refl). reflexivity.
  - apply Forall_app. split; apply Forall_forall; intros e He;
      apply filter_In in He; destruct He as [He _];
      exact (proj1 (Forall_forall _ _) E4 e He).
  - rewrite E2.
    rewrite (Qsum_partition usd_value
               (fun x => negb (String.eqb (eb_asset x) QUOTE_CURRENCY)) new).
    ring.
  - rewrite E2. rewrite Qplus_0_l.
    assert (Ev : map usd_value new
                 = map (fun a => holding_value quote (fst a) (snd a))
                     (map (fun e => (eb_asset e, eb_free e)) new)).
    { rewrite map_map. apply map_ext_in. intros e He. cbn [fst snd].
      exact (proj1 (Forall_forall _ _) E4 e He). }
    rewrite Ev, E3, map_map. reflexivity.
Qed.

End Portfolio.

(** ** [check_portfolio_risk] *)

Section PortfolioCheck.

Variable W : Type.
Variable api : Exchange W.
Variable account : AccountApi W.

Lemma enrich_files (client : BinanceClient) (balance : RawBalance)
  (st st' : BotState W) (e : EnrichedBalance) (tr : list Event) :
  enrich api account client balance st = (e, st', tr) ->
  same_files st st' /\ tr = [].
Proof.
  unfold enrich. cbv zeta.
  destruct (String.eqb (asset balance) QUOTE_CURRENCY).
  - unfold ret. intros [= <- <- <-]. unfold same_files. auto.
  - intros H. apply bind_run in H.
    destruct H as (price & st1 & t1 & t2 & R1 & H & ->).
    apply get_current_price_run in R1. destruct R1 as [F1 ->].
    destruct (usable_price price) as [p|].
    + apply bind_run in H. destruct H as (log & st2 & t3 & t4 & R2 & H & ->).
      unfold read_log in R2. injection R2 as <- <- <-.
      apply bind_run in H. destruct H as (tk & st3 & t5 & t6 & R3 & H & ->).
      apply get_24hr_ticker_run in R3. destruct R3 as [F3 ->].
      unfold ret in H. injection H as <- <- <-.
      split; [exact (same_files_trans F1 F3) | reflexivity].
    + unfold ret in H. injection H as <- <- <-. auto.
Qed.

Lemma enrich_loop_files (client : BinanceClient) (raw : list RawBalance) :
  forall (acc : list EnrichedBalance) (total : Q) (st st' : BotState W)
         (r : list EnrichedBalance * Q) (tr : list Event),
    enrich_loop api account client raw acc total st = (r, st', tr) ->
    same_files st st' /\ tr = [].
Proof.
  induction raw as [|b rest IH]; intros acc total st st' r tr H.
  - unfold enrich_loop, ret in H. injection H as <- <- <-.
    unfold same_files. auto.
  - cbn [enrich_loop] in H. destruct (Qltb 0 (free b)).
    + apply bind_run in H. destruct H as (e & st1 & t1 & t2 & R & H & ->).
      apply enrich_files in R. destruct R as [F1 ->].
      apply IH in H. destruct H as [F2 ->].
      split; [exact (same_files_trans F1 F2) | reflexivity].
    + apply IH in H. exact H.
Qed.

Lemma get_enriched_balances_run (client : BinanceClient) (st st' : BotState W)
  (r : Raising (list EnrichedBalance * Q)) (tr : list Event) :
  get_enriched_balances api account client st = (r, st', tr) ->
  same_files st st' /\ tr = []
  /\ (connected client = false -> r = Returns ([], 0))
  /\ (forall e, r = Raises e ->
        e = Account_error /\ connected client = true
        /\ fst (api_get_account account (world st)) = None)
  /\ (connected client = true ->
      fst (api_get_account account (world st)) = None ->
      r = Raises Account_error).
Proof.
  unfold get_enriched_balances. destruct (connected client); cbn [negb].
  - intros H. apply bind_run in H. destruct H as (a & st1 & t1 & t2 & R & H & ->).
    assert (Ha : a = fst (api_get_account account (world st))
                 /\ same_files st st1 /\ t1 = []).
    { unfold call in R. destruct (api_get_account account (world st)) as [x w].
      injection R as <- <- <-. unfold same_files. cbn. auto. }
    destruct Ha as (Ea & F1 & ->).
    destruct a as [raw|].
    + apply bind_run in H. destruct H as (res & st2 & t3 & t4 & R2 & H & ->).
      apply enrich_loop_files in R2. destruct R2 as [F2 ->].
      unfold ret in H. injection H as <- <- <-.
      split; [exact (same_files_trans F1 F2)|]. split; [reflexivity|].
      split; [discriminate|]. split; [discriminate|].
      intros _ Hn. rewrite <- Ea in Hn. discriminate.
    + unfold ret in H. injection H as <- <- <-.
      split; [exact F1|]. split; [reflexivity|]. split; [discriminate|].
      split; [|reflexivity]. intros e [= <-]. auto.
  - unfold ret. intros [= <- <- <-].
    split; [unfold same_files; auto|]. split; [reflexivity|].
    split; [reflexivity|]. split; [discriminate | discriminate].
Qed.

(** The total of [calculate_total_portfolio_value] is the total that
    [get_enriched_balances] returns. *)
Lemma calculate_total_portfolio_value_run (client : BinanceClient)
  (st st' : BotState W) (r : Raising Q) (tr : list Event) :
  calculate_total_portfolio_value api account client st = (r, st', tr) ->
  if connected client then
    exists r0,
      get_enriched_balances api account client st = (r0, st', [])
      /\ tr = []
      /\ r = match r0 with
             | Returns (_, total) => Returns total
             | Raises e => Raises e
             end
  else r = Returns 0 /\ st' = st /\ tr = [].
Proof.
  unfold calculate_total_portfolio_value.
  destruct (connected client) eqn:Hc; cbn [negb].
  - intros H. apply bind_run in H. destruct H as (r0 & st1 & t1 & t2 & R & H & ->).
    pose proof R as X. apply get_enriched_balances_run in X.
    destruct X as (_ & -> & _).
    exists r0. destruct r0 as [[bl total]|e]; unfold ret in H;
      injection H as <- <- <-; auto.
  - unfold ret. intros [= <- <- <-]. auto.
Qed.

(** [check_portfolio_risk] writes and orders nothing.  It answers "safe"
    exactly when the total it returns is at least
    [SAFE_PORTFOLIO_VALUE_THRESHOLD]; a client without a connection has a
    portfolio of 0 and is never safe; when the account cannot be read the
    exception leaves the check.  The total is the one
    [get_enriched_balances] computes. *)
Theorem check_portfolio_risk_threshold (client : BinanceClient)
  (st st' : BotState W) (r : Raising (bool * Q)) (tr : list Event) :
  check_portfolio_risk api account client st = (r, st', tr) ->
  same_files st st' /\ tr = []
  /\ (forall is_safe total, r = Returns (is_safe, total) ->
        is_safe = true <-> SAFE_PORTFOLIO_VALUE_THRESHOLD <= total)
  /\ (connected client = false -> r = Returns (false, 0))
  /\ (connected client = true ->
      (fst (api_get_account account (world st)) = None <-> r = Raises Account_error)
      /\ exists r0,
           get_enriched_balances api account client st = (r0, st', [])
           /\ match r0 with
              | Returns (_, total) => exists is_safe, r = Returns (is_safe, total)
              | Raises e => r = Raises e
              end).
Proof.
  intros H. unfold check_portfolio_risk in H. apply bind_run in H.
  destruct H as (r1 & st1 & t1 & t2 & R & H & ->).
  apply calculate_total_portfolio_value_run in R.
  assert (Hr : t2 = [] /\ st' = st1
               /\ r = match r1 with
                      | Returns total =>
                          Returns (negb (Qltb total SAFE_PORTFOLIO_VALUE_THRESHOLD),
                                   total)
                      | Raises e => Raises e
                      end).
  { destruct r1 as [total|e]; [|unfold ret in H; injection H as <- <- <-; auto].
    destruct (Qltb total SAFE_PORTFOLIO_VALUE_THRESHOLD);
      unfold ret in H; injection H as <- <- <-; auto. }
  destruct Hr as (-> & -> & Er). clear H.
  assert (Hsafe : forall is_safe total, r = Returns (is_safe, total) ->
                    is_safe = true <-> SAFE_PORTFOLIO_VALUE_THRESHOLD <= total).
  { intros is_safe total E. rewrite Er in E.
    destruct r1 as [t|e]; [|discriminate]. injection E as <- <-.
    destruct (Qltb t SAFE_PORTFOLIO_VALUE_THRESHOLD) eqn:Et; cbn [negb].
    - apply Qltb_lt in Et. split; [discriminate|].
      intros Hle. exfalso. exact (Qlt_not_le _ _ Et Hle).
    - apply Qltb_ge in Et. split; auto. }
  destruct (connected client) eqn:Hc.
  - destruct R as (r0 & R & -> & E1).
    pose proof R as X. apply get_enriched_balances_run in X.
    destruct X as (F & _ & _ & Hraise & Hnone).
    split; [exact F|]. split; [reflexivity|]. split; [exact Hsafe|].
    split; [discriminate|]. intros _. split.
    + split.
      * intros Hn. rewrite Er, E1, (Hnone Hc Hn). reflexivity.
      * intros E. rewrite Er, E1 in E.
        destruct r0 as [[bl t]|e]; [discriminate|].
        injection E as ->. apply (Hraise Account_error eq_refl).
    + exists r0. split; [exact R|]. rewrite Er, E1.
      destruct r0 as [[bl t]|e]; [eexists|]; reflexivity.
  - destruct R as (-> & -> & ->).
    split; [unfold same_files; auto|]. split; [reflexivity|].
    split; [exact Hsafe|]. split; [|discriminate].
    intros _. rewrite Er. reflexivity.
Qed.

End PortfolioCheck.

(** ** [run_strategy_cycle] *)


Section CycleGates.

Variable W : Type.
Variable api : Exchange W.
Variable account : AccountApi W.








End CycleGates.

(** ** The properties on the sample account *)

Lemma check_binance_btc_balance_fails_closed_witness :
  fst (fst sample_canary_check) = true /\ snd sample_canary_check = [].
Proof.
  destruct (@check_binance_btc_balance_fails_closed unit sample_exchange
              sample_client (sample_state []) _ _ _
              (sample_step_eq sample_canary_check))
    as (_ & Ht & Hok & _).
  split; [|exact Ht]. apply Hok.
  exists 1, (sample_state []), 100.
  split; [reflexivity|]. split; [reflexivity|]. vm_compute. discriminate.
Defined.

Lemma product_loop_appends_to_log_witness :
  exists added,
    ledger (snd (fst sample_sell_loop)) = [sample_buy] ++ added
    /\ subsequence (map symbol added)
         (map (log_symbol "binance") ["ETHUSDT"%string])
    /\ (List.length added <= 1)%nat.
Proof.
  destruct (@product_loop_appends_to_log unit
           (sample_api 1 (Some 100) cross_under_closes
              (Some sample_fill_response) 2000)
           "binance" sample_client false small_profile ["ETHUSDT"%string]
           (sample_state [sample_buy]) _ _ _ (sample_step_eq sample_sell_loop))
    as (added & L & Hsub & Hlen & _).
  exists added. split; [exact L|]. split; [exact Hsub | exact Hlen].
Defined.

Lemma get_enriched_balances_values_witness :
  exists balances total,
    fst (fst sample_portfolio) = Returns (balances, total)
    /\ total == 250.
Proof.
  destruct (@get_enriched_balances_values unit sample_exchange (sample_account 12)
              sample_client (fun _ => Some 100) sample_raw_balances
              (sample_state []) _ _ _
              eq_refl (fun _ _ => eq_refl) eq_refl (sample_step_eq sample_portfolio))
    as (_ & _ & balances & total & E & _ & _ & _ & Ht).
  exists balances, total. split; [exact E | exact Ht].
Defined.

Lemma check_portfolio_risk_threshold_witness :
  true = true <-> SAFE_PORTFOLIO_VALUE_THRESHOLD <= 250.
Proof.
  apply (proj1 (proj2 (proj2
           (@check_portfolio_risk_threshold unit sample_exchange (sample_account 12)
              sample_client (sample_state []) _ _ _
              (sample_step_eq sample_portfolio_check))))).
  vm_compute. reflexivity.
Defined.


(* ================================================================== *)
(** * Properties of the daily balance log and the dashboard metrics    *)
(* ================================================================== *)

Import reports.

Lemma iloc_last_snoc {A : Type} (l : list A) (x : A) : iloc_last (l ++ [x]) = Some x.
Proof. unfold iloc_last. now rewrite rev_unit. Qed.

(** ** [run_scheduled_tasks] *)

(** The daily task appends at most one row to the daily balance log, dated
    today, and only when the last row of the log is not of today.  When a
    summary is sent, more than 24 hours have passed since the last one,
    the timer is reset, today's balance is in the log, and the previous
    total of the summary is the last logged value of another day: a row of
    today, old or just written, is never taken for the previous day.
    When none is sent nothing changes; and after a summary no further one
    is sent, and nothing is logged, within the next 24 hours. *)
Theorem daily_balance_is_logged_once_a_day (now : Z) (today : string)
  (portfolio : option (Raising (list EnrichedBalance * Q))) (s : Scheduler) :
  let s' := fst (run_scheduled_tasks now today portfolio s) in
  let sent := snd (run_scheduled_tasks now today portfolio s) in
  (daily_log s' = daily_log s
   \/ (has_logged_today today (daily_log s) = false
       /\ exists total,
            daily_log s'
            = daily_log s
              ++ [{| date := today; total_portfolio_value_usdt := total |}]))
  /\ previous_total_value today (daily_log s')
     = previous_total_value today (daily_log s)
  /\ (forall summary, sent = Some summary ->
        (now - last_notification_time s > 86400)%Z
        /\ last_notification_time s' = now
        /\ has_logged_today today (daily_log s') = true
        /\ previous_total summary = previous_total_value today (daily_log s)
        /\ exists balances,
             portfolio = Some (Returns (balances, current_total summary)))
  /\ (sent = None -> s' = s)
  /\ (sent <> None ->
      forall now2 today2 portfolio2,
        (now2 - now <= 86400)%Z ->
        run_scheduled_tasks now2 today2 portfolio2 s' = (s', None)).
Proof.
  cbv zeta. unfold run_scheduled_tasks.
  destruct (now - last_notification_time s >? 86400)%Z eqn:Et.
  2:{ cbn [fst snd]. split; [auto|]. split; [reflexivity|].
      split; [discriminate|]. split; [reflexivity|]. intros Hn. congruence. }
  apply Z.gtb_lt in Et.
  destruct portfolio as [[[balances total]|e]|].
  2,3: cbn [fst snd]; (split; [auto|]); (split; [reflexivity|]);
       (split; [discriminate|]); (split; [reflexivity|]); intros Hn; congruence.
  cbn [fst snd daily_log last_notification_time].
  assert (Hprev : forall l,
            previous_total_value today
              (l ++ [{| date := today; total_portfolio_value_usdt := total |}])
            = previous_total_value today l).
  { intros l. unfold previous_total_value. cbv zeta.
    rewrite filter_app. cbn [filter date]. rewrite String.eqb_refl. cbn [negb].
    now rewrite app_nil_r. }
  split; [|split; [|split; [|split]]].
  - destruct (has_logged_today today (daily_log s)) eqn:Eh; cbn [negb].
    + left. reflexivity.
    + right. split; [reflexivity|]. exists total. reflexivity.
  - destruct (has_logged_today today (daily_log s)); cbn [negb];
      [reflexivity | apply Hprev].
  - intros summary [= <-]. cbn [current_total previous_total].
    split; [lia|]. split; [reflexivity|]. split; [|split].
    + destruct (has_logged_today today (daily_log s)) eqn:Eh; cbn [negb];
        [exact Eh|].
      unfold has_logged_today, log_daily_balance.
      rewrite iloc_last_snoc. cbn [date]. apply String.eqb_refl.
    + reflexivity.
    + exists balances. reflexivity.
  - discriminate.
  - intros _ now2 today2 portfolio2 Hlate.
    cbn [last_notification_time].
    replace (now2 - now >? 86400)%Z with false; [reflexivity|].
    symmetry. rewrite Z.gtb_ltb. apply Z.ltb_ge. exact Hlate.
Qed.

(** ** The performance metrics of the dashboard *)

Lemma filter_length_all {A : Type} (f : A -> bool) (l : list A) :
  List.length (filter f l) = List.length l <-> forall x, In x l -> f x = true.
Proof.
  induction l as [|a l IH]; cbn [filter List.length In].
  - split; [intros _ x [] | reflexivity].
  - pose proof (filter_length_le f l) as Hle.
    destruct (f a) eqn:Ea; cbn [List.length].
    + split.
      * intros H x [<-|Hx]; [exact Ea|]. apply IH; [lia | exact Hx].
      * intros H. f_equal. apply IH. intros x Hx. apply H. now right.
    + split; [lia|]. intros H. specialize (H a (or_introl eq_refl)). congruence.
Qed.

(** The metrics are computed for every trade log that has a row; on a log
    without rows the request fails with the KeyError.  When computed, the
    win rate is a percentage: it lies between 0 and 100; it is 0 when there
    is no sell; and it is 100 exactly when there is a sell and every sell
    of the exchange closed with a profit.  The number of trades shown is
    the number of SELL rows of the exchange. *)
Theorem win_rate_is_a_percentage (exchange_name : string)
  (trade_df : list TradeRecord) :
  let is_sell := fun r => String.prefix (exchange_name ++ "_") (symbol r)
                          && String.eqb (side r) "SELL" in
  (performance_metrics exchange_name trade_df = None <-> trade_df = [])
  /\ (trade_df <> [] ->
      exists realized_pnl win_rate total_sells,
        performance_metrics exchange_name trade_df
        = Some (realized_pnl, win_rate, total_sells)
        /\ 0 <= win_rate /\ win_rate <= 100
        /\ total_sells = List.length (filter is_sell trade_df)
        /\ (total_sells = 0%nat -> win_rate = 0)
        /\ (win_rate == 100 <->
            (0 < total_sells)%nat
            /\ forall r, In r trade_df -> is_sell r = true -> 0 < pnl r)).
Proof.
  cbv zeta. unfold performance_metrics.
  destruct (empty trade_df) eqn:Ee.
  { destruct trade_df; [|discriminate Ee].
    split; [split; reflexivity | intros Hne; now contradiction Hne]. }
  assert (Hne : trade_df <> []) by (intros ->; discriminate Ee).
  split; [split; [discriminate | intros E; contradiction]|]. intros _.
  cbv zeta.
  rewrite (filter_filter
             (fun r => String.prefix (exchange_name ++ "_") (symbol r))
             (fun r => String.eqb (side r) "SELL")).
  set (sells := filter (fun r => String.prefix (exchange_name ++ "_") (symbol r)
                                 && String.eqb (side r) "SELL") trade_df).
  set (n := List.length sells).
  set (k := List.length (filter (fun r => Qltb 0 (pnl r)) sells)).
  assert (Hkn : (k <= n)%nat) by apply filter_length_le.
  assert (Hall : k = n <->
                 forall r, In r trade_df ->
                   String.prefix (exchange_name ++ "_") (symbol r)
                   && String.eqb (side r) "SELL" = true -> 0 < pnl r).
  { unfold k, n. rewrite filter_length_all. unfold sells. split.
    - intros H r Hr Hs. apply Qltb_lt. apply H. apply filter_In. auto.
    - intros H r Hr. apply filter_In in Hr. destruct Hr as [Hr Hs].
      apply Qltb_lt. apply H; assumption. }
  eexists _, _, n. split; [reflexivity|].
  destruct (0 <? n)%nat eqn:En.
  - apply Nat.ltb_lt in En.
    assert (HN : 0 < inject_Z (Z.of_nat n)).
    { change 0 with (inject_Z 0). rewrite <- Zlt_Qlt. lia. }
    assert (HK : 0 <= inject_Z (Z.of_nat k)).
    { change 0 with (inject_Z 0). rewrite <- Zle_Qle. lia. }
    assert (HKN : inject_Z (Z.of_nat k) <= inject_Z (Z.of_nat n)).
    { rewrite <- Zle_Qle. lia. }
    assert (H0 : 0 <= inject_Z (Z.of_nat k) / inject_Z (Z.of_nat n)).
    { apply Qle_shift_div_l; [exact HN|]. lra. }
    assert (H1 : inject_Z (Z.of_nat k) / inject_Z (Z.of_nat n) <= 1).
    { apply Qle_shift_div_r; [exact HN|]. lra. }
    split; [lra|]. split; [lra|]. split; [reflexivity|].
    split; [intros Hz; lia|].
    rewrite <- Hall. split.
    + intros Hw. split; [exact En|].
      assert (Hq : inject_Z (Z.of_nat k) / inject_Z (Z.of_nat n) == 1) by lra.
      assert (Hkq : inject_Z (Z.of_nat k) == inject_Z (Z.of_nat n)).
      { rewrite <- (Qmult_div_r (inject_Z (Z.of_nat k)) (inject_Z (Z.of_nat n)))
          by lra.
        rewrite Hq. ring. }
      unfold Qeq in Hkq. cbn [inject_Z Qnum Qden] in Hkq. lia.
    + intros [_ E]. rewrite E. field. lra.
  - apply Nat.ltb_ge in En. assert (n = 0%nat) by lia.
    split; [lra|]. split; [lra|]. split; [reflexivity|].
    split; [reflexivity|]. split; [intros Hw; lra | intros [Hp _]; lia].
Qed.
